(** * Resume analyser backend: the match-scoring pipeline

    A shallow embedding of the skill reconciler ([AIService.analyzeSkillGaps]),
    the similarity scorer ([VectorService.calculateSimilarityPercentage]),
    the zod schemas of [types/index.ts] and the job and resume controllers
    ([matchJob], [findCandidates], [deleteJob], [deleteResume]), followed by
    the properties of the specification that were checked against them.

    Conventions of the embedding.
    - A JavaScript string is a [string]: the sequence of its code units.
    - A JavaScript number is the rational it denotes ([Q]); infinities and
      NaN are not numbers here, and the two zeros are one. Arithmetic that
      the source does on doubles rounds its exact result to the nearest
      double ([Double.round], IEEE 754 binary64, a tie going to the even
      significand); [Math.round x] is [Qfloor (x + 1/2)] and [Math.min] is
      the smaller argument, both exact on doubles. The scorer is also given
      on the kernel's doubles ([Binary64]), to compare the two on the scores
      the properties name.
    - An [async] function that only computes is a function; one that talks
      to OpenAI, Pinecone or Prisma is a computation in the monad [M] of
      section "Effects", which threads the [World] and may throw. *)

From Stdlib Require Import List String Ascii Bool Arith ZArith QArith Qround Qabs Qpower.
From Stdlib Require Import Lia Lqa Permutation DecimalString DecimalNat.
From Stdlib Require Import Floats Uint63.
Import ListNotations.

Local Open Scope string_scope.
Local Open Scope list_scope.

#[local] Set Warnings "-register-all,-abstract-large-number,-inexact-float".

(* ================================================================== *)
(** * JavaScript primitives used by the services *)
(* ================================================================== *)

Module JS.

(** [String.prototype.toLowerCase], one code unit at a time. The code
    units of [ascii] are the code units below 256, which are the
    characters of Latin-1; among them the upper-case letters are [A]-[Z]
    (65-90), [À]-[Ö] (192-214) and [Ø]-[Þ] (216-222), each 32 below its
    lower-case letter; every other code unit (the multiplication sign 215
    and the sharp s 223 among them) is left as it is. *)
Definition toLowerCase_unit (c : ascii) : ascii :=
  let n := nat_of_ascii c in
  if ((65 <=? n) && (n <=? 90)
      || (192 <=? n) && (n <=? 214)
      || (216 <=? n) && (n <=? 222))%nat
  then ascii_of_nat (n + 32) else c.

Fixpoint toLowerCase (s : string) : string :=
  match s with
  | EmptyString => EmptyString
  | String c r => String (toLowerCase_unit c) (toLowerCase r)
  end.

(** [s.includes(sub)]: [sub] occurs in [s] at some position. *)
Fixpoint includes (s sub : string) : bool :=
  if String.prefix sub s then true
  else match s with
       | EmptyString => false
       | String _ r => includes r sub
       end.

(** [new Set(xs)] keeps the first occurrence of every element, in
    insertion order; [has] is membership and [Array.from] is the list
    itself. *)
Definition Set_has (st : list string) (x : string) : bool :=
  existsb (String.eqb x) st.

Definition Set_add (st : list string) (x : string) : list string :=
  if Set_has st x then st else st ++ [x].

Definition Set_of (xs : list string) : list string :=
  fold_left Set_add xs [].

(** [Array.prototype.find]. *)
Definition find {A} (p : A -> bool) (xs : list A) : option A := List.find p xs.

(** [Math.round]: the nearest integer, a half rounding up. *)
Definition Math_round (x : Q) : Z := Qfloor (x + (1 # 2)).

(** [Math.min] on numbers. *)
Definition Math_min (a b : Q) : Q := if Qle_bool a b then a else b.

End JS.

(** ** Doubles *)

(** The numbers of JavaScript are the doubles of IEEE 754 (binary64): a
    significand of 53 bits and an exponent from -1074 on. An operation of
    the source on numbers is the exact operation on rationals followed by
    [round]. (The largest double, near 2^1024, is never reached by the
    code modelled here, so [round] has no overflow.) *)
Module Double.

Local Open Scope Q_scope.

(** The floor of the binary logarithm of a positive rational. *)
Definition ilog2 (x : Q) : Z :=
  let k := (Z.log2 (Qnum x) - Z.log2 (Zpos (Qden x)))%Z in
  if Qle_bool (2 ^ k) x then k else (k - 1)%Z.

(** The exponent of the unit in the last place of the doubles around
    [x]: 52 binary places below the leading one, and never below -1074. *)
Definition exponent (x : Q) : Z := Z.max (ilog2 (Qabs x) - 52) (-1074).

(** The nearest integer, a tie going to the even one. *)
Definition nearestEven (y : Q) : Z :=
  let f := Qfloor y in
  match Qcompare (y - inject_Z f) (1 # 2) with
  | Lt => f
  | Gt => (f + 1)%Z
  | Eq => if Z.even f then f else (f + 1)%Z
  end.

(** The double nearest to [x], a tie going to the even significand. *)
Definition round (x : Q) : Q :=
  Qred (inject_Z (nearestEven (x / 2 ^ exponent x)) * 2 ^ exponent x).

End Double.

(* ================================================================== *)
(** * types/index.ts: the data model *)
(* ================================================================== *)

(** [interface ExtractedSkills]: five list fields that are always there
    and four optional fields ([?:]), absent as [None]. *)
Record ExtractedSkills := mkExtractedSkills {
  technicalSkills : list string;
  frameworks : list string;
  languages : list string;
  tools : list string;
  softSkills : list string;
  yearsOfExperience : option Q;
  currentRole : option string;
  education : option (list string);
  certifications : option (list string)
}.

(** [interface SkillGap]. *)
Record SkillGap := mkSkillGap {
  missing : list string;
  matched : list string;
  partial : list string
}.

(** A parsed JSON value ([JSON.parse], [req.body]). A property that is
    not there ([undefined]) is a lookup that returns [None]. *)
Inductive json :=
| JNull
| JBool (b : bool)
| JNum (q : Q)
| JStr (s : string)
| JArr (xs : list json)
| JObj (fields : list (string * json)).

Fixpoint assoc (k : string) (fields : list (string * json)) : option json :=
  match fields with
  | [] => None
  | (k', v) :: rest => if String.eqb k k' then Some v else assoc k rest
  end.

(** [j.k] (or [j[k]]) on a parsed value. *)
Definition prop (k : string) (j : json) : option json :=
  match j with
  | JObj fields => assoc k fields
  | _ => None
  end.

(** [interface JobMatchRequest]. *)
Record JobMatchRequest := mkJobMatchRequest {
  req_resumeId : string;
  req_jobTitle : string;
  req_jobDescription : string;
  req_company : option string
}.

(** ** The zod schemas *)

Module Zod.

(** The outcome of [safeParse]: the data, or the message of the first
    issue ([error.errors[0].message]). *)
Inductive SafeParse (A : Type) :=
| ParseOk (data : A)
| ParseError (message : string).
Arguments ParseOk {A} data.
Arguments ParseError {A} message.

Definition andThen {A B} (r : SafeParse A) (k : A -> SafeParse B) : SafeParse B :=
  match r with
  | ParseOk a => k a
  | ParseError m => ParseError m
  end.

(** zod's name of the type it received, for its [invalid_type] issue. *)
Definition typeName (j : json) : string :=
  match j with
  | JNull => "null"
  | JBool _ => "boolean"
  | JNum _ => "number"
  | JStr _ => "string"
  | JArr _ => "array"
  | JObj _ => "object"
  end.

Definition invalidType {A} (expected : string) (v : option json) : SafeParse A :=
  match v with
  | None => ParseError "Required"
  | Some j => ParseError ("Expected " ++ expected ++ ", received " ++ typeName j)
  end.

(** [z.string()]. *)
Definition string_ (v : option json) : SafeParse string :=
  match v with
  | Some (JStr s) => ParseOk s
  | _ => invalidType "string" v
  end.

(** [z.string().min(n, message)]: at least [n] code units. *)
Definition string_min (n : nat) (message : string) (v : option json) : SafeParse string :=
  andThen (string_ v)
    (fun s => if (String.length s <? n)%nat then ParseError message else ParseOk s).

(** [z.number()]. *)
Definition number (v : option json) : SafeParse Q :=
  match v with
  | Some (JNum q) => ParseOk q
  | _ => invalidType "number" v
  end.

Fixpoint strings (xs : list json) : SafeParse (list string) :=
  match xs with
  | [] => ParseOk []
  | x :: rest =>
      andThen (string_ (Some x))
        (fun s => andThen (strings rest) (fun ss => ParseOk (s :: ss)))
  end.

(** [z.array(z.string())]. *)
Definition array_string (v : option json) : SafeParse (list string) :=
  match v with
  | Some (JArr xs) => strings xs
  | _ => invalidType "array" v
  end.

(** [schema.optional()]: [undefined] passes as it is. *)
Definition optional {A} (schema : option json -> SafeParse A) (v : option json)
  : SafeParse (option A) :=
  match v with
  | None => ParseOk None
  | Some _ => andThen (schema v) (fun a => ParseOk (Some a))
  end.

(** [schema.default(d)]: [undefined] becomes [d]. *)
Definition default {A} (schema : option json -> SafeParse A) (d : A) (v : option json)
  : SafeParse A :=
  match v with
  | None => ParseOk d
  | Some _ => schema v
  end.

(** [z.object({...})]: the keys of the shape are parsed in their order,
    so the first issue belongs to the first key that fails. *)
Definition object {A} (j : json) (shape : SafeParse A) : SafeParse A :=
  match j with
  | JObj _ => shape
  | _ => invalidType "object" (Some j)
  end.

End Zod.

Definition JobMatchRequestSchema (body : json) : Zod.SafeParse JobMatchRequest :=
  Zod.object body
    (Zod.andThen (Zod.string_min 1 "Resume ID is required" (prop "resumeId" body))
       (fun resumeId =>
     Zod.andThen (Zod.string_min 1 "Job title is required" (prop "jobTitle" body))
       (fun jobTitle =>
     Zod.andThen (Zod.string_min 50 "Job description must be at least 50 characters"
                    (prop "jobDescription" body))
       (fun jobDescription =>
     Zod.andThen (Zod.optional Zod.string_ (prop "company" body))
       (fun company =>
     Zod.ParseOk (mkJobMatchRequest resumeId jobTitle jobDescription company)))))).

Definition ExtractedSkillsSchema (raw : json) : Zod.SafeParse ExtractedSkills :=
  Zod.object raw
    (Zod.andThen (Zod.default Zod.array_string [] (prop "technicalSkills" raw))
       (fun technicalSkills =>
     Zod.andThen (Zod.default Zod.array_string [] (prop "frameworks" raw))
       (fun frameworks =>
     Zod.andThen (Zod.default Zod.array_string [] (prop "languages" raw))
       (fun languages =>
     Zod.andThen (Zod.default Zod.array_string [] (prop "tools" raw))
       (fun tools =>
     Zod.andThen (Zod.default Zod.array_string [] (prop "softSkills" raw))
       (fun softSkills =>
     Zod.andThen (Zod.optional Zod.number (prop "yearsOfExperience" raw))
       (fun yearsOfExperience =>
     Zod.andThen (Zod.optional Zod.string_ (prop "currentRole" raw))
       (fun currentRole =>
     Zod.andThen (Zod.optional Zod.array_string (prop "education" raw))
       (fun education =>
     Zod.andThen (Zod.optional Zod.array_string (prop "certifications" raw))
       (fun certifications =>
     Zod.ParseOk (mkExtractedSkills technicalSkills frameworks languages tools
                    softSkills yearsOfExperience currentRole education
                    certifications))))))))))).

(** [interface VectorMetadata] and [interface VectorQueryResult]. *)
Record VectorMetadata := mkVectorMetadata {
  vm_type : string;
  vm_id : string;
  vm_skills : list string;
  vm_title : option string
}.

Record VectorQueryResult := mkVectorQueryResult {
  vq_id : string;
  vq_score : Q;
  vq_metadata : VectorMetadata
}.

(** [interface JobMatchResponse]; the two generated lists hold whatever
    JSON values the generation oracle returned. *)
Record JobMatchResponse := mkJobMatchResponse {
  resp_id : string;
  resp_resumeId : string;
  resp_jobId : string;
  resp_jobTitle : string;
  resp_similarityScore : Q;
  resp_skillGaps : SkillGap;
  resp_matchedSkills : list string;
  resp_interviewQuestions : list json;
  resp_recommendations : list json
}.

(* ================================================================== *)
(** * The world outside the core: Prisma, OpenAI, Pinecone *)
(* ================================================================== *)

(** ** Records of the store *)

(** Modelled from the spec: the Prisma schema and client
    ([prisma/schema.prisma], [config/database.ts]) are not among the
    sources. The store is "a simple key-value record store with
    unique-ID semantics", CRUD by unique ID for Resume, Job and Match
    entities; a MatchResult is "keyed by the unique pair (resumeId, jobId)"
    (the controller's [where: { resumeId_jobId }]); "deleting a Resume or
    Job cascades to delete dependent Match records". The fields are the
    ones the controllers read and write. *)
Record Resume := mkResume {
  resume_id : string;
  resume_fileName : string;
  resume_rawText : string;
  resume_extractedSkills : ExtractedSkills;
  resume_vectorId : option string;
  resume_createdAt : nat
}.

Record JobDescription := mkJobDescription {
  job_id : string;
  job_title : string;
  job_company : option string;
  job_description : string;
  job_requiredSkills : ExtractedSkills;
  job_vectorId : option string
}.

Record JobMatch := mkJobMatch {
  match_id : string;
  match_resumeId : string;
  match_jobId : string;
  match_similarityScore : Q;
  match_skillGaps : SkillGap;
  match_matchedSkills : list string;
  match_interviewQuestions : list json;
  match_recommendations : list json
}.

(** The fields of a resume that [findMany] selects in [findCandidates]. *)
Record ResumeSummary := mkResumeSummary {
  sum_id : string;
  sum_fileName : string;
  sum_extractedSkills : ExtractedSkills;
  sum_createdAt : nat
}.

(** ** What Pinecone sends and receives *)

Record QueryOptions := mkQueryOptions {
  vector : list Q;
  topK : Q;
  includeMetadata : bool;
  filter_type : option string
}.

(** A match of [index.query]: the score and the metadata, and every field
    of the metadata, may be missing. *)
Record RecordMetadata := mkRecordMetadata {
  rm_type : option string;
  rm_id : option string;
  rm_skills : option (list string);
  rm_title : option string
}.

Record ScoredVector := mkScoredVector {
  sv_id : string;
  sv_score : option Q;
  sv_metadata : option RecordMetadata
}.

(** ** Calls that leave the process *)

(** The three prompts of [ai.service.ts], by the values interpolated in
    them. *)
Inductive ChatRequest :=
| ExtractSkillsPrompt (text : string)
| InterviewQuestionsPrompt (jobTitle : string) (matchedSkills missingSkills partialSkills : list string)
| RecommendationsPrompt (jobTitle : string) (missingSkills partialSkills : list string).

Inductive DbOp :=
| ResumeFindUnique (id : string)
| ResumeFindMany (ids : list string)
| ResumeDelete (id : string)
| JobCreate (title : string)
| JobUpdate (id : string)
| JobFindUnique (id : string)
| JobDelete (id : string)
| MatchUpsert (resumeId jobId : string).

Inductive Event :=
| Chat (request : ChatRequest)
| Embed (input : string)
| ListIndexes
| CreateIndex
| AwaitIndexReady
| IndexUpsert (id : string) (values : list Q) (metadata : VectorMetadata)
| IndexQuery (options : QueryOptions)
| IndexDeleteOne (id : string)
| Db (op : DbOp).

(** A thrown [Error]. *)
Inductive JsError := Error (message : string).

Definition message (e : JsError) : string := let (m) := e in m.

(** A call returns or throws. *)
Inductive Res (A : Type) :=
| Ok (a : A)
| Throw (e : JsError).
Arguments Ok {A} a.
Arguments Throw {A} e.

(** The collaborators, as strategy objects. An oracle sees the calls made
    so far, so its answers may depend on everything that happened before
    (what was upserted, how often it was asked, ...).
    - [INDEX_NAME] is the constant of [config/pinecone.ts];
    - [JSON_parse] is [JSON.parse];
    - [awaitIndexReady] is the outcome of [waitForIndexReady], the polling
      loop on [describeIndex] that returns once the index is ready and
      throws after 60 s. *)
Record Services := mkServices {
  INDEX_NAME : string;
  JSON_parse : string -> Res json;
  chat_completions_create : list Event -> ChatRequest -> Res (option string);
  embeddings_create : list Event -> string -> Res (list Q);
  listIndexes : list Event -> Res (option (list string));
  createIndex : list Event -> Res unit;
  awaitIndexReady : list Event -> Res unit;
  index_upsert : list Event -> string -> list Q -> VectorMetadata -> Res unit;
  index_query : list Event -> QueryOptions -> Res (option (list ScoredVector));
  index_deleteOne : list Event -> string -> Res unit
}.

(** ** The state a request runs in *)

Record World := mkWorld {
  resumes : list Resume;
  jobs : list JobDescription;
  matches : list JobMatch;
  nextId : nat;
  indexInitialized : bool;
  log : list Event
}.

Definition with_resumes (w : World) (x : list Resume) : World :=
  mkWorld x (jobs w) (matches w) (nextId w) (indexInitialized w) (log w).
Definition with_jobs (w : World) (x : list JobDescription) : World :=
  mkWorld (resumes w) x (matches w) (nextId w) (indexInitialized w) (log w).
Definition with_matches (w : World) (x : list JobMatch) : World :=
  mkWorld (resumes w) (jobs w) x (nextId w) (indexInitialized w) (log w).
Definition with_nextId (w : World) (x : nat) : World :=
  mkWorld (resumes w) (jobs w) (matches w) x (indexInitialized w) (log w).
Definition with_indexInitialized (w : World) (x : bool) : World :=
  mkWorld (resumes w) (jobs w) (matches w) (nextId w) x (log w).
Definition with_log (w : World) (x : list Event) : World :=
  mkWorld (resumes w) (jobs w) (matches w) (nextId w) (indexInitialized w) x.

(** ** Effects: state and exceptions *)

Definition M (A : Type) : Type := World -> Res A * World.

Definition ret {A} (a : A) : M A := fun w => (Ok a, w).

Definition throw {A} (e : JsError) : M A := fun w => (Throw e, w).

Definition bind {A B} (c : M A) (k : A -> M B) : M B :=
  fun w =>
    match c w with
    | (Ok a, w') => k a w'
    | (Throw e, w') => (Throw e, w')
    end.

(** [try { c } catch (error) { h error }]: what [c] did to the world
    before it threw stays done. *)
Definition try_catch {A} (c : M A) (h : JsError -> M A) : M A :=
  fun w =>
    match c w with
    | (Ok a, w') => (Ok a, w')
    | (Throw e, w') => h e w'
    end.

Definition lift {A} (r : Res A) : M A := fun w => (r, w).

(** A call to a collaborator: it is logged, and answered from the calls
    made before it. *)
Definition call {A} (e : Event) (oracle : list Event -> Res A) : M A :=
  fun w => (oracle (log w), with_log w (log w ++ [e])).

Definition get : M World := fun w => (Ok w, w).

Declare Scope js_scope.
Delimit Scope js_scope with js.
Notation "x <- c ;; k" := (bind c (fun x => k))
  (at level 61, c at next level, right associativity) : js_scope.
Notation "c ;;; k" := (bind c (fun _ => k))
  (at level 61, right associativity) : js_scope.
Local Open Scope js_scope.

(** ** The record store *)

(** Modelled from the spec: identifiers generated by the store (the
    schema's [@default] is not among the sources) are "unique IDs": the
    decimal numeral of a counter that only grows. *)
Definition genId (n : nat) : string := NilEmpty.string_of_uint (Nat.to_uint n).

(** Modelled from the spec: the operations of the Prisma client the
    controllers call, on the records above: lookup, creation with a
    generated id, update and delete by id (delete cascades to the
    matches), and the upsert of a match by its (resumeId, jobId) pair.
    The store itself never fails; an update or delete of a record that is
    not there throws, as Prisma does. *)
Module Prisma.

Definition op (o : DbOp) : M unit :=
  fun w => (Ok tt, with_log w (log w ++ [Db o])).

Definition freshId : M string :=
  fun w => (Ok (genId (nextId w)), with_nextId w (S (nextId w))).

Definition resume_findUnique (id : string) : M (option Resume) :=
  op (ResumeFindUnique id) ;;;
  w <- get ;;
  ret (List.find (fun r => String.eqb (resume_id r) id) (resumes w)).

Definition jobDescription_findUnique (id : string) : M (option JobDescription) :=
  op (JobFindUnique id) ;;;
  w <- get ;;
  ret (List.find (fun j => String.eqb (job_id j) id) (jobs w)).

Definition jobDescription_create (title : string) (company : option string)
    (description : string) (requiredSkills : ExtractedSkills) : M JobDescription :=
  op (JobCreate title) ;;;
  id <- freshId ;;
  let job := mkJobDescription id title company description requiredSkills None in
  fun w => (Ok job, with_jobs w (jobs w ++ [job])).

Definition setVectorId (id vectorId : string) (j : JobDescription) : JobDescription :=
  if String.eqb (job_id j) id
  then mkJobDescription (job_id j) (job_title j) (job_company j) (job_description j)
         (job_requiredSkills j) (Some vectorId)
  else j.

(** [update({ where: { id }, data: { vectorId } })]; Prisma throws when
    there is no such record. *)
Definition jobDescription_update (id vectorId : string) : M unit :=
  op (JobUpdate id) ;;;
  w <- get ;;
  if existsb (fun j => String.eqb (job_id j) id) (jobs w)
  then fun w => (Ok tt, with_jobs w (map (setVectorId id vectorId) (jobs w)))
  else throw (Error "Record to update not found.").

Definition samePair (resumeId jobId : string) (m : JobMatch) : bool :=
  String.eqb (match_resumeId m) resumeId && String.eqb (match_jobId m) jobId.

(** The [update] branch: the five fields are replaced, identity is kept. *)
Definition updateMatch (resumeId jobId : string) (similarityScore : Q) (skillGaps : SkillGap)
    (matchedSkills : list string) (interviewQuestions recommendations : list json)
    (m : JobMatch) : JobMatch :=
  if samePair resumeId jobId m
  then mkJobMatch (match_id m) (match_resumeId m) (match_jobId m) similarityScore
         skillGaps matchedSkills interviewQuestions recommendations
  else m.

(** [upsert({ where: { resumeId_jobId }, update, create })]. *)
Definition jobMatch_upsert (resumeId jobId : string) (similarityScore : Q)
    (skillGaps : SkillGap) (matchedSkills : list string)
    (interviewQuestions recommendations : list json) : M JobMatch :=
  op (MatchUpsert resumeId jobId) ;;;
  w <- get ;;
  match List.find (samePair resumeId jobId) (matches w) with
  | Some old =>
      let m := updateMatch resumeId jobId similarityScore skillGaps matchedSkills
                 interviewQuestions recommendations old in
      fun w =>
        (Ok m, with_matches w
                 (map (updateMatch resumeId jobId similarityScore skillGaps matchedSkills
                         interviewQuestions recommendations) (matches w)))
  | None =>
      id <- freshId ;;
      let m := mkJobMatch id resumeId jobId similarityScore skillGaps matchedSkills
                 interviewQuestions recommendations in
      fun w => (Ok m, with_matches w (matches w ++ [m]))
  end.

Definition summary (r : Resume) : ResumeSummary :=
  mkResumeSummary (resume_id r) (resume_fileName r) (resume_extractedSkills r)
    (resume_createdAt r).

(** [findMany({ where: { id: { in: ids } }, select })]. *)
Definition resume_findMany (ids : list string) : M (list ResumeSummary) :=
  op (ResumeFindMany ids) ;;;
  w <- get ;;
  ret (map summary
         (List.filter (fun r => existsb (String.eqb (resume_id r)) ids) (resumes w))).

(** [delete({ where: { id } })], with the cascade to the matches. *)
Definition resume_delete (id : string) : M unit :=
  op (ResumeDelete id) ;;;
  w <- get ;;
  if existsb (fun r => String.eqb (resume_id r) id) (resumes w)
  then fun w =>
         (Ok tt,
          with_matches
            (with_resumes w
               (List.filter (fun r => negb (String.eqb (resume_id r) id)) (resumes w)))
            (List.filter (fun m => negb (String.eqb (match_resumeId m) id)) (matches w)))
  else throw (Error "Record to delete does not exist.").

Definition jobDescription_delete (id : string) : M unit :=
  op (JobDelete id) ;;;
  w <- get ;;
  if existsb (fun j => String.eqb (job_id j) id) (jobs w)
  then fun w =>
         (Ok tt,
          with_matches
            (with_jobs w
               (List.filter (fun j => negb (String.eqb (job_id j) id)) (jobs w)))
            (List.filter (fun m => negb (String.eqb (match_jobId m) id)) (matches w)))
  else throw (Error "Record to delete does not exist.").

End Prisma.

(* ================================================================== *)
(** * services/ai.service.ts: the skill reconciler *)
(* ================================================================== *)

Module AIService.

(** The three skill lists that take part in matching, in the order the
    source spreads them. *)
Definition allSkills (p : ExtractedSkills) : list string :=
  technicalSkills p ++ frameworks p ++ tools p.

Definition resumeAllSkills (resumeSkills : ExtractedSkills) : list string :=
  JS.Set_of (map JS.toLowerCase (allSkills resumeSkills)).

(** [hasPartialMatch] of the loop body. *)
Definition hasPartialMatch (resumeSet : list string) (skillLower : string) : bool :=
  existsb (fun rs => JS.includes rs skillLower || JS.includes skillLower rs) resumeSet.

(** One iteration of [for (const skill of jobAllSkills)]: [push] appends
    at the end of one of the three arrays. *)
Definition gapStep (resumeSet : list string) (acc : SkillGap) (skill : string) : SkillGap :=
  let skillLower := JS.toLowerCase skill in
  if JS.Set_has resumeSet skillLower then
    mkSkillGap (missing acc) (matched acc ++ [skill]) (partial acc)
  else if hasPartialMatch resumeSet skillLower then
    mkSkillGap (missing acc) (matched acc) (partial acc ++ [skill])
  else
    mkSkillGap (missing acc ++ [skill]) (matched acc) (partial acc).

Definition analyzeSkillGaps (resumeSkills jobSkills : ExtractedSkills) : SkillGap :=
  let resumeSet := resumeAllSkills resumeSkills in
  let jobAllSkills := allSkills jobSkills in
  fold_left (gapStep resumeSet) jobAllSkills (mkSkillGap [] [] []).

(** *** The calls to OpenAI *)

(** [!content]. *)
Definition noContent (content : option string) : bool :=
  match content with
  | None => true
  | Some c => String.eqb c ""
  end.

Definition getDefaultQuestions (jobTitle : string) : list json :=
  [ JStr ("Tell me about your experience relevant to this " ++ jobTitle ++ " role.");
    JStr "Describe a challenging project you worked on and how you overcame obstacles.";
    JStr "How do you stay updated with the latest technologies in your field?";
    JStr "Can you walk me through your problem-solving process?";
    JStr "Where do you see yourself in 5 years?" ].

Definition getDefaultRecommendations (missingSkills : list string) : list json :=
  let recommendations :=
    [ JStr "Consider taking online courses to strengthen your technical skills.";
      JStr "Build side projects to gain practical experience.";
      JStr "Contribute to open-source projects in your area of interest." ] in
  if (0 <? List.length missingSkills)%nat
  then JStr ("Focus on learning: " ++ String.concat ", " (firstn 3 missingSkills))
       :: recommendations
  else recommendations.

(** [Array.isArray(parsed) ? parsed : parsed[key]]; reading a property
    of [null] throws. *)
Definition arrayOrProperty (key : string) (parsed : json) : M (option json) :=
  match parsed with
  | JArr _ => ret (Some parsed)
  | JNull => throw (Error "Cannot read properties of null")
  | _ => ret (prop key parsed)
  end.

Section WithServices.

Variable svc : Services.

Definition extractSkills (text : string) : M ExtractedSkills :=
  try_catch
    (content <- call (Chat (ExtractSkillsPrompt (substring 0 8000 text)))
                  (fun h => chat_completions_create svc h
                              (ExtractSkillsPrompt (substring 0 8000 text))) ;;
     match content with
     | Some c =>
         if noContent content then throw (Error "No response from OpenAI")
         else
           parsed <- lift (JSON_parse svc c) ;;
           match ExtractedSkillsSchema parsed with
           | Zod.ParseOk validated => ret validated
           | Zod.ParseError m => throw (Error m)
           end
     | None => throw (Error "No response from OpenAI")
     end)
    (fun error => throw (Error ("Failed to extract skills: " ++ message error))).

Definition generateEmbedding (text : string) : M (list Q) :=
  try_catch
    (let truncatedText := substring 0 8000 text in
     call (Embed truncatedText) (fun h => embeddings_create svc h truncatedText))
    (fun error => throw (Error ("Failed to generate embedding: " ++ message error))).

Definition generateInterviewQuestions (skillGaps : SkillGap) (jobTitle : string)
    (matchedSkills : list string) : M (list json) :=
  let request :=
    InterviewQuestionsPrompt jobTitle matchedSkills (missing skillGaps) (partial skillGaps) in
  try_catch
    (content <- call (Chat request) (fun h => chat_completions_create svc h request) ;;
     match content with
     | Some c =>
         if noContent content then ret (getDefaultQuestions jobTitle)
         else
           parsed <- lift (JSON_parse svc c) ;;
           questions <- arrayOrProperty "questions" parsed ;;
           match questions with
           | Some (JArr qs) => ret (firstn 7 qs)
           | _ => ret (getDefaultQuestions jobTitle)
           end
     | None => ret (getDefaultQuestions jobTitle)
     end)
    (fun _ => ret (getDefaultQuestions jobTitle)).

Definition generateRecommendations (skillGaps : SkillGap) (jobTitle : string)
  : M (list json) :=
  if (List.length (missing skillGaps) =? 0)%nat && (List.length (partial skillGaps) =? 0)%nat
  then ret [JStr "Great match! Your skills align well with this position."]
  else
    let request := RecommendationsPrompt jobTitle (missing skillGaps) (partial skillGaps) in
    try_catch
      (content <- call (Chat request) (fun h => chat_completions_create svc h request) ;;
       match content with
       | Some c =>
           if noContent content then ret (getDefaultRecommendations (missing skillGaps))
           else
             parsed <- lift (JSON_parse svc c) ;;
             recommendations <- arrayOrProperty "recommendations" parsed ;;
             match recommendations with
             | Some (JArr rs) => ret (firstn 5 rs)
             | _ => ret (getDefaultRecommendations (missing skillGaps))
             end
       | None => ret (getDefaultRecommendations (missing skillGaps))
       end)
      (fun _ => ret (getDefaultRecommendations (missing skillGaps))).

End WithServices.

End AIService.

(* ================================================================== *)
(** * services/vector.service.ts *)
(* ================================================================== *)

Module VectorService.

(** [calculateSimilarityPercentage]: five operations on doubles, and
    [Math.round]. *)
Definition calculateSimilarityPercentage (score : Q) : Q :=
  let percentage :=
    Double.round (Double.round (Double.round (score + 1) / 2) * 100) in
  Double.round (inject_Z (JS.Math_round (Double.round (percentage * 10))) / 10).

(** [a || b] on an optional string: the empty string is falsy. *)
Definition orString (a : option string) (b : string) : string :=
  match a with
  | Some x => if String.eqb x "" then b else x
  | None => b
  end.

(** The object [findSimilar] builds for one match. *)
Definition toQueryResult (m : ScoredVector) : VectorQueryResult :=
  let metadata := sv_metadata m in
  mkVectorQueryResult
    (sv_id m)
    (match sv_score m with Some x => x | None => 0 end)
    (mkVectorMetadata
       (orString (match metadata with Some d => rm_type d | None => None end) "resume")
       (orString (match metadata with Some d => rm_id d | None => None end) (sv_id m))
       (match metadata with
        | Some d => match rm_skills d with Some ss => ss | None => [] end
        | None => []
        end)
       (match metadata with Some d => rm_title d | None => None end)).

Section WithServices.

Variable svc : Services.

Definition initializeIndex : M unit :=
  fun w =>
    if indexInitialized w then (Ok tt, w)
    else
      (indexes <- call ListIndexes (listIndexes svc) ;;
       let indexExists :=
         match indexes with
         | Some names => existsb (fun name => String.eqb name (INDEX_NAME svc)) names
         | None => false
         end in
       (if indexExists then ret tt
        else call CreateIndex (createIndex svc) ;;;
             call AwaitIndexReady (awaitIndexReady svc)) ;;;
       (fun w' => (Ok tt, with_indexInitialized w' true))) w.

Definition upsertJob (id : string) (embedding : list Q) (skills : list string)
    (title : string) : M string :=
  initializeIndex ;;;
  let vectorId := ("job_" ++ id)%string in
  let metadata := mkVectorMetadata "job" id skills (Some title) in
  try_catch
    (call (IndexUpsert vectorId embedding metadata)
       (fun h => index_upsert svc h vectorId embedding metadata) ;;;
     ret vectorId)
    (fun _ => throw (Error "Failed to store job in vector database")).

Definition upsertResume (id : string) (embedding : list Q) (skills : list string)
    (title : option string) : M string :=
  initializeIndex ;;;
  let vectorId := ("resume_" ++ id)%string in
  let metadata := mkVectorMetadata "resume" id skills (Some (orString title "")) in
  try_catch
    (call (IndexUpsert vectorId embedding metadata)
       (fun h => index_upsert svc h vectorId embedding metadata) ;;;
     ret vectorId)
    (fun _ => throw (Error "Failed to store resume in vector database")).

Definition findSimilar (embedding : list Q) (topK : Q) (filterType : option string)
  : M (list VectorQueryResult) :=
  initializeIndex ;;;
  try_catch
    (let queryOptions :=
       mkQueryOptions embedding topK true
         (match filterType with
          | Some t => if String.eqb t "" then None else Some t
          | None => None
          end) in
     results <- call (IndexQuery queryOptions) (fun h => index_query svc h queryOptions) ;;
     ret (map toQueryResult (match results with Some ms => ms | None => [] end)))
    (fun _ => throw (Error "Failed to search vector database")).

Definition deleteVector (vectorId : string) : M unit :=
  initializeIndex ;;;
  try_catch
    (call (IndexDeleteOne vectorId) (fun h => index_deleteOne svc h vectorId))
    (fun _ => ret tt).

Definition deleteResumeVector (resumeId : string) : M unit :=
  deleteVector ("resume_" ++ resumeId).

Definition deleteJobVector (jobId : string) : M unit :=
  deleteVector ("job_" ++ jobId).

End WithServices.

End VectorService.

(** ** The scorer on doubles *)

(** [calculateSimilarityPercentage] on binary64 numbers, the number type
    of the source, with the kernel's floating-point operations. *)
Module Binary64.

(** The double of an integer (exact below 2^53). *)
Definition ofZ (z : Z) : float :=
  match z with
  | Z0 => 0%float
  | Zpos _ => PrimFloat.of_uint63 (Uint63.of_Z z)
  | Zneg p => (- PrimFloat.of_uint63 (Uint63.of_Z (Zpos p)))%float
  end.

(** [Math.round]: a finite [x] is [m * 2^e] up to sign; a negative [e]
    leaves a fraction, and the result is the floor of [x + 1/2] computed
    on integers. Integers, infinities and NaN are returned as they are. *)
Definition Math_round (x : float) : float :=
  match Prim2SF x with
  | S754_finite s m e =>
      if (0 <=? e)%Z then x
      else
        let n := if s then Zneg m else Zpos m in
        ofZ ((2 * n + 2 ^ (- e)) / 2 ^ (1 - e))%Z
  | _ => x
  end.

Definition calculateSimilarityPercentage (score : float) : float :=
  let percentage := (((score + 1) / 2) * 100)%float in
  (Math_round (percentage * 10) / 10)%float.

(** The rational a finite double denotes. *)
Definition toQ (x : float) : Q :=
  match Prim2SF x with
  | S754_finite s m e =>
      (inject_Z (if s then Zneg m else Zpos m) * Qpower 2 e)%Q
  | _ => 0%Q
  end.

End Binary64.

(* ================================================================== *)
(** * controllers: job.controller.ts and resume.controller.ts *)
(* ================================================================== *)

(** One entry of the list [findCandidates] answers with: the selected
    fields of the resume ([...resume], nothing when [resume] is
    [undefined]) and the score. *)
Record Candidate := mkCandidate {
  cand_resume : option ResumeSummary;
  cand_similarityScore : Q
}.

(** What a handler sends: [res.status(s).json(body)], or [next(error)]. *)
Inductive ResponseBody :=
| Failure (message : string)
| MatchData (data : JobMatchResponse)
| CandidatesData (data : list Candidate)
| MessageData (message : string).

Inductive Outcome :=
| Responded (status : nat) (body : ResponseBody)
| Next (error : JsError).

(** [try { handler } catch (error) { next(error) }]. *)
Definition handler (c : M Outcome) : World -> Outcome * World :=
  fun w =>
    match c w with
    | (Ok o, w') => (o, w')
    | (Throw e, w') => (Next e, w')
    end.

(** The body of [POST /jobs/find-candidates]: [topK] is a number when it
    is there. *)
Record FindCandidatesBody := mkFindCandidatesBody {
  fc_jobDescription : option json;
  fc_topK : option Q
}.

Module JobController.

(** [matchingResult?.score || 0]. *)
Definition rawScoreOf (matchingResult : option VectorQueryResult) : Q :=
  match matchingResult with
  | Some r => vq_score r
  | None => 0
  end.

(** The candidate built for one hit. *)
Definition candidateOf (resumes : list ResumeSummary) (result : VectorQueryResult) : Candidate :=
  let resume :=
    JS.find (fun r => String.eqb (sum_id r) (vm_id (vq_metadata result))) resumes in
  mkCandidate resume (VectorService.calculateSimilarityPercentage (vq_score result)).

Section WithServices.

Variable svc : Services.

Definition matchJob_body (body : json) : M Outcome :=
  match JobMatchRequestSchema body with
  | Zod.ParseError m => ret (Responded 400 (Failure m))
  | Zod.ParseOk data =>
      let resumeId := req_resumeId data in
      let jobTitle := req_jobTitle data in
      let jobDescription := req_jobDescription data in
      let company := req_company data in
      found <- Prisma.resume_findUnique resumeId ;;
      match found with
      | None => ret (Responded 404 (Failure "Resume not found"))
      | Some resume =>
          jobSkills <- AIService.extractSkills svc jobDescription ;;
          jobEmbedding <- AIService.generateEmbedding svc jobDescription ;;
          job <- Prisma.jobDescription_create jobTitle
                   (match company with
                    | Some c => if String.eqb c "" then None else Some c
                    | None => None
                    end)
                   jobDescription jobSkills ;;
          let allJobSkills :=
            technicalSkills jobSkills ++ frameworks jobSkills ++ tools jobSkills in
          jobVectorId <- VectorService.upsertJob svc (job_id job) jobEmbedding
                           allJobSkills jobTitle ;;
          Prisma.jobDescription_update (job_id job) jobVectorId ;;;
          resumeEmbedding <- AIService.generateEmbedding svc (resume_rawText resume) ;;
          similarResults <- VectorService.findSimilar svc resumeEmbedding 10 (Some "job") ;;
          let matchingResult :=
            JS.find (fun r => String.eqb (vq_id r) jobVectorId) similarResults in
          let rawScore := rawScoreOf matchingResult in
          let similarityScore := VectorService.calculateSimilarityPercentage rawScore in
          let resumeSkills := resume_extractedSkills resume in
          let skillGaps := AIService.analyzeSkillGaps resumeSkills jobSkills in
          interviewQuestions <- AIService.generateInterviewQuestions svc skillGaps
                                  jobTitle (matched skillGaps) ;;
          recommendations <- AIService.generateRecommendations svc skillGaps jobTitle ;;
          saved <- Prisma.jobMatch_upsert resumeId (job_id job) similarityScore skillGaps
                     (matched skillGaps) interviewQuestions recommendations ;;
          ret (Responded 201
                 (MatchData
                    (mkJobMatchResponse (match_id saved) resumeId (job_id job) jobTitle
                       similarityScore skillGaps (matched skillGaps)
                       interviewQuestions recommendations)))
      end
  end.

Definition matchJob (body : json) : World -> Outcome * World :=
  handler (matchJob_body body).

Definition findCandidates_body (body : FindCandidatesBody) : M Outcome :=
  let topK := match fc_topK body with Some k => k | None => 5 end in
  match fc_jobDescription body with
  | Some (JStr jobDescription) =>
      if String.eqb jobDescription ""
      then ret (Responded 400 (Failure "Job description is required"))
      else
        jobEmbedding <- AIService.generateEmbedding svc jobDescription ;;
        results <- VectorService.findSimilar svc jobEmbedding (JS.Math_min topK 20)
                     (Some "resume") ;;
        let resumeIds := map (fun r => vm_id (vq_metadata r)) results in
        resumes <- Prisma.resume_findMany resumeIds ;;
        let candidates := map (candidateOf resumes) results in
        ret (Responded 200 (CandidatesData candidates))
  | _ => ret (Responded 400 (Failure "Job description is required"))
  end.

Definition findCandidates (body : FindCandidatesBody) : World -> Outcome * World :=
  handler (findCandidates_body body).

Definition deleteJob_body (id : string) : M Outcome :=
  found <- Prisma.jobDescription_findUnique id ;;
  match found with
  | None => ret (Responded 404 (Failure "Job not found"))
  | Some job =>
      match job_vectorId job with
      | Some v => if String.eqb v "" then ret tt else VectorService.deleteVector svc v
      | None => ret tt
      end ;;;
      Prisma.jobDescription_delete id ;;;
      ret (Responded 200 (MessageData "Job deleted successfully"))
  end.

Definition deleteJob (id : string) : World -> Outcome * World :=
  handler (deleteJob_body id).

End WithServices.

End JobController.

Module ResumeController.

Section WithServices.

Variable svc : Services.

Definition deleteResume_body (id : string) : M Outcome :=
  found <- Prisma.resume_findUnique id ;;
  match found with
  | None => ret (Responded 404 (Failure "Resume not found"))
  | Some resume =>
      match resume_vectorId resume with
      | Some v => if String.eqb v "" then ret tt else VectorService.deleteVector svc v
      | None => ret tt
      end ;;;
      Prisma.resume_delete id ;;;
      ret (Responded 200 (MessageData "Resume deleted successfully"))
  end.

Definition deleteResume (id : string) : World -> Outcome * World :=
  handler (deleteResume_body id).

End WithServices.

End ResumeController.

(* ================================================================== *)
(** * Vocabulary of the reconciler's properties *)
(* ================================================================== *)

(** The bucket a job skill falls in, read off the branches of the loop. *)
Inductive Bucket := Matched | Partial | Missing.

Definition Bucket_eqb (a b : Bucket) : bool :=
  match a, b with
  | Matched, Matched | Partial, Partial | Missing, Missing => true
  | _, _ => false
  end.

Definition bucketOf (resumeSet : list string) (skill : string) : Bucket :=
  let skillLower := JS.toLowerCase skill in
  if JS.Set_has resumeSet skillLower then Matched
  else if AIService.hasPartialMatch resumeSet skillLower then Partial
  else Missing.

Definition inBucket (resumeSet : list string) (b : Bucket) (skill : string) : bool :=
  Bucket_eqb (bucketOf resumeSet skill) b.

(** The résumé-side relation behind a partial match: [a] occurs in [b]. *)
Definition isSubstringOf (a b : string) : Prop :=
  exists pre post, b = (pre ++ a ++ post)%string.

(** A job profile with one more tool: its combined skill list is the old
    one followed by [skill]. *)
Definition withTool (p : ExtractedSkills) (skill : string) : ExtractedSkills :=
  mkExtractedSkills (technicalSkills p) (frameworks p) (languages p) (tools p ++ [skill])
    (softSkills p) (yearsOfExperience p) (currentRole p) (education p) (certifications p).

(** A profile that only lists technical skills. *)
Definition profileOf (skills : list string) : ExtractedSkills :=
  mkExtractedSkills skills [] [] [] [] None None None None.

(* ================================================================== *)
(** * A small deployment to run the handlers on *)
(* ================================================================== *)

Module Demo.

Definition resume1 : Resume :=
  mkResume "r1" "cv.pdf" "Python developer who ships with Docker"
    (profileOf ["Python"; "Docker"]) (Some "resume_r1") 0.

(** What the extraction oracle answers, once parsed. *)
Definition extracted : json :=
  JObj [("technicalSkills", JArr [JStr "Python"; JStr "AWS"]);
        ("frameworks", JArr [JStr "Django"])].

Definition hit (id owner : string) (score : Q) (type : string) : ScoredVector :=
  mkScoredVector id (Some score)
    (Some (mkRecordMetadata (Some type) (Some owner) (Some []) None)).

(** The index holds the vector of [resume1], the vector of a resume that
    was deleted since ([r9]) and the vector of an older job. It rejects a
    [topK] below 1 and never returns more matches than [topK]. *)
Definition query (o : QueryOptions) : Res (option (list ScoredVector)) :=
  if Qle_bool 1 (topK o) then
    Ok (Some (firstn (Z.to_nat (Qfloor (topK o)))
                (if match filter_type o with
                    | Some t => String.eqb t "resume"
                    | None => false
                    end
                 then [hit "resume_r1" "r1" (4 # 5) "resume";
                       hit "resume_r9" "r9" (1 # 2) "resume"]
                 else [hit "job_old" "old" (9 # 10) "job"])))
  else Throw (Error "topK must be a positive integer").

(** The delete operation of the index is down. *)
Definition svc : Services :=
  mkServices "resumes"
    (fun content => if String.eqb content "skills" then Ok extracted
                    else Throw (Error "Unexpected token"))
    (fun _ request =>
       match request with
       | ExtractSkillsPrompt _ => Ok (Some "skills")
       | _ => Ok None
       end)
    (fun _ _ => Ok [1%Q; 0%Q])
    (fun _ => Ok (Some ["resumes"]))
    (fun _ => Ok tt)
    (fun _ => Ok tt)
    (fun _ _ _ _ => Ok tt)
    (fun _ o => query o)
    (fun _ _ => Throw (Error "index unavailable")).

Definition world : World := mkWorld [resume1] [] [] 0 false [].

(** A job description of 49 characters, and one of 60. *)
Definition description49 : string :=
  "Backend developer: Python, AWS, Django, Docker...".

Definition description60 : string :=
  "Backend developer with Python, AWS and Django; Docker a plus.".

Definition matchRequest (description : string) : json :=
  JObj [("resumeId", JStr "r1"); ("jobTitle", JStr "Backend developer");
        ("jobDescription", JStr description)].

(** The data of a 201 answer (of the first call when there is none). *)
Definition dataOr (fallback : JobMatchResponse) (o : Outcome) : JobMatchResponse :=
  match o with
  | Responded _ (MatchData d) => d
  | _ => fallback
  end.

Definition noData : JobMatchResponse :=
  mkJobMatchResponse "" "" "" "" 0 (mkSkillGap [] [] []) [] [] [].

(** The same match request, served twice. *)
Definition response1 : JobMatchResponse :=
  Eval vm_compute in
    dataOr noData (fst (JobController.matchJob svc (matchRequest description60) world)).

Definition world1 : World :=
  Eval vm_compute in snd (JobController.matchJob svc (matchRequest description60) world).

Definition response2 : JobMatchResponse :=
  Eval vm_compute in
    dataOr noData (fst (JobController.matchJob svc (matchRequest description60) world1)).

Definition world2 : World :=
  Eval vm_compute in snd (JobController.matchJob svc (matchRequest description60) world1).






End Demo.

(* ================================================================== *)
(** * services/parser.service.ts *)
(* ================================================================== *)

(** String methods of JavaScript used by the parser. *)
Module JSText.

Definition LF : ascii := ascii_of_nat 10.
Definition SPACE : ascii := ascii_of_nat 32.

Definition isLF (c : ascii) : bool := (nat_of_ascii c =? 10)%nat.
Definition isCR (c : ascii) : bool := (nat_of_ascii c =? 13)%nat.
Definition isTAB (c : ascii) : bool := (nat_of_ascii c =? 9)%nat.

(** The white space and line terminators of [String.prototype.trim] among
    the 8-bit code units: TAB, LF, VT, FF, CR, space and NBSP. *)
Definition isWhiteSpace (c : ascii) : bool :=
  let n := nat_of_ascii c in
  ((n =? 9) || (n =? 10) || (n =? 11) || (n =? 12) || (n =? 13) || (n =? 32)
   || (n =? 160))%nat.

Fixpoint trimStart (s : string) : string :=
  match s with
  | EmptyString => EmptyString
  | String c r => if isWhiteSpace c then trimStart r else s
  end.

Fixpoint trimEnd (s : string) : string :=
  match s with
  | EmptyString => EmptyString
  | String c r =>
      match trimEnd r with
      | EmptyString => if isWhiteSpace c then EmptyString else String c EmptyString
      | r' => String c r'
      end
  end.

Definition trim (s : string) : string := trimEnd (trimStart s).

(** [s.split('\n')]: the empty string has one (empty) line. *)
Fixpoint splitLines (s : string) : list string :=
  match s with
  | EmptyString => [EmptyString]
  | String c r =>
      if isLF c then EmptyString :: splitLines r
      else match splitLines r with
           | line :: rest => String c line :: rest
           | [] => [String c EmptyString]
           end
  end.

(** [lines.join('\n')]. *)
Definition joinLines (lines : list string) : string :=
  String.concat (String LF EmptyString) lines.

(** [s.replace(/\r\n/g, '\n')]. *)
Fixpoint replaceCRLF (s : string) : string :=
  match s with
  | EmptyString => EmptyString
  | String c r =>
      if isCR c then
        match r with
        | String d r' => if isLF d then String LF (replaceCRLF r') else String c (replaceCRLF r)
        | EmptyString => String c EmptyString
        end
      else String c (replaceCRLF r)
  end.

(** [s.replace(/\r/g, '\n')]. *)
Fixpoint replaceCR (s : string) : string :=
  match s with
  | EmptyString => EmptyString
  | String c r => String (if isCR c then LF else c) (replaceCR r)
  end.

(** [s.replace(/[ \t]+/g, ' ')]: [inRun] says the code unit before was
    a blank of the run being replaced. *)
Fixpoint collapseBlanks (inRun : bool) (s : string) : string :=
  match s with
  | EmptyString => EmptyString
  | String c r =>
      if (nat_of_ascii c =? 32)%nat || isTAB c
      then if inRun then collapseBlanks true r else String SPACE (collapseBlanks true r)
      else String c (collapseBlanks false r)
  end.

(** [s.replace(/\n{3,}/g, '\n\n')]: [seen] counts the line feeds of the
    current run that were kept (at most 2). *)
Fixpoint squeezeLines (seen : nat) (s : string) : string :=
  match s with
  | EmptyString => EmptyString
  | String c r =>
      if isLF c
      then if (seen <? 2)%nat then String c (squeezeLines (S seen) r) else squeezeLines seen r
      else String c (squeezeLines 0 r)
  end.

(** The class [[\x00-\x08\x0B\x0C\x0E-\x1F\x7F]]. *)
Definition isControl (c : ascii) : bool :=
  let n := nat_of_ascii c in
  ((n <=? 8) || (n =? 11) || (n =? 12) || ((14 <=? n) && (n <=? 31)) || (n =? 127))%nat.

(** [s.replace(/[\x00-\x08\x0B\x0C\x0E-\x1F\x7F]/g, '')]. *)
Fixpoint removeControl (s : string) : string :=
  match s with
  | EmptyString => EmptyString
  | String c r => if isControl c then removeControl r else String c (removeControl r)
  end.

End JSText.

Module ParserService.

(** [cleanText], one method call of the chain per line. *)
Definition cleanText (text : string) : string :=
  JSText.trim
    (JSText.removeControl
       (JSText.joinLines
          (map JSText.trim
             (JSText.splitLines
                (JSText.squeezeLines 0
                   (JSText.collapseBlanks false
                      (JSText.replaceCR
                         (JSText.replaceCRLF text)))))))).

(** The fields of [Express.Multer.File] that are read. *)
Record File := mkFile {
  originalname : string;
  mimetype : string;
  size : N;
  buffer : list Byte.byte
}.

Definition allowedMimeTypes : list string :=
  [ "application/pdf";
    "application/vnd.openxmlformats-officedocument.wordprocessingml.document";
    "text/plain" ].

(** [validateFile]: returns, or throws. *)
Definition validateFile (file : File) : Res unit :=
  let maxSize := (10 * 1024 * 1024)%N in
  if (maxSize <? size file)%N then Throw (Error "File size exceeds 10MB limit")
  else if negb (existsb (String.eqb (mimetype file)) allowedMimeTypes)
  then Throw (Error ("Invalid file type: " ++ mimetype file
                     ++ ". Allowed types: PDF, DOCX, TXT"))
  else Ok tt.

(** The libraries behind the parser: [path.extname], [pdf-parse] (the
    [text] of its result), [mammoth.extractRawText] (the [value] of its
    result) and [buffer.toString('utf-8')]. *)
Record Parsers := mkParsers {
  path_extname : string -> string;
  pdfParse : list Byte.byte -> Res (option string);
  mammoth_extractRawText : list Byte.byte -> Res (option string);
  buffer_toString : list Byte.byte -> string
}.

(** [!text || text.trim().length === 0]. *)
Definition noText (text : option string) : bool :=
  match text with
  | None => true
  | Some t => String.eqb t "" || (String.length (JSText.trim t) =? 0)%nat
  end.

(** [try { ... } catch (error) { throw new Error(prefix + error.message) }]. *)
Definition rethrow {A} (prefix : string) (r : Res A) : Res A :=
  match r with
  | Ok a => Ok a
  | Throw e => Throw (Error (prefix ++ message e))
  end.

Definition andThen {A B} (r : Res A) (k : A -> Res B) : Res B :=
  match r with
  | Ok a => k a
  | Throw e => Throw e
  end.

Section WithParsers.

Variable lib : Parsers.

Definition parsePDFBuffer (buffer : list Byte.byte) : Res string :=
  rethrow "Failed to parse PDF: "
    (andThen (pdfParse lib buffer)
       (fun text =>
          match text with
          | Some t =>
              if noText text
              then Throw (Error "Could not extract text from PDF. The file may be image-based or corrupted.")
              else Ok (cleanText t)
          | None =>
              Throw (Error "Could not extract text from PDF. The file may be image-based or corrupted.")
          end)).

Definition parseDOCXBuffer (buffer : list Byte.byte) : Res string :=
  rethrow "Failed to parse DOCX: "
    (andThen (mammoth_extractRawText lib buffer)
       (fun value =>
          match value with
          | Some t =>
              if noText value
              then Throw (Error "Could not extract text from DOCX. The file may be empty or corrupted.")
              else Ok (cleanText t)
          | None =>
              Throw (Error "Could not extract text from DOCX. The file may be empty or corrupted.")
          end)).

Definition parseTXTBuffer (buffer : list Byte.byte) : Res string :=
  rethrow "Failed to read text file: " (Ok (cleanText (buffer_toString lib buffer))).

Definition parseBuffer (buffer : list Byte.byte) (originalName : string) : Res string :=
  let extension := JS.toLowerCase (path_extname lib originalName) in
  if String.eqb extension ".pdf" then parsePDFBuffer buffer
  else if String.eqb extension ".docx" then parseDOCXBuffer buffer
  else if String.eqb extension ".doc"
  then Throw (Error "Legacy .doc format is not supported. Please use .docx or .pdf")
  else if String.eqb extension ".txt" then parseTXTBuffer buffer
  else Throw (Error ("Unsupported file format: " ++ extension
                     ++ ". Supported formats: PDF, DOCX, TXT")).

End WithParsers.

End ParserService.

(* ================================================================== *)
(** * routes/resume.routes.ts: the upload filter *)
(* ================================================================== *)

Module ResumeRoutes.

(** [fileFilter]: [cb(null, true)], or [cb(new Error(...))]. *)
Definition fileFilter (file : ParserService.File) : Res bool :=
  let allowedMimeTypes :=
    [ "application/pdf";
      "application/vnd.openxmlformats-officedocument.wordprocessingml.document";
      "text/plain" ] in
  if existsb (String.eqb (ParserService.mimetype file)) allowedMimeTypes
  then Ok true
  else Throw (Error "Invalid file type. Only PDF, DOCX, and TXT files are allowed.").

(** [limits.fileSize] of the multer upload. *)
Definition fileSizeLimit : N := (10 * 1024 * 1024)%N.

End ResumeRoutes.

(* ================================================================== *)
(** * controllers/resume.controller.ts: the upload *)
(* ================================================================== *)

(** [ResumeUploadResponse]. *)
Record ResumeUploadResponse := mkResumeUploadResponse {
  up_id : string;
  up_fileName : string;
  up_extractedSkills : ExtractedSkills;
  up_vectorId : option string;
  up_createdAt : nat
}.

(** What [uploadResume] sends. *)
Inductive UploadBody :=
| UploadFailure (message : string)
| UploadData (data : ResumeUploadResponse).

Inductive UploadOutcome :=
| UploadResponded (status : nat) (body : UploadBody)
| UploadNext (error : JsError).

Module ResumeUpload.

(** Modelled from the spec: creation of a resume record and the update of
    its vector id, the two operations of the Prisma client that only the
    upload calls, on the store modelled above. The record gets its id from
    the store's counter and its [createdAt] from the store's clock, which
    is read off the calls made so far; its [vectorId] starts out empty.
    The log of store operations covers the match and delete handlers; what
    these two did shows in the table of resumes. *)
Definition resume_create (clock : list Event -> nat) (fileName rawText : string)
    (extractedSkills : ExtractedSkills) : M Resume :=
  id <- Prisma.freshId ;;
  w <- get ;;
  let resume := mkResume id fileName rawText extractedSkills None (clock (log w)) in
  fun w => (Ok resume, with_resumes w (resumes w ++ [resume])).

Definition setVectorId (id vectorId : string) (r : Resume) : Resume :=
  if String.eqb (resume_id r) id
  then mkResume (resume_id r) (resume_fileName r) (resume_rawText r)
         (resume_extractedSkills r) (Some vectorId) (resume_createdAt r)
  else r.

Definition resume_update (id vectorId : string) : M unit :=
  w <- get ;;
  if existsb (fun r => String.eqb (resume_id r) id) (resumes w)
  then fun w => (Ok tt, with_resumes w (map (setVectorId id vectorId) (resumes w)))
  else throw (Error "Record to update not found.").

Section WithServices.

Variable lib : ParserService.Parsers.
Variable svc : Services.
Variable clock : list Event -> nat.

Definition uploadResume_body (file : ParserService.File) : M UploadOutcome :=
  lift (ParserService.validateFile file) ;;;
  rawText <- lift (ParserService.parseBuffer lib (ParserService.buffer file)
                     (ParserService.originalname file)) ;;
  if (String.length rawText <? 100)%nat
  then throw (Error "Resume content is too short. Please upload a complete resume.")
  else
    extractedSkills <- AIService.extractSkills svc rawText ;;
    embedding <- AIService.generateEmbedding svc rawText ;;
    resume <- resume_create clock (ParserService.originalname file) rawText
                extractedSkills ;;
    let allSkills :=
      technicalSkills extractedSkills ++ frameworks extractedSkills
      ++ tools extractedSkills in
    vectorId <- VectorService.upsertResume svc (resume_id resume) embedding allSkills
                  (currentRole extractedSkills) ;;
    resume_update (resume_id resume) vectorId ;;;
    ret (UploadResponded 201
           (UploadData
              (mkResumeUploadResponse (resume_id resume) (resume_fileName resume)
                 extractedSkills (Some vectorId) (resume_createdAt resume)))).

(** [req.file] is [undefined] when the request carried no file. *)
Definition uploadResume (file : option ParserService.File)
  : World -> UploadOutcome * World :=
  match file with
  | None =>
      fun w =>
        (UploadResponded 400
           (UploadFailure "No file uploaded. Please upload a PDF or DOCX file."), w)
  | Some file =>
      fun w =>
        match uploadResume_body file w with
        | (Ok o, w') => (o, w')
        | (Throw e, w') => (UploadNext e, w')
        end
  end.

End WithServices.

End ResumeUpload.

(* ================================================================== *)
(** * middleware/error.middleware.ts *)
(* ================================================================== *)

Module ErrorMiddleware.

(** What [next(error)] hands to the error handler: a [ZodError] with its
    issues (path and message), a known request error of Prisma with its
    code, or another [Error] with its message and, maybe, a
    [statusCode]. *)
Inductive Thrown :=
| ZodError (errors : list (list string * string))
| PrismaClientKnownRequestError (code : string) (message : string)
| OtherError (message : string) (statusCode : option nat).

Record Detail := mkDetail {
  field : string;
  detail_message : string
}.

(** [ErrorResponse.error]. *)
Record ErrorBody := mkErrorBody {
  err_message : string;
  err_code : string;
  err_details : option (list Detail)
}.

(** [res.status(status).json(...)]. *)
Definition errorHandler (err : Thrown) : nat * ErrorBody :=
  match err with
  | ZodError errors =>
      (400%nat, mkErrorBody "Validation error" "VALIDATION_ERROR"
              (Some (map (fun e => mkDetail (String.concat "." (fst e)) (snd e)) errors)))
  | PrismaClientKnownRequestError code _ =>
      if String.eqb code "P2002"
      then (409%nat, mkErrorBody "A record with this value already exists" "DUPLICATE_ENTRY" None)
      else if String.eqb code "P2025"
      then (404%nat, mkErrorBody "Record not found" "NOT_FOUND" None)
      else (500%nat, mkErrorBody "Database error" code None)
  | OtherError message statusCode =>
      if JS.includes message "File too large"
      then (413%nat, mkErrorBody "File size exceeds the 10MB limit" "FILE_TOO_LARGE" None)
      else if JS.includes message "Invalid file type"
      then (400%nat, mkErrorBody message "INVALID_FILE_TYPE" None)
      else if JS.includes message "OpenAI" || JS.includes message "API key"
      then (503%nat, mkErrorBody "AI service temporarily unavailable" "AI_SERVICE_ERROR" None)
      else if JS.includes message "Pinecone" || JS.includes message "vector"
      then (503%nat, mkErrorBody "Vector search service temporarily unavailable"
                   "VECTOR_SERVICE_ERROR" None)
      else
        let statusCode :=
          match statusCode with
          | Some 0%nat | None => 500%nat
          | Some c => c
          end in
        (statusCode,
         mkErrorBody (if String.eqb message "" then "An unexpected error occurred"
                      else message)
           "INTERNAL_ERROR" None)
  end.

(** An error made with [new Error(message)], as the services and the
    controllers of this repository do. *)
Definition ofError (e : JsError) : Thrown := OtherError (message e) None.

End ErrorMiddleware.

(* ================================================================== *)
(** * controllers: the pagination of getJobs and getResumes *)
(* ================================================================== *)

Module Pagination.

(** The value of a digit or letter in [parseInt]. *)
Definition digitOf (c : ascii) : option Z :=
  let n := nat_of_ascii c in
  if ((48 <=? n) && (n <=? 57))%nat then Some (Z.of_nat (n - 48))
  else if ((97 <=? n) && (n <=? 122))%nat then Some (Z.of_nat (n - 87))
  else if ((65 <=? n) && (n <=? 90))%nat then Some (Z.of_nat (n - 55))
  else None.

(** The longest prefix of digits of the radix, as a number; [None] when
    there is no digit. *)
Fixpoint digits (radix : Z) (acc : option Z) (s : string) : option Z :=
  match s with
  | EmptyString => acc
  | String c r =>
      match digitOf c with
      | Some d =>
          if (d <? radix)%Z
          then digits radix
                 (Some (radix * match acc with Some a => a | None => 0 end + d)%Z) r
          else acc
      | None => acc
      end
  end.

(** The mathematical integer that [parseInt(s)] reads, without a radix:
    leading white space is skipped, then a sign, then [0x] or [0X] selects
    radix 16; [None] when there is no digit. *)
Definition parseInteger (s : string) : option Z :=
  let s := JSText.trimStart s in
  let signed :=
    match s with
    | String c r =>
        if (nat_of_ascii c =? 45)%nat then ((-1)%Z, r)
        else if (nat_of_ascii c =? 43)%nat then (1%Z, r)
        else (1%Z, s)
    | EmptyString => (1%Z, s)
    end in
  let sign := fst signed in
  let s := snd signed in
  let based :=
    match s with
    | String z (String x r) =>
        if ((nat_of_ascii z =? 48) && ((nat_of_ascii x =? 120) || (nat_of_ascii x =? 88)))%nat
        then (16%Z, r) else (10%Z, s)
    | _ => (10%Z, s)
    end in
  option_map (Z.mul sign) (digits (fst based) None (snd based)).

(** [parseInt(s)]: the number of that integer, which is the nearest
    double; [None] is [NaN]. (For a decimal numeral of more than 20
    significant digits the standard lets an implementation drop the
    digits after the 20th before rounding; here none is dropped.) *)
Definition parseInt (s : string) : option Q :=
  option_map (fun z => Double.round (inject_Z z)) (parseInteger s).

(** [parseInt(value as string) || fallback]: [NaN] and 0 are falsy; a
    query parameter that is not there is [undefined]. *)
Definition parseIntOr (value : option string) (fallback : Q) : Q :=
  match value with
  | Some s =>
      match parseInt s with
      | Some n => if Qeq_bool n 0 then fallback else n
      | None => fallback
      end
  | None => fallback
  end.

Record Window := mkWindow {
  page : Q;
  limit : Q;
  skip : Q
}.

(** The first three lines of [getJobs] and of [getResumes]; the
    subtraction and the multiplication are operations on doubles. *)
Definition window (queryPage queryLimit : option string) : Window :=
  let page := parseIntOr queryPage 1 in
  let limit := JS.Math_min (parseIntOr queryLimit 10) 50 in
  let skip := Double.round (Double.round (page - 1) * limit) in
  mkWindow page limit skip.

End Pagination.

(* ================================================================== *)
(** * index.ts: the CORS check *)
(* ================================================================== *)

Module Server.

(** The [origin] callback given to [cors]: [callback(null, true)], or
    [callback(new Error(...))]; a request may come without an origin. *)
Definition corsOrigin (allowedOrigins : list string) (origin : option string) : Res bool :=
  match origin with
  | None => Ok true
  | Some o =>
      if String.eqb o "" then Ok true
      else if existsb (String.eqb o) allowedOrigins then Ok true
      else Throw (Error "Not allowed by CORS")
  end.

End Server.

(* ================================================================== *)
(** * More deployments *)
(* ================================================================== *)

Module Scenario.

(** The demo deployment with an index that cannot be reached at all. *)
Definition indexDown : Services :=
  mkServices (INDEX_NAME Demo.svc) (JSON_parse Demo.svc)
    (chat_completions_create Demo.svc) (embeddings_create Demo.svc)
    (fun _ => Throw (Error "Pinecone unreachable"))
    (createIndex Demo.svc) (awaitIndexReady Demo.svc)
    (index_upsert Demo.svc) (index_query Demo.svc) (index_deleteOne Demo.svc).

(** The demo deployment with an index that refuses every upsert. *)
Definition upsertDown : Services :=
  mkServices (INDEX_NAME Demo.svc) (JSON_parse Demo.svc)
    (chat_completions_create Demo.svc) (embeddings_create Demo.svc)
    (listIndexes Demo.svc) (createIndex Demo.svc) (awaitIndexReady Demo.svc)
    (fun _ _ _ _ => Throw (Error "quota exceeded"))
    (index_query Demo.svc) (index_deleteOne Demo.svc).

(** A match request for a resume that is not in the store. *)
Definition strangerRequest : json :=
  JObj [("resumeId", JStr "nobody"); ("jobTitle", JStr "Backend developer");
        ("jobDescription", JStr Demo.description60)].

Definition stranger : JobMatchRequest :=
  mkJobMatchRequest "nobody" "Backend developer" Demo.description60 None.

(** The demo store after one match, then after the resume was deleted
    from it and after the job was. *)
Definition afterDeleteResume : World :=
  Eval vm_compute in snd (ResumeController.deleteResume Demo.svc "r1" Demo.world1).

Definition afterDeleteJob : World :=
  Eval vm_compute in snd (JobController.deleteJob Demo.svc "0" Demo.world1).

(** The demo store after a match that failed at the index upsert. *)
Definition afterFailedUpsert : World :=
  Eval vm_compute in
    snd (JobController.matchJob upsertDown (Demo.matchRequest Demo.description60)
           Demo.world).

End Scenario.

(** A deployment of the upload: the demo services, a clock that counts
    the calls made, and parsers of which only the one for text files
    works. *)
Module UploadDemo.

(** The file name from its last dot on. *)
Fixpoint fromLastDot (name : string) : string :=
  match name with
  | EmptyString => EmptyString
  | String c rest =>
      match fromLastDot rest with
      | EmptyString => if (nat_of_ascii c =? 46)%nat then name else EmptyString
      | extension => extension
      end
  end.

Definition lib : ParserService.Parsers :=
  ParserService.mkParsers fromLastDot
    (fun _ => Throw (Error "Invalid PDF structure"))
    (fun _ => Ok (Some "   "))
    string_of_list_byte.

Definition clock (history : list Event) : nat := List.length history.

Definition CRLF : string := String (ascii_of_nat 13) (String (ascii_of_nat 10) EmptyString).
Definition TAB : string := String (ascii_of_nat 9) EmptyString.

Definition cvText : string :=
  "Jane Doe" ++ CRLF ++ "Backend developer" ++ TAB ++ "with Python, AWS and Django."
  ++ CRLF ++ CRLF ++ CRLF ++ CRLF
  ++ "Ships services in Docker;  mentors juniors; writes the documentation.  ".

Definition textFile (name content : string) : ParserService.File :=
  ParserService.mkFile name "text/plain" (N.of_nat (String.length content))
    (list_byte_of_string content).

Definition cv : ParserService.File := textFile "cv.TXT" cvText.

(** A text file with too little in it, and a file of 11 MB. *)
Definition note : ParserService.File := textFile "note.txt" "Call me.".

Definition huge : ParserService.File :=
  ParserService.mkFile "cv.pdf" "application/pdf" 11534336 [].

Definition noUpload : ResumeUploadResponse :=
  mkResumeUploadResponse "" "" (profileOf []) None 0.

Definition dataOr (o : UploadOutcome) : ResumeUploadResponse :=
  match o with
  | UploadResponded _ (UploadData d) => d
  | _ => noUpload
  end.

(** The upload of [cv] into the demo store, and the store after it. *)
Definition uploaded : ResumeUploadResponse :=
  Eval vm_compute in
    dataOr (fst (ResumeUpload.uploadResume lib Demo.svc clock (Some cv) Demo.world)).

Definition world1 : World :=
  Eval vm_compute in
    snd (ResumeUpload.uploadResume lib Demo.svc clock (Some cv) Demo.world).

(** The same upload when the index refuses the upsert. *)
Definition worldFailed : World :=
  Eval vm_compute in
    snd (ResumeUpload.uploadResume lib Scenario.upsertDown clock (Some cv) Demo.world).

(** The store after the uploaded resume was deleted again. *)
Definition worldDeleted : World :=
  Eval vm_compute in snd (ResumeController.deleteResume Demo.svc "0" world1).

End UploadDemo.

(** Deployments in which OpenAI fails: the chat answers without content,
    or the embeddings call cannot connect. *)
Module Outage.

Definition silentChat : Services :=
  mkServices (INDEX_NAME Demo.svc) (JSON_parse Demo.svc)
    (fun _ _ => Ok None) (embeddings_create Demo.svc)
    (listIndexes Demo.svc) (createIndex Demo.svc) (awaitIndexReady Demo.svc)
    (index_upsert Demo.svc) (index_query Demo.svc) (index_deleteOne Demo.svc).

Definition noConnection : Services :=
  mkServices (INDEX_NAME Demo.svc) (JSON_parse Demo.svc)
    (chat_completions_create Demo.svc) (fun _ _ => Throw (Error "Connection error."))
    (listIndexes Demo.svc) (createIndex Demo.svc) (awaitIndexReady Demo.svc)
    (index_upsert Demo.svc) (index_query Demo.svc) (index_deleteOne Demo.svc).

(** The demo store with the index handle initialised. *)
Definition ready : World := with_indexInitialized Demo.world true.

End Outage.

(** The steps of the first match of the demo, one by one, up to the
    similarity query. *)
Module Trace.

Definition data : JobMatchRequest :=
  mkJobMatchRequest "r1" "Backend developer" Demo.description60 None.

Definition returned {A} (fallback : A) (r : Res A * World) : A :=
  match fst r with
  | Ok a => a
  | Throw _ => fallback
  end.

Definition w1 : World :=
  Eval vm_compute in snd (Prisma.resume_findUnique "r1" Demo.world).

Definition jobSkills : ExtractedSkills :=
  Eval vm_compute in
    returned (profileOf []) (AIService.extractSkills Demo.svc Demo.description60 w1).

Definition w2 : World :=
  Eval vm_compute in snd (AIService.extractSkills Demo.svc Demo.description60 w1).

Definition jobEmbedding : list Q :=
  Eval vm_compute in
    returned [] (AIService.generateEmbedding Demo.svc Demo.description60 w2).

Definition w3 : World :=
  Eval vm_compute in snd (AIService.generateEmbedding Demo.svc Demo.description60 w2).

Definition job : JobDescription :=
  Eval vm_compute in
    returned (mkJobDescription "" "" None "" jobSkills None)
      (Prisma.jobDescription_create "Backend developer" None Demo.description60
         jobSkills w3).

Definition w4 : World :=
  Eval vm_compute in
    snd (Prisma.jobDescription_create "Backend developer" None Demo.description60
           jobSkills w3).

Definition w5 : World :=
  Eval vm_compute in
    snd (VectorService.upsertJob Demo.svc "0" jobEmbedding ["Python"; "AWS"; "Django"]
           "Backend developer" w4).

Definition w6 : World :=
  Eval vm_compute in snd (Prisma.jobDescription_update "0" "job_0" w5).

Definition resumeEmbedding : list Q :=
  Eval vm_compute in
    returned [] (AIService.generateEmbedding Demo.svc (resume_rawText Demo.resume1) w6).

Definition w7 : World :=
  Eval vm_compute in
    snd (AIService.generateEmbedding Demo.svc (resume_rawText Demo.resume1) w6).

(** The answer of the one similarity query: an older job only. *)
Definition similarResults : list VectorQueryResult :=
  Eval vm_compute in
    returned [] (VectorService.findSimilar Demo.svc resumeEmbedding 10 (Some "job") w7).

Definition w8 : World :=
  Eval vm_compute in
    snd (VectorService.findSimilar Demo.svc resumeEmbedding 10 (Some "job") w7).

End Trace.

(* ================================================================== *)
(** * Vocabulary of the properties *)
(* ================================================================== *)

(** What a computation that only calls collaborators and reads the store
    may change: the log grows, the index handle may get initialised, the
    job records may get their vector id; resumes, matches and the id
    counter stay. *)
Definition frame (w w' : World) : Prop :=
  resumes w' = resumes w /\
  matches w' = matches w /\
  nextId w' = nextId w /\
  exists l, log w' = log w ++ l.

Definition framed {A} (c : M A) : Prop :=
  forall w r w', c w = (r, w') -> frame w w'.

(** A triple: from [P], [c] returns in [Q] or throws in [E]. *)
Definition triple {A} (P : World -> Prop) (c : M A)
    (Q : A -> World -> Prop) (E : World -> Prop) : Prop :=
  forall w r w', c w = (r, w') -> P w ->
    match r with
    | Ok a => Q a w'
    | Throw _ => E w'
    end.

(** The key of a match record. *)
Definition pairOf (m : JobMatch) : string * string :=
  (match_resumeId m, match_jobId m).

(** The store's invariant: no two match records share their
    (resumeId, jobId) pair, and every job a match refers to got its id
    from the counter. *)
Definition uniquePairs (w : World) : Prop := NoDup (map pairOf (matches w)).

Definition idsBelow (w : World) : Prop :=
  forall m, In m (matches w) -> exists k, (k < nextId w)%nat /\ match_jobId m = genId k.

Definition storeInv (w : World) : Prop := uniquePairs w /\ idsBelow w.

(** A job that got its id from the counter. *)
Definition jobKnown (job : JobDescription) (w : World) : Prop :=
  storeInv w /\ exists k, (k < nextId w)%nat /\ job_id job = genId k.

(** The requests that write match records or delete them, with the
    candidate search, and a run of them. ([uploadResume], the only other
    handler that writes, adds a resume and its vector and leaves the
    matches alone.) *)
Inductive Request :=
| MatchJob (body : json)
| FindCandidates (body : FindCandidatesBody)
| DeleteJob (id : string)
| DeleteResume (id : string).

Definition handle (svc : Services) (r : Request) : World -> Outcome * World :=
  match r with
  | MatchJob body => JobController.matchJob svc body
  | FindCandidates body => JobController.findCandidates svc body
  | DeleteJob id => JobController.deleteJob svc id
  | DeleteResume id => ResumeController.deleteResume svc id
  end.

Fixpoint run (svc : Services) (rs : list Request) (w : World) : World :=
  match rs with
  | [] => w
  | r :: rest => run svc rest (snd (handle svc r w))
  end.



(** [results.matches || []]. *)
Definition matchesOf (answer : option (list ScoredVector)) : list ScoredVector :=
  match answer with
  | Some ms => ms
  | None => []
  end.

(** ** Shapes the schemas accept *)

(** A list field with a default: missing (and then empty), or an array
    of exactly these strings. *)
Definition defaultedAs (raw : json) (key : string) (xs : list string) : Prop :=
  (prop key raw = None /\ xs = []) \/ prop key raw = Some (JArr (map JStr xs)).

(** An optional field: missing, or the value under the given injection. *)
Definition optionalAs {A} (inj : A -> json) (raw : json) (key : string) (o : option A) : Prop :=
  prop key raw = option_map inj o.

(** ** Finer frames *)

(** What a call to OpenAI or Pinecone, or a lookup in the store, may
    change: the log grows and the index handle may get initialised (and
    then stays so); every record stays. *)
Definition calm (w w' : World) : Prop :=
  frame w w' /\
  jobs w' = jobs w /\
  (indexInitialized w = true -> indexInitialized w' = true).

Definition calmed {A} (c : M A) : Prop :=
  forall w r w', c w = (r, w') -> calm w w'.

(** A triple whose exceptional postcondition sees the error. *)
Definition ensures {A} (P : World -> Prop) (c : M A)
    (Q : A -> World -> Prop) (E : JsError -> World -> Prop) : Prop :=
  forall w r w', c w = (r, w') -> P w ->
    match r with
    | Ok a => Q a w'
    | Throw e => E e w'
    end.

(** An error raised by one of the two OpenAI calls of [matchJob] that
    come before the job record is created. *)
Definition fromOpenAI (e : JsError) : Prop :=
  exists reason,
    e = Error ("Failed to extract skills: " ++ reason) \/
    e = Error ("Failed to generate embedding: " ++ reason).

(** The ids of the job records, in the order of the table. *)
Definition jobIds (w : World) : list string := map job_id (jobs w).

(** The three stages of a match that fails: before the job record is
    created, after it is, and the state the failure leaves. *)
Definition beforeJob (ms : list JobMatch) (ids : list string) (n : nat) (w : World) : Prop :=
  matches w = ms /\ jobIds w = ids /\ nextId w = n.

Definition afterJob (ms : list JobMatch) (ids : list string) (n : nat) (w : World) : Prop :=
  matches w = ms /\ jobIds w = ids ++ [genId n].

Definition failedMatch (ms : list JobMatch) (ids : list string) (n : nat)
    (e : JsError) (w : World) : Prop :=
  matches w = ms /\
  ((jobIds w = ids /\ fromOpenAI e) \/ jobIds w = ids ++ [genId n]).

(** Every code unit of [s] satisfies [P]. *)
Definition everyUnit (P : ascii -> bool) (s : string) : bool :=
  forallb P (list_ascii_of_string s).

(** A code unit that [cleanText] is meant to remove or replace. *)
Definition unwanted (c : ascii) : bool :=
  JSText.isCR c || JSText.isTAB c || JSText.isControl c.

(** A string that does not start with white space. *)
Definition startsClean (s : string) : Prop :=
  match s with
  | EmptyString => True
  | String c _ => JSText.isWhiteSpace c = false
  end.

(** The code units of the lines, and one line feed between two lines. *)
Definition joinedLength (lines : list string) : nat :=
  (fold_right (fun line n => String.length line + n) 0 lines
   + Nat.pred (List.length lines))%nat.

(** What a successful [parseBuffer] returned, by the extension. *)
Definition parsedFrom (lib : ParserService.Parsers) (buffer : list Byte.byte)
    (originalName raw : string) : Prop :=
  let extension := JS.toLowerCase (ParserService.path_extname lib originalName) in
  (extension = ".pdf" /\ ParserService.pdfParse lib buffer = Ok (Some raw) /\
   JSText.trim raw <> "") \/
  (extension = ".docx" /\ ParserService.mammoth_extractRawText lib buffer = Ok (Some raw) /\
   JSText.trim raw <> "") \/
  (extension = ".txt" /\ raw = ParserService.buffer_toString lib buffer).

(** A proper end of [p] is a start of [keyword]: appending to [p] could
    complete an occurrence of the keyword across the seam. *)
Fixpoint overlaps (p keyword : string) : bool :=
  match p with
  | EmptyString => false
  | String _ rest => String.prefix p keyword || overlaps rest keyword
  end.

(** The status by which [errorHandler] answers a plain error, read off
    the message alone. *)
Definition statusOf (message : string) : nat :=
  fst (ErrorMiddleware.errorHandler (ErrorMiddleware.OtherError message None)).

(** The message mentions one of the four keywords of the two services. *)
Definition mentionsService (message : string) : bool :=
  JS.includes message "OpenAI" || JS.includes message "API key"
  || JS.includes message "Pinecone" || JS.includes message "vector".

(** The decimal numeral of a number, as it is written in a query string. *)
Definition decimal (n : nat) : string := NilEmpty.string_of_uint (Nat.to_uint n).

(** The number that the digits of [d] stand for after the digits of [a]. *)
Fixpoint valueAfter (d : Decimal.uint) (a : Z) : Z :=
  match d with
  | Decimal.Nil => a
  | Decimal.D0 d => valueAfter d (10 * a)
  | Decimal.D1 d => valueAfter d (10 * a + 1)
  | Decimal.D2 d => valueAfter d (10 * a + 2)
  | Decimal.D3 d => valueAfter d (10 * a + 3)
  | Decimal.D4 d => valueAfter d (10 * a + 4)
  | Decimal.D5 d => valueAfter d (10 * a + 5)
  | Decimal.D6 d => valueAfter d (10 * a + 6)
  | Decimal.D7 d => valueAfter d (10 * a + 7)
  | Decimal.D8 d => valueAfter d (10 * a + 8)
  | Decimal.D9 d => valueAfter d (10 * a + 9)
  end%Z.

(** One of the code units 0 to 9. *)
Definition isDecimalDigit (c : ascii) : bool :=
  ((48 <=? nat_of_ascii c) && (nat_of_ascii c <=? 57))%nat.

(* ================================================================== *)
(** * Properties *)
(* ================================================================== *)

(** ** JavaScript primitives *)

Lemma prefix_app_iff (sub s : string) :
  String.prefix sub s = true <-> exists post, s = (sub ++ post)%string.
Proof.
  revert s; induction sub as [|c sub IH]; intros s.
  - split; [intros _; now exists s | intros _; now destruct s].
  - destruct s as [|d s]; simpl.
    + split; [discriminate | intros [post H]; discriminate].
    + destruct (Ascii.ascii_dec c d) as [->|Hne].
      * rewrite IH. split; intros [post H]; exists post.
        -- now rewrite H.
        -- now inversion H.
      * split; [discriminate | intros [post H]; inversion H; congruence].
Qed.

Lemma includes_unfold (s sub : string) :
  JS.includes s sub =
  String.prefix sub s
  || match s with EmptyString => false | String _ r => JS.includes r sub end.
Proof.
  destruct s; cbn [JS.includes];
    match goal with |- context [String.prefix ?a ?b] => now destruct (String.prefix a b) end.
Qed.

(** [includes s sub] holds exactly when [s] is [pre ++ sub ++ post]. *)
Lemma includes_spec (s sub : string) :
  JS.includes s sub = true <-> exists pre post, s = (pre ++ sub ++ post)%string.
Proof.
  induction s as [|c s IH]; rewrite includes_unfold, orb_true_iff, prefix_app_iff.
  - split.
    + intros [[post E]|E]; [now exists "", post | discriminate].
    + intros [pre [post H]]. left. destruct pre; [now exists post | discriminate].
  - rewrite IH. split.
    + intros [[post E]|[pre [post E]]].
      * now exists "", post.
      * exists (String c pre), post. simpl. now rewrite E.
    + intros [pre [post H]]. destruct pre as [|d pre]; simpl in H.
      * left. now exists post.
      * right. inversion H. now exists pre, post.
Qed.

Lemma Set_has_In (st : list string) (x : string) :
  JS.Set_has st x = true <-> In x st.
Proof.
  unfold JS.Set_has. rewrite existsb_exists. split.
  - intros [y [Hy E]]. apply String.eqb_eq in E. now subst.
  - intros H. exists x. split; [assumption | apply String.eqb_refl].
Qed.

Lemma Set_add_In (st : list string) (x y : string) :
  In y (JS.Set_add st x) <-> In y st \/ y = x.
Proof.
  unfold JS.Set_add. destruct (JS.Set_has st x) eqn:E.
  - apply Set_has_In in E. split; [now left | intros [H| ->]; assumption].
  - rewrite in_app_iff. simpl. intuition.
Qed.

Lemma Set_fold_In (xs st : list string) (y : string) :
  In y (fold_left JS.Set_add xs st) <-> In y st \/ In y xs.
Proof.
  revert st; induction xs as [|x xs IH]; intros st; simpl.
  - intuition.
  - rewrite IH, Set_add_In. intuition.
Qed.

(** A [Set] built from an array has the array's elements. *)
Lemma Set_of_In (xs : list string) (y : string) :
  In y (JS.Set_of xs) <-> In y xs.
Proof. unfold JS.Set_of. rewrite Set_fold_In. simpl. intuition. Qed.

(** ** The reconciler as three filters *)

Lemma gap_fold_filter (rs : list string) (job : list string) (acc : SkillGap) :
  let g := fold_left (AIService.gapStep rs) job acc in
  matched g = matched acc ++ filter (inBucket rs Matched) job /\
  partial g = partial acc ++ filter (inBucket rs Partial) job /\
  missing g = missing acc ++ filter (inBucket rs Missing) job.
Proof.
  revert acc; induction job as [|s job IH]; intros acc; simpl.
  - now rewrite !app_nil_r.
  - specialize (IH (AIService.gapStep rs acc s)). simpl in IH.
    destruct IH as (Hm & Hp & Hx). rewrite Hm, Hp, Hx.
    unfold AIService.gapStep, inBucket, bucketOf.
    destruct (JS.Set_has rs (JS.toLowerCase s)); simpl;
      [|destruct (AIService.hasPartialMatch rs (JS.toLowerCase s)); simpl];
      rewrite <- ?app_assoc; simpl; auto.
Qed.

Lemma analyzeSkillGaps_filter (resumeSkills jobSkills : ExtractedSkills) :
  let rs := AIService.resumeAllSkills resumeSkills in
  let job := AIService.allSkills jobSkills in
  let g := AIService.analyzeSkillGaps resumeSkills jobSkills in
  matched g = filter (inBucket rs Matched) job /\
  partial g = filter (inBucket rs Partial) job /\
  missing g = filter (inBucket rs Missing) job.
Proof.
  intros rs job g.
  exact (gap_fold_filter rs job (mkSkillGap [] [] [])).
Qed.

Lemma bucket_filters_length (rs job : list string) :
  (List.length (filter (inBucket rs Matched) job)
   + List.length (filter (inBucket rs Partial) job)
   + List.length (filter (inBucket rs Missing) job) = List.length job)%nat.
Proof.
  induction job as [|s job IH]; simpl; [reflexivity|].
  assert (H : forall b, inBucket rs b s = Bucket_eqb (bucketOf rs s) b) by reflexivity.
  rewrite !H. destruct (bucketOf rs s); simpl; lia.
Qed.

Lemma bucket_filters_perm (rs job : list string) :
  Permutation (filter (inBucket rs Matched) job
               ++ filter (inBucket rs Partial) job
               ++ filter (inBucket rs Missing) job) job.
Proof.
  induction job as [|s job IH]; simpl; [constructor|].
  assert (H : forall b, inBucket rs b s = Bucket_eqb (bucketOf rs s) b) by reflexivity.
  rewrite !H. destruct (bucketOf rs s); simpl.
  - now constructor.
  - rewrite <- Permutation_middle. now constructor.
  - rewrite app_assoc, <- Permutation_middle, <- app_assoc. now constructor.
Qed.

(** ** C1: the three lists partition the job's skill list *)

(** C1. For every résumé profile and job profile, the SkillGap returned by
    [analyzeSkillGaps] partitions the job's combined skill list
    (technicalSkills, then frameworks, then tools, duplicates kept): the
    three lengths add up to the length of that list, the three lists
    together are a rearrangement of it, each list is the job list filtered
    by one bucket (so its entries keep the job list's order), and every job
    skill is in exactly one of the three lists. *)
Theorem analyzeSkillGaps_partition (resumeSkills jobSkills : ExtractedSkills) :
  let job := technicalSkills jobSkills ++ frameworks jobSkills ++ tools jobSkills in
  let rs := AIService.resumeAllSkills resumeSkills in
  let g := AIService.analyzeSkillGaps resumeSkills jobSkills in
  (List.length (matched g) + List.length (partial g) + List.length (missing g)
   = List.length job)%nat /\
  Permutation (matched g ++ partial g ++ missing g) job /\
  matched g = filter (inBucket rs Matched) job /\
  partial g = filter (inBucket rs Partial) job /\
  missing g = filter (inBucket rs Missing) job /\
  (forall s, In s job ->
     (In s (matched g) /\ ~ In s (partial g) /\ ~ In s (missing g)) \/
     (~ In s (matched g) /\ In s (partial g) /\ ~ In s (missing g)) \/
     (~ In s (matched g) /\ ~ In s (partial g) /\ In s (missing g))).
Proof.
  intros job rs g.
  destruct (analyzeSkillGaps_filter resumeSkills jobSkills) as (Hm & Hp & Hx).
  fold rs in Hm, Hp, Hx. fold g in Hm, Hp, Hx.
  change (AIService.allSkills jobSkills) with job in Hm, Hp, Hx.
  rewrite Hm, Hp, Hx.
  repeat split; auto using bucket_filters_length, bucket_filters_perm.
  intros s Hs. rewrite !filter_In. unfold inBucket.
  destruct (bucketOf rs s); simpl; intuition congruence.
Qed.

(** ** C2: which bucket a job skill goes to *)

Lemma resumeAllSkills_In (resumeSkills : ExtractedSkills) (r : string) :
  In r (AIService.resumeAllSkills resumeSkills) <->
  exists x, In x (AIService.allSkills resumeSkills) /\ r = JS.toLowerCase x.
Proof.
  unfold AIService.resumeAllSkills. rewrite Set_of_In, in_map_iff.
  split; intros [x [A B]]; exists x; auto.
Qed.

Lemma hasPartialMatch_spec (rs : list string) (s' : string) :
  AIService.hasPartialMatch rs s' = true <->
  exists r, In r rs /\ (isSubstringOf s' r \/ isSubstringOf r s').
Proof.
  unfold AIService.hasPartialMatch, isSubstringOf.
  rewrite existsb_exists. split; intros [r [Hr H]]; exists r; split; auto.
  - apply orb_true_iff in H. now rewrite !includes_spec in H.
  - apply orb_true_iff. now rewrite !includes_spec.
Qed.

Lemma analyzeSkillGaps_withTool (resumeSkills jobSkills : ExtractedSkills) (s : string) :
  AIService.analyzeSkillGaps resumeSkills (withTool jobSkills s) =
  AIService.gapStep (AIService.resumeAllSkills resumeSkills)
    (AIService.analyzeSkillGaps resumeSkills jobSkills) s.
Proof.
  unfold AIService.analyzeSkillGaps, AIService.allSkills, withTool. simpl.
  now rewrite !app_assoc, fold_left_app.
Qed.

(** C2. Let the job's skill list be extended by one more skill [s]. If the
    lower-cased [s] is in the résumé's lower-cased combined skill set, [s]
    is appended to [matched] (whatever substring relations also hold);
    otherwise, if some résumé skill occurs in the lower-cased [s] or the
    lower-cased [s] occurs in some résumé skill, [s] is appended to
    [partial]; otherwise [s] is appended to [missing]; the other two lists
    stay as they were. In particular résumé skills [React] against job
    skills [React.js] give partial = [React.js] and nothing matched.
    Lower-casing folds the letters of both sides: against the résumé
    skills [PostgreSQL] and [École] (its first letter the code unit 201),
    the job skills [postgresql] and [éCOLE] (code unit 233) are matched,
    [SQL] is partial (it occurs in [postgresql]) and [Go] is missing. *)
Theorem analyzeSkillGaps_bucket_rule :
  (forall (resumeSkills jobSkills : ExtractedSkills) (s : string),
     let inResumeSet r :=
       exists x, In x (technicalSkills resumeSkills ++ frameworks resumeSkills
                       ++ tools resumeSkills) /\ r = JS.toLowerCase x in
     let s' := JS.toLowerCase s in
     let g := AIService.analyzeSkillGaps resumeSkills jobSkills in
     let g' := AIService.analyzeSkillGaps resumeSkills (withTool jobSkills s) in
     (inResumeSet s' ->
        matched g' = matched g ++ [s] /\ partial g' = partial g /\ missing g' = missing g) /\
     (~ inResumeSet s' ->
      (exists r, inResumeSet r /\ (isSubstringOf r s' \/ isSubstringOf s' r)) ->
        matched g' = matched g /\ partial g' = partial g ++ [s] /\ missing g' = missing g) /\
     (~ inResumeSet s' ->
      ~ (exists r, inResumeSet r /\ (isSubstringOf r s' \/ isSubstringOf s' r)) ->
        matched g' = matched g /\ partial g' = partial g /\ missing g' = missing g ++ [s]))
  /\
  AIService.analyzeSkillGaps (profileOf ["React"]) (profileOf ["React.js"])
  = mkSkillGap [] [] ["React.js"]
  /\
  AIService.analyzeSkillGaps (profileOf ["PostgreSQL"; String "201" "cole"])
    (profileOf ["postgresql"; String "233" "COLE"; "SQL"; "Go"])
  = mkSkillGap ["Go"] ["postgresql"; String "233" "COLE"] ["SQL"].
Proof.
  split; [|split; reflexivity].
  intros resumeSkills jobSkills s inResumeSet s' g g'.
  assert (Hset : forall r, In r (AIService.resumeAllSkills resumeSkills) <-> inResumeSet r)
    by (intros r; apply resumeAllSkills_In).
  unfold g'. rewrite analyzeSkillGaps_withTool. fold g. fold s'.
  unfold AIService.gapStep. fold s'.
  destruct (JS.Set_has (AIService.resumeAllSkills resumeSkills) s') eqn:Ehas.
  - apply Set_has_In, Hset in Ehas. simpl.
    split; [auto | split; intros; contradiction].
  - assert (Hnot : ~ inResumeSet s').
    { intros H. apply Hset, Set_has_In in H. congruence. }
    destruct (AIService.hasPartialMatch (AIService.resumeAllSkills resumeSkills) s') eqn:Ep.
    + apply hasPartialMatch_spec in Ep. destruct Ep as [r [Hr Hsub]]. simpl.
      split; [intros; contradiction | split; [auto |]].
      intros _ Hno. exfalso. apply Hno.
      exists r. split; [now apply Hset | tauto].
    + simpl. split; [intros; contradiction | split; [| auto]].
      intros _ [r [Hr Hsub]]. exfalso.
      assert (AIService.hasPartialMatch (AIService.resumeAllSkills resumeSkills) s' = true).
      { apply hasPartialMatch_spec. exists r. split; [now apply Hset | tauto]. }
      congruence.
Qed.

(** The scenario of the specification: only [Python] is matched. *)
Example analyzeSkillGaps_python :
  AIService.analyzeSkillGaps (profileOf ["Python"; "Docker"])
    (profileOf ["Python"; "AWS"; "Django"])
  = mkSkillGap ["AWS"; "Django"] ["Python"] [].
Proof. reflexivity. Qed.

(** ** C4: the similarity scorer *)

Local Open Scope Q_scope.

(** Division by the constants of the scorer, as a multiplication. *)
Ltac by_constants :=
  unfold Qdiv in *;
  change (/ 10) with (1 # 10) in *;
  change (/ 2) with (1 # 2) in *.

(** [Math.round] is within a half of its argument, the upper half included. *)
Lemma Math_round_bounds (x : Q) :
  x - (1 # 2) < inject_Z (JS.Math_round x) /\ inject_Z (JS.Math_round x) <= x + (1 # 2).
Proof.
  unfold JS.Math_round. split.
  - pose proof (Qlt_floor (x + (1 # 2))) as H.
    rewrite inject_Z_plus in H. change (inject_Z 1) with 1 in H. lra.
  - apply Qfloor_le.
Qed.

Lemma Math_round_mono (x y : Q) : x <= y -> (JS.Math_round x <= JS.Math_round y)%Z.
Proof. intros H. unfold JS.Math_round. apply Qfloor_resp_le. lra. Qed.

Lemma Math_round_inject (z : Z) : JS.Math_round (inject_Z z) = z.
Proof.
  unfold JS.Math_round.
  pose proof (Qfloor_le (inject_Z z + (1 # 2))) as Hle.
  pose proof (Qlt_floor (inject_Z z + (1 # 2))) as Hlt.
  rewrite inject_Z_plus in Hlt. change (inject_Z 1) with 1 in Hlt.
  revert Hle Hlt. generalize (Qfloor (inject_Z z + (1 # 2))). intros f Hle Hlt.
  assert (A : inject_Z f < inject_Z (z + 1)).
  { rewrite inject_Z_plus. change (inject_Z 1) with 1. lra. }
  assert (B : inject_Z z < inject_Z (f + 1)).
  { rewrite inject_Z_plus. change (inject_Z 1) with 1. lra. }
  rewrite <- Zlt_Qlt in A, B. lia.
Qed.

(** *** Powers of two *)

Lemma two_pos (k : Z) : 0 < 2 ^ k.
Proof. apply Qpower_0_lt. reflexivity. Qed.

Lemma two_plus (a b : Z) : 2 ^ (a + b) == 2 ^ a * 2 ^ b.
Proof. apply Qpower_plus. discriminate. Qed.

Lemma two_le (a b : Z) : (a <= b)%Z -> 2 ^ a <= 2 ^ b.
Proof. intros H. apply Qpower_le_compat_l; [exact H|discriminate]. Qed.

Lemma two_lt_inv (a b : Z) : 2 ^ a < 2 ^ b -> (a < b)%Z.
Proof. intros H. apply (Qpower_lt_compat_l_inv 2); [exact H|reflexivity]. Qed.

Lemma two_inject (a : Z) : (0 <= a)%Z -> 2 ^ a == inject_Z (2 ^ a).
Proof. intros H. rewrite Zpower_Qpower by exact H. reflexivity. Qed.

(** ** The binary logarithm *)

Lemma ilog2_spec (x : Q) :
  0 < x -> 2 ^ Double.ilog2 x <= x /\ x < 2 ^ (Double.ilog2 x + 1).
Proof.
  intros Hx. destruct x as [n d]. unfold Double.ilog2. cbn [Qnum Qden].
  assert (Hn : (0 < n)%Z) by (unfold Qlt in Hx; simpl in Hx; lia).
  set (a := Z.log2 n). set (b := Z.log2 (Z.pos d)).
  assert (Ha : (0 <= a)%Z) by apply Z.log2_nonneg.
  assert (Hb : (0 <= b)%Z) by apply Z.log2_nonneg.
  destruct (Z.log2_spec n Hn) as [La Ua]. fold a in La, Ua.
  destruct (Z.log2_spec (Z.pos d) eq_refl) as [Lb Ub]. fold b in Lb, Ub.
  assert (Hx' : n # d == inject_Z n / inject_Z (Z.pos d)) by apply Qmake_Qdiv.
  assert (Hd : 0 < inject_Z (Z.pos d)) by reflexivity.
  assert (Pa := two_pos a). assert (Pb := two_pos b).
  assert (Ea : 2 ^ a == inject_Z (2 ^ a)) by (apply two_inject; exact Ha).
  assert (Eb : 2 ^ b == inject_Z (2 ^ b)) by (apply two_inject; exact Hb).
  assert (Ea1 : 2 ^ (a + 1) == 2 * inject_Z (2 ^ a))
    by (rewrite two_plus, Ea; change (2 ^ 1) with 2; ring).
  assert (Eb1 : 2 ^ (b + 1) == 2 * inject_Z (2 ^ b))
    by (rewrite two_plus, Eb; change (2 ^ 1) with 2; ring).
  (* the two bounds on x that come from the logarithms *)
  assert (Up : n # d < 2 ^ (a - b + 1)).
  { replace (a - b + 1)%Z with ((a + 1) - b)%Z by lia.
    rewrite Qpower_minus by discriminate. rewrite Hx', Ea1, Eb.
    apply Qlt_shift_div_l; [rewrite <- Eb; exact Pb|].
    unfold Qdiv. rewrite <- Qmult_assoc, (Qmult_comm (/ _)), Qmult_assoc.
    apply Qlt_shift_div_r; [exact Hd|].
    rewrite Z.pow_succ_r in Ua, Ub by lia.
    assert (Za : (0 < 2 ^ a)%Z) by (apply Z.pow_pos_nonneg; lia).
    assert (Zb : (0 < 2 ^ b)%Z) by (apply Z.pow_pos_nonneg; lia).
    change 2 with (inject_Z 2). rewrite <- !inject_Z_mult.
    rewrite <- Zlt_Qlt. nia. }
  assert (Lo : 2 ^ (a - b - 1) <= n # d).
  { replace (a - b - 1)%Z with (a - (b + 1))%Z by lia.
    rewrite Qpower_minus by discriminate. rewrite Hx', Ea, Eb1.
    apply Qle_shift_div_l; [exact Hd|].
    unfold Qdiv. rewrite <- Qmult_assoc, (Qmult_comm (/ _)), Qmult_assoc.
    apply Qle_shift_div_r; [rewrite <- Eb1; apply two_pos|].
    rewrite Z.pow_succ_r in Ua, Ub by lia.
    assert (Za : (0 < 2 ^ a)%Z) by (apply Z.pow_pos_nonneg; lia).
    assert (Zb : (0 < 2 ^ b)%Z) by (apply Z.pow_pos_nonneg; lia).
    change 2 with (inject_Z 2). rewrite <- !inject_Z_mult.
    rewrite <- Zle_Qle. nia. }
  destruct (Qle_bool (2 ^ (a - b)) (n # d)) eqn:E.
  - apply Qle_bool_iff in E. split; [exact E|exact Up].
  - assert (Hlt : n # d < 2 ^ (a - b)).
    { apply Qnot_le_lt. intros H. apply Qle_bool_iff in H. congruence. }
    split; [exact Lo|]. replace (a - b - 1 + 1)%Z with (a - b)%Z by lia. exact Hlt.
Qed.

Lemma ilog2_le (x : Q) (k : Z) : 0 < x -> x < 2 ^ (k + 1) -> (Double.ilog2 x <= k)%Z.
Proof.
  intros Hx H. destruct (ilog2_spec x Hx) as [L _].
  assert (2 ^ Double.ilog2 x < 2 ^ (k + 1)) by lra.
  apply two_lt_inv in H0. lia.
Qed.

Lemma ilog2_ge (x : Q) (k : Z) : 0 < x -> 2 ^ k <= x -> (k <= Double.ilog2 x)%Z.
Proof.
  intros Hx H. destruct (ilog2_spec x Hx) as [_ U].
  assert (2 ^ k < 2 ^ (Double.ilog2 x + 1)) by lra.
  apply two_lt_inv in H0. lia.
Qed.

Lemma ilog2_mono (x y : Q) : 0 < x -> x <= y -> (Double.ilog2 x <= Double.ilog2 y)%Z.
Proof.
  intros Hx H. apply ilog2_ge; [lra|]. destruct (ilog2_spec x Hx) as [L _]. lra.
Qed.

(** ** Rounding to an integer *)

Lemma nearestEven_spec (y : Q) :
  let z := inject_Z (Double.nearestEven y) in
  y - (1 # 2) <= z /\ z <= y + (1 # 2) /\
  (z == y + (1 # 2) \/ z == y - (1 # 2) -> Z.even (Double.nearestEven y) = true).
Proof.
  cbv zeta. unfold Double.nearestEven.
  pose proof (Qfloor_le y) as L. pose proof (Qlt_floor y) as U.
  rewrite inject_Z_plus in U. change (inject_Z 1) with 1 in U.
  destruct (Qcompare_spec (y - inject_Z (Qfloor y)) (1 # 2)) as [E|E|E].
  - destruct (Z.even (Qfloor y)) eqn:Ev.
    + split; [lra|]. split; [lra|]. intros _. exact Ev.
    + rewrite inject_Z_plus. change (inject_Z 1) with 1.
      split; [lra|]. split; [lra|]. intros _.
      rewrite Z.even_add, Ev. reflexivity.
  - split; [lra|]. split; [lra|]. intros [H|H]; lra.
  - rewrite inject_Z_plus. change (inject_Z 1) with 1.
    split; [lra|]. split; [lra|]. intros [H|H]; lra.
Qed.

Lemma nearestEven_mono (x y : Q) :
  x <= y -> (Double.nearestEven x <= Double.nearestEven y)%Z.
Proof.
  intros H.
  destruct (nearestEven_spec x) as (Lx & Ux & Ex).
  destruct (nearestEven_spec y) as (Ly & Uy & Ey).
  destruct (Z_le_gt_dec (Double.nearestEven x) (Double.nearestEven y)) as [|G];
    [assumption|exfalso].
  assert (G' : inject_Z (Double.nearestEven y) + 1 <= inject_Z (Double.nearestEven x)).
  { change 1 with (inject_Z 1). rewrite <- inject_Z_plus, <- Zle_Qle. lia. }
  assert (Evx : Z.even (Double.nearestEven x) = true) by (apply Ex; left; lra).
  assert (Evy : Z.even (Double.nearestEven y) = true) by (apply Ey; right; lra).
  assert (Eq1 : inject_Z (Double.nearestEven x) == inject_Z (Double.nearestEven y + 1))
    by (rewrite inject_Z_plus; change (inject_Z 1) with 1; lra).
  rewrite inject_Z_injective in Eq1. rewrite Eq1, Z.even_add, Evy in Evx. discriminate.
Qed.

Lemma nearestEven_inject (z : Z) : Double.nearestEven (inject_Z z) = z.
Proof.
  destruct (nearestEven_spec (inject_Z z)) as (L & U & _).
  assert (A : inject_Z (z - 1) < inject_Z (Double.nearestEven (inject_Z z)))
    by (unfold Z.sub; rewrite inject_Z_plus, inject_Z_opp; change (inject_Z 1) with 1; lra).
  assert (B : inject_Z (Double.nearestEven (inject_Z z)) < inject_Z (z + 1))
    by (rewrite inject_Z_plus; change (inject_Z 1) with 1; lra).
  rewrite <- Zlt_Qlt in A, B. lia.
Qed.

Lemma nearestEven_le (y : Q) (z : Z) : y <= inject_Z z -> (Double.nearestEven y <= z)%Z.
Proof. intros H. rewrite <- (nearestEven_inject z). now apply nearestEven_mono. Qed.

Lemma nearestEven_ge (y : Q) (z : Z) : inject_Z z <= y -> (z <= Double.nearestEven y)%Z.
Proof. intros H. rewrite <- (nearestEven_inject z) at 1. now apply nearestEven_mono. Qed.

(** ** Rounding to a double *)

Lemma round_eq (x : Q) :
  Double.round x
  == inject_Z (Double.nearestEven (x / 2 ^ Double.exponent x)) * 2 ^ Double.exponent x.
Proof. unfold Double.round. apply Qred_correct. Qed.

Lemma div_two_le (x : Q) (e : Z) (z : Z) :
  x <= inject_Z z * 2 ^ e -> x / 2 ^ e <= inject_Z z.
Proof.
  intros H. apply Qle_shift_div_r; [apply two_pos|exact H].
Qed.

Lemma div_two_ge (x : Q) (e : Z) (z : Z) :
  inject_Z z * 2 ^ e <= x -> inject_Z z <= x / 2 ^ e.
Proof.
  intros H. apply Qle_shift_div_l; [apply two_pos|exact H].
Qed.

Lemma round_le (x : Q) (z : Z) :
  x <= inject_Z z * 2 ^ Double.exponent x ->
  Double.round x <= inject_Z z * 2 ^ Double.exponent x.
Proof.
  intros H. rewrite round_eq. apply Qmult_le_compat_r; [|apply Qlt_le_weak, two_pos].
  rewrite <- Zle_Qle. apply nearestEven_le, div_two_le, H.
Qed.

Lemma round_ge (x : Q) (z : Z) :
  inject_Z z * 2 ^ Double.exponent x <= x ->
  inject_Z z * 2 ^ Double.exponent x <= Double.round x.
Proof.
  intros H. rewrite round_eq. apply Qmult_le_compat_r; [|apply Qlt_le_weak, two_pos].
  rewrite <- Zle_Qle. apply nearestEven_ge, div_two_ge, H.
Qed.

Lemma round_nonneg (x : Q) : 0 <= x -> 0 <= Double.round x.
Proof.
  intros H. pose proof (round_ge x 0) as R.
  change (inject_Z 0) with 0 in R. rewrite Qmult_0_l in R. now apply R.
Qed.

Lemma round_nonpos (x : Q) : x <= 0 -> Double.round x <= 0.
Proof.
  intros H. pose proof (round_le x 0) as R.
  change (inject_Z 0) with 0 in R. rewrite Qmult_0_l in R. now apply R.
Qed.

Lemma Qabs_nonzero (x : Q) : ~ x == 0 -> 0 < Qabs x.
Proof.
  intros H. destruct (Qlt_le_dec x 0) as [L|L].
  - rewrite Qabs_neg by lra. lra.
  - rewrite Qabs_pos by lra. destruct (Qlt_le_dec 0 x); [assumption|]. exfalso. apply H. lra.
Qed.

(** Below the next power of two [|x| < 2 ^ (exponent x + 53)]; and above
    the smallest normal number [2 ^ (exponent x + 52) <= |x|] unless the
    exponent is the least one. *)
Lemma exponent_upper (x : Q) : ~ x == 0 -> Qabs x < 2 ^ (Double.exponent x + 53).
Proof.
  intros H. destruct (ilog2_spec (Qabs x) (Qabs_nonzero x H)) as [_ U].
  eapply Qlt_le_trans; [exact U|]. apply two_le. unfold Double.exponent. lia.
Qed.

Lemma exponent_lower (x : Q) :
  ~ x == 0 -> (-1074 < Double.exponent x)%Z -> 2 ^ (Double.exponent x + 52) <= Qabs x.
Proof.
  intros H He. destruct (ilog2_spec (Qabs x) (Qabs_nonzero x H)) as [L _].
  eapply Qle_trans; [|exact L]. apply two_le. unfold Double.exponent in *. lia.
Qed.

Lemma exponent_mono (x y : Q) :
  ~ x == 0 -> Qabs x <= Qabs y -> (Double.exponent x <= Double.exponent y)%Z.
Proof.
  intros H L. unfold Double.exponent.
  pose proof (ilog2_mono (Qabs x) (Qabs y) (Qabs_nonzero x H) L). lia.
Qed.

Lemma round_zero (x : Q) : x == 0 -> Double.round x == 0.
Proof.
  intros H. apply Qle_antisym; [apply round_nonpos|apply round_nonneg]; lra.
Qed.

Theorem round_mono (x y : Q) : x <= y -> Double.round x <= Double.round y.
Proof.
  intros H.
  destruct (Qeq_dec x 0) as [Zx|Nx].
  { rewrite (round_zero x Zx). apply round_nonneg. lra. }
  destruct (Qeq_dec y 0) as [Zy|Ny].
  { rewrite (round_zero y Zy). apply round_nonpos. lra. }
  destruct (Z.lt_trichotomy (Double.exponent x) (Double.exponent y)) as [Lt|[Eq|Gt]].
  - (* y is the larger one in magnitude, so it is positive *)
    assert (Py : 0 < y).
    { destruct (Qlt_le_dec 0 y) as [|Ly]; [assumption|exfalso].
      assert (Qabs y <= Qabs x).
      { rewrite (Qabs_neg y) by lra. rewrite (Qabs_neg x) by lra. lra. }
      pose proof (exponent_mono y x Ny H0). lia. }
    pose proof (exponent_upper x Nx) as Ux.
    assert (Ly : 2 ^ (Double.exponent y + 52) <= Qabs y)
      by (apply exponent_lower; [exact Ny|unfold Double.exponent in *; lia]).
    rewrite (Qabs_pos y) in Ly by lra.
    pose proof (Qle_Qabs x) as Ax.
    apply Qle_trans with (inject_Z (2 ^ 53) * 2 ^ Double.exponent x).
    + apply round_le. rewrite <- two_inject, <- two_plus by lia.
      rewrite Z.add_comm. lra.
    + apply Qle_trans with (inject_Z (2 ^ 52) * 2 ^ Double.exponent y).
      * rewrite <- !two_inject, <- !two_plus by lia. apply two_le. lia.
      * apply round_ge. rewrite <- two_inject, <- two_plus by lia.
        rewrite Z.add_comm. exact Ly.
  - rewrite !round_eq, Eq.
    apply Qmult_le_compat_r; [|apply Qlt_le_weak, two_pos].
    rewrite <- Zle_Qle. apply nearestEven_mono.
    apply Qmult_le_compat_r; [exact H|]. apply Qlt_le_weak, Qinv_lt_0_compat, two_pos.
  - assert (Px : x < 0).
    { destruct (Qlt_le_dec x 0) as [|Lx]; [assumption|exfalso].
      assert (Qabs x <= Qabs y).
      { rewrite (Qabs_pos x) by lra. rewrite (Qabs_pos y) by lra. lra. }
      pose proof (exponent_mono x y Nx H0). lia. }
    pose proof (exponent_upper y Ny) as Uy.
    assert (Lx : 2 ^ (Double.exponent x + 52) <= Qabs x)
      by (apply exponent_lower; [exact Nx|unfold Double.exponent in *; lia]).
    rewrite (Qabs_neg x) in Lx by lra.
    assert (Ay : - Qabs y <= y).
    { destruct (Qlt_le_dec y 0); [rewrite Qabs_neg by lra|rewrite Qabs_pos by lra]; lra. }
    apply Qle_trans with (inject_Z (- 2 ^ 52) * 2 ^ Double.exponent x).
    + apply round_le. rewrite inject_Z_opp, <- two_inject by lia.
      setoid_replace (- 2 ^ 52 * 2 ^ Double.exponent x)
        with (- (2 ^ (Double.exponent x + 52))) by (rewrite two_plus; ring).
      lra.
    + apply Qle_trans with (inject_Z (- 2 ^ 53) * 2 ^ Double.exponent y).
      * rewrite !inject_Z_opp, <- !two_inject by lia.
        setoid_replace (- 2 ^ 52 * 2 ^ Double.exponent x)
          with (- (2 ^ (Double.exponent x + 52))) by (rewrite two_plus; ring).
        setoid_replace (- 2 ^ 53 * 2 ^ Double.exponent y)
          with (- (2 ^ (Double.exponent y + 53))) by (rewrite two_plus; ring).
        apply Qopp_le_compat. apply two_le. lia.
      * apply round_ge. rewrite inject_Z_opp, <- two_inject by lia.
        setoid_replace (- 2 ^ 53 * 2 ^ Double.exponent y)
          with (- (2 ^ (Double.exponent y + 53))) by (rewrite two_plus; ring).
        lra.
Qed.

Lemma round_comp (x y : Q) : x == y -> Double.round x == Double.round y.
Proof. intros H. apply Qle_antisym; apply round_mono; lra. Qed.

(** The double nearest to [x] is within half a unit in the last place. *)
Lemma round_error (x : Q) :
  x - 2 ^ (Double.exponent x - 1) <= Double.round x /\
  Double.round x <= x + 2 ^ (Double.exponent x - 1).
Proof.
  rewrite round_eq.
  destruct (nearestEven_spec (x / 2 ^ Double.exponent x)) as (L & U & _).
  pose proof (two_pos (Double.exponent x)) as P.
  assert (Ex : x / 2 ^ Double.exponent x * 2 ^ Double.exponent x == x)
    by (field; lra).
  assert (Eh : 2 ^ (Double.exponent x - 1) == (1 # 2) * 2 ^ Double.exponent x).
  { replace (Double.exponent x - 1)%Z with (Double.exponent x + -1)%Z by lia.
    rewrite two_plus. change (2 ^ (-1)) with (1 # 2). ring. }
  rewrite Eh.
  set (q := x / 2 ^ Double.exponent x) in *.
  set (n := inject_Z (Double.nearestEven q)) in *.
  set (u := 2 ^ Double.exponent x) in *.
  assert (A : (q - (1 # 2)) * u <= n * u)
    by (apply Qmult_le_compat_r; [exact L|lra]).
  assert (B : n * u <= (q + (1 # 2)) * u)
    by (apply Qmult_le_compat_r; [exact U|lra]).
  assert (A' : (q - (1 # 2)) * u == x - (1 # 2) * u) by (rewrite <- Ex; ring).
  assert (B' : (q + (1 # 2)) * u == x + (1 # 2) * u) by (rewrite <- Ex; ring).
  rewrite A' in A. rewrite B' in B. split; assumption.
Qed.

Lemma exponent_le (x : Q) (k : Z) :
  ~ x == 0 -> Qabs x < 2 ^ (k + 1) -> (-1022 <= k)%Z -> (Double.exponent x <= k - 52)%Z.
Proof.
  intros N H K. unfold Double.exponent.
  pose proof (ilog2_le (Qabs x) k (Qabs_nonzero x N) H). lia.
Qed.

(** For [|x| < 2 ^ (k + 1)] the error is at most [2 ^ (k - 53)]. *)
Lemma round_error_bound (x : Q) (k : Z) :
  - 2 ^ (k + 1) < x -> x < 2 ^ (k + 1) -> (-1022 <= k)%Z ->
  x - 2 ^ (k - 53) <= Double.round x /\ Double.round x <= x + 2 ^ (k - 53).
Proof.
  intros L U K. pose proof (two_pos (k - 53)) as P.
  destruct (Qeq_dec x 0) as [Z|N].
  - rewrite (round_zero x Z). lra.
  - assert (H : Qabs x < 2 ^ (k + 1)) by (apply Qabs_Qlt_condition; split; assumption).
    pose proof (exponent_le x k N H K) as E.
    pose proof (two_le (Double.exponent x - 1) (k - 53) ltac:(lia)) as T.
    destruct (round_error x) as [A B]. lra.
Qed.

(** A number with a significand of at most 53 bits is its own double. *)
Lemma round_representable (m e : Z) :
  (Double.exponent (inject_Z m * 2 ^ e) <= e)%Z ->
  Double.round (inject_Z m * 2 ^ e) == inject_Z m * 2 ^ e.
Proof.
  intros H. rewrite round_eq.
  set (ex := Double.exponent (inject_Z m * 2 ^ e)) in *.
  assert (E : inject_Z m * 2 ^ e / 2 ^ ex == inject_Z (m * 2 ^ (e - ex))).
  { rewrite inject_Z_mult, <- two_inject by lia.
    rewrite Qpower_minus by discriminate. unfold Qdiv. ring. }
  assert (N : Double.nearestEven (inject_Z m * 2 ^ e / 2 ^ ex) = (m * 2 ^ (e - ex))%Z).
  { apply Z.le_antisymm; [apply nearestEven_le|apply nearestEven_ge]; rewrite E; lra. }
  rewrite N, inject_Z_mult, <- two_inject by lia.
  rewrite Qpower_minus by discriminate. pose proof (two_pos ex). field. lra.
Qed.

Lemma round_integer (z : Z) :
  (Z.abs z <= 2 ^ 53)%Z -> Double.round (inject_Z z) == inject_Z z.
Proof.
  intros H.
  destruct (Z.eq_dec z 0) as [->|Nz]; [reflexivity|].
  destruct (Z.eq_dec (Z.abs z) (2 ^ 53)) as [E|NE].
  - destruct (Z.abs_eq_or_opp z) as [A|A]; rewrite A in E.
    + rewrite E. reflexivity.
    + assert (z = (- 2 ^ 53)%Z) by lia. subst z. reflexivity.
  - assert (Hx : inject_Z z == inject_Z z * 2 ^ 0) by (change (2 ^ 0) with 1; ring).
    apply Qeq_trans with (Double.round (inject_Z z * 2 ^ 0)); [apply round_comp, Hx|].
    rewrite round_representable; [symmetry; exact Hx|].
    assert (Nx : ~ inject_Z z * 2 ^ 0 == 0).
    { rewrite <- Hx. change 0 with (inject_Z 0). rewrite inject_Z_injective. exact Nz. }
    apply (exponent_le _ 52); [exact Nx| |lia].
    rewrite <- Hx. apply Qabs_Qlt_condition.
    rewrite two_inject by lia. rewrite <- inject_Z_opp, <- !Zlt_Qlt.
    change (52 + 1)%Z with 53%Z. lia.
Qed.

(** *** The scorer *)

(** C4 (amended). [calculateSimilarityPercentage] is
    [Math.round((((score + 1) / 2) * 100) * 10) / 10] on doubles. For a
    score from -1.0009 to 1.0009 the result is a whole number of tenths
    from 0 to 100 (as a double), within 0.05 and a rounding error below
    10^-12 of the percentage [((score + 1) / 2) * 100]: so a score
    slightly outside [-1, 1] from floating-point error still gives a value
    in [0, 100], by the rounding to one decimal, not by a clamp. -1 gives
    0, 0 gives 50 and 1 gives 100. *)
Theorem calculateSimilarityPercentage_rounds :
  (forall score : Q,
     - (10009 # 10000) <= score -> score <= 10009 # 10000 ->
     let percentage := ((score + 1) / 2) * 100 in
     let r := VectorService.calculateSimilarityPercentage score in
     (exists tenths : Z,
        (0 <= tenths <= 1000)%Z /\ r = Double.round (inject_Z tenths / 10)) /\
     percentage - (1 # 20) - (1 # 1000000000000) <= r /\
     r <= percentage + (1 # 20) + (1 # 1000000000000) /\
     0 <= r /\ r <= 100) /\
  VectorService.calculateSimilarityPercentage (-1) == 0 /\
  VectorService.calculateSimilarityPercentage 0 == 50 /\
  VectorService.calculateSimilarityPercentage 1 == 100.
Proof.
  split; [|split; [|split]; vm_compute; reflexivity].
  intros score Hlo Hhi percentage r.
  unfold r, VectorService.calculateSimilarityPercentage, percentage. clear r percentage.
  set (a := Double.round (score + 1)).
  set (b := Double.round (a / 2)).
  set (c := Double.round (b * 100)).
  set (d := Double.round (c * 10)).
  set (m := JS.Math_round d).
  assert (Ea : score + 1 - (1 # 4503599627370496) <= a /\
               a <= score + 1 + (1 # 4503599627370496)).
  { destruct (round_error_bound (score + 1) 1) as [L U];
      [change (2 ^ (1 + 1)) with 4; lra|change (2 ^ (1 + 1)) with 4; lra|lia|].
    change (2 ^ (1 - 53)) with (1 # 4503599627370496) in L, U. split; assumption. }
  clearbody a.
  assert (Eb : a / 2 - (1 # 9007199254740992) <= b /\
               b <= a / 2 + (1 # 9007199254740992)).
  { unfold b. by_constants.
    destruct (round_error_bound (a * (1 # 2)) 0) as [L U];
      [change (2 ^ (0 + 1)) with 2; lra|change (2 ^ (0 + 1)) with 2; lra|lia|].
    change (2 ^ (0 - 53)) with (1 # 9007199254740992) in L, U. split; assumption. }
  clearbody b.
  assert (Ec : b * 100 - (1 # 140737488355328) <= c /\
               c <= b * 100 + (1 # 140737488355328)).
  { unfold c. by_constants.
    destruct (round_error_bound (b * 100) 6) as [L U];
      [change (2 ^ (6 + 1)) with 128; lra|change (2 ^ (6 + 1)) with 128; lra|lia|].
    change (2 ^ (6 - 53)) with (1 # 140737488355328) in L, U. split; assumption. }
  clearbody c.
  assert (Ed : c * 10 - (1 # 17592186044416) <= d /\
               d <= c * 10 + (1 # 17592186044416)).
  { unfold d. by_constants.
    destruct (round_error_bound (c * 10) 9) as [L U];
      [change (2 ^ (9 + 1)) with 1024; lra|change (2 ^ (9 + 1)) with 1024; lra|lia|].
    change (2 ^ (9 - 53)) with (1 # 17592186044416) in L, U. split; assumption. }
  clearbody d.
  destruct (Math_round_bounds d) as [Lm Um]. fold m in Lm, Um.
  by_constants.
  assert (Hm : (0 <= m <= 1000)%Z).
  { assert (A : inject_Z (-1) < inject_Z m) by (change (inject_Z (-1)) with (-1); lra).
    assert (B : inject_Z m < inject_Z 1001) by (change (inject_Z 1001) with 1001; lra).
    rewrite <- Zlt_Qlt in A, B. lia. }
  assert (Hm' : 0 <= inject_Z m /\ inject_Z m <= 1000).
  { change 0 with (inject_Z 0). change 1000 with (inject_Z 1000).
    rewrite <- !Zle_Qle. lia. }
  clearbody m.
  split; [exists m; split; [exact Hm|reflexivity]|].
  destruct (round_error_bound (inject_Z m * (1 # 10)) 6) as [L U];
    [change (2 ^ (6 + 1)) with 128; lra|change (2 ^ (6 + 1)) with 128; lra|lia|].
  change (2 ^ (6 - 53)) with (1 # 140737488355328) in L, U.
  pose proof (round_mono 0 (inject_Z m * (1 # 10)) ltac:(lra)) as R0.
  pose proof (round_mono (inject_Z m * (1 # 10)) 100 ltac:(lra)) as R1.
  change (Double.round 0) with 0 in R0.
  change (Double.round 100) with 100 in R1.
  revert L U R0 R1. generalize (Double.round (inject_Z m * (1 # 10))). intros r L U R0 R1.
  repeat split; lra.
Qed.

(** C4, as stated, fails. The value is not always the percentage rounded
    to one decimal: at the double nearest to 0.005 the percentage is above
    50.25, whose nearest tenth is 50.3, and the scorer returns 50.2. And
    nothing is clamped: 1.002 gives 100.1, 1.5 gives 125 and -1.5 gives
    -25. *)
Lemma calculateSimilarityPercentage_not_clamped :
  (let score := Double.round (1 # 200) in
   50 + (1 # 4) < ((score + 1) / 2) * 100 /\
   VectorService.calculateSimilarityPercentage score == Double.round (502 # 10) /\
   VectorService.calculateSimilarityPercentage score < 50 + (1 # 4)) /\
  VectorService.calculateSimilarityPercentage (Double.round (1002 # 1000))
  == Double.round (1001 # 10) /\
  100 < VectorService.calculateSimilarityPercentage (Double.round (1002 # 1000)) /\
  VectorService.calculateSimilarityPercentage (3 # 2) == 125 /\
  VectorService.calculateSimilarityPercentage (-(3 # 2)) == -25.
Proof.
  repeat split; vm_compute; reflexivity.
Qed.

(** The kernel's doubles give the same values: the scorer on [Q] with
    [Double.round] and the scorer on [float] agree at these scores, among
    them ties of the exact percentage. *)
Example calculateSimilarityPercentage_binary64 :
  map Binary64.calculateSimilarityPercentage
    [(-1)%float; 0%float; 1%float; 1.5%float; (-1.5)%float]
  = [0%float; 50%float; 100%float; 125%float; (-25)%float] /\
  forallb
    (fun score =>
       Qeq_bool (VectorService.calculateSimilarityPercentage (Binary64.toQ score))
         (Binary64.toQ (Binary64.calculateSimilarityPercentage score)))
    [0.005%float; (-0.005)%float; 0.015%float; 0.025%float; 0.8%float; 0.5%float;
     0.9%float; 0.123456789%float; (-0.999)%float; 1.0009%float; (-1.0009)%float;
     1.002%float; 0.3333333333333333%float; 1e-300%float; (-1)%float; 1%float]
  = true.
Proof. split; vm_compute; reflexivity. Qed.

Local Close Scope Q_scope.

(** ** C8: what the normalizer leaves absent *)

Lemma strings_JStr (xs : list json) (ss : list string) :
  Zod.strings xs = Zod.ParseOk ss -> xs = map JStr ss.
Proof.
  revert ss; induction xs as [|x xs IH]; intros ss H; simpl in H.
  - now inversion H.
  - destruct x; try discriminate. simpl in H.
    destruct (Zod.strings xs) as [ss'|] eqn:E; try discriminate.
    simpl in H. inversion H. simpl. now rewrite (IH ss' eq_refl).
Qed.

Lemma default_array_string (v : option json) (ss : list string) :
  Zod.default Zod.array_string [] v = Zod.ParseOk ss ->
  match v with
  | None => ss = []
  | Some j => j = JArr (map JStr ss)
  end.
Proof.
  destruct v as [j|]; simpl.
  - destruct j; try discriminate. intros H. now rewrite (strings_JStr _ _ H).
  - intros H. now inversion H.
Qed.

Lemma optional_array_string (v : option json) (o : option (list string)) :
  Zod.optional Zod.array_string v = Zod.ParseOk o ->
  match v with
  | None => o = None
  | Some j => exists ss, o = Some ss /\ j = JArr (map JStr ss)
  end.
Proof.
  destruct v as [j|]; simpl.
  - destruct j; try discriminate. simpl.
    destruct (Zod.strings xs) as [ss|] eqn:E; try discriminate. simpl.
    intros H. inversion H. exists ss. now rewrite (strings_JStr _ _ E).
  - intros H. now inversion H.
Qed.

Lemma optional_absent {A} (schema : option json -> Zod.SafeParse A) (o : option A) :
  Zod.optional schema None = Zod.ParseOk o -> o = None.
Proof. simpl. intros H. now inversion H. Qed.

(** The nine fields of an accepted input, one schema each. *)
Lemma ExtractedSkillsSchema_fields (raw : json) (v : ExtractedSkills) :
  ExtractedSkillsSchema raw = Zod.ParseOk v ->
  Zod.default Zod.array_string [] (prop "technicalSkills" raw) = Zod.ParseOk (technicalSkills v) /\
  Zod.default Zod.array_string [] (prop "frameworks" raw) = Zod.ParseOk (frameworks v) /\
  Zod.default Zod.array_string [] (prop "languages" raw) = Zod.ParseOk (languages v) /\
  Zod.default Zod.array_string [] (prop "tools" raw) = Zod.ParseOk (tools v) /\
  Zod.default Zod.array_string [] (prop "softSkills" raw) = Zod.ParseOk (softSkills v) /\
  Zod.optional Zod.number (prop "yearsOfExperience" raw) = Zod.ParseOk (yearsOfExperience v) /\
  Zod.optional Zod.string_ (prop "currentRole" raw) = Zod.ParseOk (currentRole v) /\
  Zod.optional Zod.array_string (prop "education" raw) = Zod.ParseOk (education v) /\
  Zod.optional Zod.array_string (prop "certifications" raw) = Zod.ParseOk (certifications v).
Proof.
  unfold ExtractedSkillsSchema, Zod.object.
  destruct raw; try discriminate.
  repeat match goal with
         | |- Zod.andThen ?r _ = _ -> _ =>
             destruct r eqn:?; cbn [Zod.andThen]; [|discriminate]
         end.
  intros H. inversion H. simpl. repeat split; reflexivity.
Qed.

(** C8 (amended). For every raw output accepted by [ExtractedSkillsSchema],
    the five list fields technicalSkills, frameworks, languages, tools and
    softSkills are lists: the empty list when the field is missing, the
    array of the input otherwise. The lists education and certifications
    are optional like the scalar fields yearsOfExperience and currentRole:
    when missing from the input they stay absent. *)
Theorem ExtractedSkillsSchema_defaults (raw : json) (v : ExtractedSkills) :
  ExtractedSkillsSchema raw = Zod.ParseOk v ->
  (forall (key : string) (field : ExtractedSkills -> list string),
     In (key, field)
        [("technicalSkills", technicalSkills); ("frameworks", frameworks);
         ("languages", languages); ("tools", tools); ("softSkills", softSkills)] ->
     match prop key raw with
     | None => field v = []
     | Some j => j = JArr (map JStr (field v))
     end) /\
  (forall (key : string) (field : ExtractedSkills -> option (list string)),
     In (key, field) [("education", education); ("certifications", certifications)] ->
     match prop key raw with
     | None => field v = None
     | Some j => exists ss, field v = Some ss /\ j = JArr (map JStr ss)
     end) /\
  (prop "yearsOfExperience" raw = None -> yearsOfExperience v = None) /\
  (prop "currentRole" raw = None -> currentRole v = None).
Proof.
  intros H. apply ExtractedSkillsSchema_fields in H.
  destruct H as (H1 & H2 & H3 & H4 & H5 & H6 & H7 & H8 & H9).
  split; [|split; [|split]].
  - intros key field Hin. simpl in Hin.
    repeat (destruct Hin as [Hin|Hin]; [inversion Hin; subst; now apply default_array_string|]).
    contradiction.
  - intros key field Hin. simpl in Hin.
    repeat (destruct Hin as [Hin|Hin]; [inversion Hin; subst; now apply optional_array_string|]).
    contradiction.
  - intros E. rewrite E in H6. now apply optional_absent in H6.
  - intros E. rewrite E in H7. now apply optional_absent in H7.
Qed.

(** The theorem at an output that has one list of each kind. *)
Lemma ExtractedSkillsSchema_defaults_witness :
  let raw := JObj [("tools", JArr [JStr "Git"]); ("education", JArr [JStr "BSc"])] in
  let v := mkExtractedSkills [] [] [] ["Git"] [] None None (Some ["BSc"]) None in
  ExtractedSkillsSchema raw = Zod.ParseOk v /\
  (prop "yearsOfExperience" raw = None -> yearsOfExperience v = None).
Proof.
  split; [reflexivity|].
  apply (ExtractedSkillsSchema_defaults
           (JObj [("tools", JArr [JStr "Git"]); ("education", JArr [JStr "BSc"])])
           (mkExtractedSkills [] [] [] ["Git"] [] None None (Some ["BSc"]) None)
           eq_refl).
Defined.

(** C8, as stated, fails: the empty object is accepted and its education
    and certifications are absent, not empty lists. *)
Lemma ExtractedSkillsSchema_education_absent :
  exists v, ExtractedSkillsSchema (JObj []) = Zod.ParseOk v /\
            education v = None /\ certifications v = None /\
            education v <> Some [] /\ certifications v <> Some [].
Proof.
  exists (mkExtractedSkills [] [] [] [] [] None None None None).
  repeat split; try reflexivity; discriminate.
Qed.

(** ** C5: validation comes first *)

Lemma string_min_short (n : nat) (msg : string) (s : string) :
  (String.length s < n)%nat ->
  Zod.string_min n msg (Some (JStr s)) = Zod.ParseError msg.
Proof.
  intros H. unfold Zod.string_min. simpl.
  apply Nat.ltb_lt in H. now rewrite H.
Qed.

(** A request that is too short in one of its three fields is refused. *)
Lemma JobMatchRequestSchema_rejects (body : json) :
  (exists d, prop "jobDescription" body = Some (JStr d) /\ (String.length d < 50)%nat) \/
  prop "resumeId" body = Some (JStr "") \/
  prop "jobTitle" body = Some (JStr "") ->
  exists m, JobMatchRequestSchema body = Zod.ParseError m.
Proof.
  intros H. unfold JobMatchRequestSchema, Zod.object.
  destruct body;
    try (destruct H as [[d [H _]]|[H|H]]; simpl in H; discriminate).
  destruct (Zod.string_min 1 "Resume ID is required" (prop "resumeId" (JObj fields)))
    as [resumeId|m] eqn:E1; cbn [Zod.andThen]; [|now exists m].
  destruct (Zod.string_min 1 "Job title is required" (prop "jobTitle" (JObj fields)))
    as [jobTitle|m] eqn:E2; cbn [Zod.andThen]; [|now exists m].
  destruct H as [[d [H Hlen]]|[H|H]].
  - rewrite H, (string_min_short 50 _ d Hlen). cbn [Zod.andThen]. eauto.
  - rewrite H in E1. discriminate.
  - rewrite H in E2. discriminate.
Qed.

(** C5. For every match request whose jobDescription is shorter than 50
    characters, or whose resumeId or jobTitle is empty, [matchJob] answers
    400 with the validation message and leaves the world as it found it:
    nothing is added to the log of calls (no extraction, embedding,
    vector-index or record-store operation), and no job, match or vector
    record is created. *)
Theorem matchJob_validates_first (svc : Services) (body : json) (w : World) :
  (exists d, prop "jobDescription" body = Some (JStr d) /\ (String.length d < 50)%nat) \/
  prop "resumeId" body = Some (JStr "") \/
  prop "jobTitle" body = Some (JStr "") ->
  exists m, JobController.matchJob svc body w = (Responded 400 (Failure m), w).
Proof.
  intros H. destruct (JobMatchRequestSchema_rejects body H) as [m E].
  exists m. unfold JobController.matchJob, handler, JobController.matchJob_body.
  now rewrite E.
Qed.

(** The scenario of the specification: a description of 49 characters. *)
Lemma matchJob_validates_first_witness :
  String.length Demo.description49 = 49%nat /\
  exists m,
    JobController.matchJob Demo.svc (Demo.matchRequest Demo.description49) Demo.world
    = (Responded 400 (Failure m), Demo.world).
Proof.
  split; [reflexivity|].
  apply (matchJob_validates_first Demo.svc (Demo.matchRequest Demo.description49) Demo.world).
  left. exists Demo.description49. split; [reflexivity | vm_compute; lia].
Defined.

(** ** Running a handler *)

Lemma bind_Ok_inv {A B} (c : M A) (k : A -> M B) (w : World) (b : B) (w' : World) :
  bind c k w = (Ok b, w') ->
  exists a w1, c w = (Ok a, w1) /\ k a w1 = (Ok b, w').
Proof.
  unfold bind. destruct (c w) as [[a|e] w1]; intros H.
  - now exists a, w1.
  - discriminate.
Qed.

Lemma bind_Ok {A B} (c : M A) (k : A -> M B) (w : World) (a : A) (w1 : World) :
  c w = (Ok a, w1) -> bind c k w = k a w1.
Proof. intros H. unfold bind. now rewrite H. Qed.

Lemma handler_Responded (c : M Outcome) (w : World) (status : nat) (body : ResponseBody)
    (w' : World) :
  handler c w = (Responded status body, w') -> c w = (Ok (Responded status body), w').
Proof.
  unfold handler. destruct (c w) as [[o|e] w1]; intros H; inversion H; subst; reflexivity.
Qed.

(** ** Frames *)

Lemma frame_refl (w : World) : frame w w.
Proof. repeat split. exists []. now rewrite app_nil_r. Qed.

Lemma frame_trans (w1 w2 w3 : World) : frame w1 w2 -> frame w2 w3 -> frame w1 w3.
Proof.
  intros (R1 & M1 & N1 & [l1 L1]) (R2 & M2 & N2 & [l2 L2]).
  repeat split; try congruence.
  exists (l1 ++ l2). now rewrite L2, L1, app_assoc.
Qed.

Lemma framed_ret {A} (a : A) : framed (ret a).
Proof. intros w r w' H. inversion H. apply frame_refl. Qed.

Lemma framed_throw {A} (e : JsError) : framed (@throw A e).
Proof. intros w r w' H. inversion H. apply frame_refl. Qed.

Lemma framed_lift {A} (x : Res A) : framed (lift x).
Proof. intros w r w' H. inversion H. apply frame_refl. Qed.

Lemma framed_get : framed get.
Proof. intros w r w' H. inversion H. apply frame_refl. Qed.

Lemma framed_call {A} (e : Event) (oracle : list Event -> Res A) : framed (call e oracle).
Proof. intros w r w' H. inversion H. repeat split. now exists [e]. Qed.

Lemma framed_op (o : DbOp) : framed (Prisma.op o).
Proof. intros w r w' H. inversion H. repeat split. now exists [Db o]. Qed.

Lemma framed_bind {A B} (c : M A) (k : A -> M B) :
  framed c -> (forall a, framed (k a)) -> framed (bind c k).
Proof.
  intros Hc Hk w r w' H. unfold bind in H.
  destruct (c w) as [[a|e] w1] eqn:E.
  - eapply frame_trans; [eapply Hc, E | eapply Hk, H].
  - inversion H; subst. eapply Hc, E.
Qed.

Lemma framed_try_catch {A} (c : M A) (h : JsError -> M A) :
  framed c -> (forall e, framed (h e)) -> framed (try_catch c h).
Proof.
  intros Hc Hh w r w' H. unfold try_catch in H.
  destruct (c w) as [[a|e] w1] eqn:E.
  - inversion H; subst. eapply Hc, E.
  - eapply frame_trans; [eapply Hc, E | eapply Hh, H].
Qed.

Lemma framed_setInitialized :
  framed (fun w' : World => (Ok tt, with_indexInitialized w' true)).
Proof. intros w r w' H. inversion H. repeat split. exists []. simpl. now rewrite app_nil_r. Qed.

(** Takes a computation apart along its binds, handlers and branches. *)
Ltac framing :=
  repeat first
    [ apply framed_ret | apply framed_throw | apply framed_lift | apply framed_get
    | apply framed_call | apply framed_op | apply framed_setInitialized
    | apply framed_bind; [|intros ?]
    | apply framed_try_catch; [|intros ?]
    | match goal with
      | |- framed (match ?x with _ => _ end) => destruct x
      end ].

Lemma framed_arrayOrProperty (key : string) (parsed : json) :
  framed (AIService.arrayOrProperty key parsed).
Proof. unfold AIService.arrayOrProperty. framing. Qed.

Lemma framed_extractSkills (svc : Services) (text : string) :
  framed (AIService.extractSkills svc text).
Proof. unfold AIService.extractSkills. framing. Qed.

Lemma framed_generateEmbedding (svc : Services) (text : string) :
  framed (AIService.generateEmbedding svc text).
Proof. unfold AIService.generateEmbedding. framing. Qed.

Lemma framed_generateInterviewQuestions (svc : Services) (g : SkillGap) (t : string)
    (ms : list string) :
  framed (AIService.generateInterviewQuestions svc g t ms).
Proof.
  unfold AIService.generateInterviewQuestions. framing; apply framed_arrayOrProperty.
Qed.

Lemma framed_generateRecommendations (svc : Services) (g : SkillGap) (t : string) :
  framed (AIService.generateRecommendations svc g t).
Proof.
  unfold AIService.generateRecommendations. framing; apply framed_arrayOrProperty.
Qed.

Lemma framed_initializeIndex (svc : Services) : framed (VectorService.initializeIndex svc).
Proof.
  intros w r w'. unfold VectorService.initializeIndex.
  destruct (indexInitialized w).
  - intros H. inversion H. apply frame_refl.
  - revert w r w'.
    change (framed
      (indexes <- call ListIndexes (listIndexes svc) ;;
       let indexExists :=
         match indexes with
         | Some names => existsb (fun name => String.eqb name (INDEX_NAME svc)) names
         | None => false
         end in
       (if indexExists then ret tt
        else call CreateIndex (createIndex svc) ;;;
             call AwaitIndexReady (awaitIndexReady svc)) ;;;
       (fun w' => (Ok tt, with_indexInitialized w' true)))).
    framing.
Qed.

Lemma framed_upsertJob (svc : Services) (id : string) (e : list Q) (ss : list string)
    (t : string) :
  framed (VectorService.upsertJob svc id e ss t).
Proof. unfold VectorService.upsertJob. framing. apply framed_initializeIndex. Qed.

Lemma framed_findSimilar (svc : Services) (e : list Q) (k : Q) (f : option string) :
  framed (VectorService.findSimilar svc e k f).
Proof. unfold VectorService.findSimilar. framing. apply framed_initializeIndex. Qed.

Lemma framed_deleteVector (svc : Services) (v : string) :
  framed (VectorService.deleteVector svc v).
Proof. unfold VectorService.deleteVector. framing. apply framed_initializeIndex. Qed.

Lemma framed_resume_findUnique (id : string) : framed (Prisma.resume_findUnique id).
Proof. unfold Prisma.resume_findUnique. framing. Qed.

Lemma framed_jobDescription_findUnique (id : string) :
  framed (Prisma.jobDescription_findUnique id).
Proof. unfold Prisma.jobDescription_findUnique. framing. Qed.

Lemma framed_resume_findMany (ids : list string) : framed (Prisma.resume_findMany ids).
Proof. unfold Prisma.resume_findMany. framing. Qed.

Lemma framed_jobDescription_update (id v : string) :
  framed (Prisma.jobDescription_update id v).
Proof.
  unfold Prisma.jobDescription_update. framing.
  intros w r w' H. inversion H. repeat split. exists []. simpl. now rewrite app_nil_r.
Qed.

(** ** The record store *)

Lemma genId_inj (n k : nat) : genId n = genId k -> n = k.
Proof.
  unfold genId. intros H.
  apply DecimalNat.Unsigned.to_uint_inj.
  assert (E : Some (Nat.to_uint n) = Some (Nat.to_uint k))
    by (rewrite <- !NilEmpty.usu; now rewrite H).
  now inversion E.
Qed.

Lemma samePair_iff (r j : string) (m : JobMatch) :
  Prisma.samePair r j m = true <-> pairOf m = (r, j).
Proof.
  unfold Prisma.samePair, pairOf. rewrite andb_true_iff, !String.eqb_eq.
  split; [intros [-> ->]; reflexivity | intros H; inversion H; auto].
Qed.

Lemma pairOf_updateMatch (r j : string) (sc : Q) (g : SkillGap) (ms : list string)
    (iq rc : list json) (m : JobMatch) :
  pairOf (Prisma.updateMatch r j sc g ms iq rc m) = pairOf m.
Proof. unfold Prisma.updateMatch. now destruct (Prisma.samePair r j m). Qed.

Lemma pairs_updateMatch (r j : string) (sc : Q) (g : SkillGap) (ms : list string)
    (iq rc : list json) (l : list JobMatch) :
  map pairOf (map (Prisma.updateMatch r j sc g ms iq rc) l) = map pairOf l.
Proof.
  rewrite map_map. apply map_ext. intros m. apply pairOf_updateMatch.
Qed.

(** What [upsert] does: a record of the pair exists afterwards and carries
    the new fields; it was appended when the pair was new, and replaced
    the old one in place otherwise. *)
Lemma jobMatch_upsert_spec (r j : string) (sc : Q) (g : SkillGap) (ms : list string)
    (iq rc : list json) (w : World) (res : Res JobMatch) (w' : World) :
  Prisma.jobMatch_upsert r j sc g ms iq rc w = (res, w') ->
  exists m,
    res = Ok m /\ pairOf m = (r, j) /\ In m (matches w') /\
    match_similarityScore m = sc /\ match_skillGaps m = g /\
    match_matchedSkills m = ms /\ match_interviewQuestions m = iq /\
    match_recommendations m = rc /\
    resumes w' = resumes w /\
    (((forall x, In x (matches w) -> pairOf x <> (r, j)) /\
      matches w' = matches w ++ [m] /\
      match_id m = genId (nextId w) /\ nextId w' = S (nextId w))
     \/
     ((exists old, In old (matches w) /\ pairOf old = (r, j) /\ match_id m = match_id old) /\
      matches w' = map (Prisma.updateMatch r j sc g ms iq rc) (matches w) /\
      nextId w' = nextId w)).
Proof.
  unfold Prisma.jobMatch_upsert, bind, Prisma.op, get, Prisma.freshId. simpl.
  destruct (List.find (Prisma.samePair r j) (matches w)) as [old|] eqn:E; intros H;
    inversion H; subst; clear H.
  - apply find_some in E as [Hin Hp].
    assert (Hu : Prisma.updateMatch r j sc g ms iq rc old
                 = mkJobMatch (match_id old) (match_resumeId old) (match_jobId old)
                     sc g ms iq rc)
      by (unfold Prisma.updateMatch; now rewrite Hp).
    apply samePair_iff in Hp.
    eexists. split; [reflexivity|]. rewrite Hu. simpl.
    repeat split; auto.
    + rewrite <- Hu. now apply in_map.
    + right. repeat split; auto. now exists old.
  - eexists. split; [reflexivity|]. simpl. repeat split; auto.
    + apply in_or_app. right. now left.
    + left. repeat split; auto.
      intros x Hx Hp. apply samePair_iff in Hp.
      pose proof (find_none _ _ E x Hx). congruence.
Qed.

(** Deleting match records cannot make two pairs collide. *)
Lemma uniquePairs_filter (keep : JobMatch -> bool) (ms : list JobMatch) :
  NoDup (map pairOf ms) -> NoDup (map pairOf (filter keep ms)).
Proof.
  intros U. induction ms as [|m ms IH]; simpl in *; [exact U|].
  apply NoDup_cons_iff in U as [Hfresh U].
  destruct (keep m); [|now apply IH].
  simpl. apply NoDup_cons; [|now apply IH].
  rewrite in_map_iff. intros (x & Ex & Hx).
  apply Hfresh. rewrite <- Ex. apply in_map.
  rewrite filter_In in Hx. tauto.
Qed.

(** ** The invariant of the store *)

Lemma storeInv_frame (w w' : World) : frame w w' -> storeInv w -> storeInv w'.
Proof.
  intros (_ & Hm & Hn & _) [U B]. unfold storeInv, uniquePairs, idsBelow.
  rewrite Hm, Hn. now split.
Qed.

Lemma triple_bind {A B} (P : World -> Prop) (c : M A) (Q : A -> World -> Prop)
    (k : A -> M B) (Q' : B -> World -> Prop) (E : World -> Prop) :
  triple P c Q E -> (forall a, triple (Q a) (k a) Q' E) -> triple P (bind c k) Q' E.
Proof.
  intros Hc Hk w r w' H HP. unfold bind in H.
  destruct (c w) as [[a|e] w1] eqn:Ec.
  - exact (Hk a w1 r w' H (Hc w (Ok a) w1 Ec HP)).
  - inversion H; subst. exact (Hc w (Throw e) w' Ec HP).
Qed.

Lemma triple_ret {A} (P : World -> Prop) (a : A) (Q : A -> World -> Prop)
    (E : World -> Prop) :
  (forall w, P w -> Q a w) -> triple P (ret a) Q E.
Proof. intros HQ w r w' H HP. inversion H; subst. now apply HQ. Qed.

Lemma triple_framed {A} (P E : World -> Prop) (c : M A) :
  framed c ->
  (forall w w', frame w w' -> P w -> P w') ->
  (forall w, P w -> E w) ->
  triple P c (fun _ => P) E.
Proof.
  intros Hc HP HE w r w' H Hw. specialize (HP w w' (Hc w r w' H) Hw).
  destruct r; auto.
Qed.

Lemma handler_keeps (P I : World -> Prop) (c : M Outcome) (w : World) :
  triple P c (fun _ => I) I -> P w -> I (snd (handler c w)).
Proof.
  intros Hc HP. unfold handler.
  destruct (c w) as [[o|e] w1] eqn:E; simpl.
  - exact (Hc w (Ok o) w1 E HP).
  - exact (Hc w (Throw e) w1 E HP).
Qed.

Lemma jobKnown_frame (job : JobDescription) (w w' : World) :
  frame w w' -> jobKnown job w -> jobKnown job w'.
Proof.
  intros F [I [k [Hk E]]]. split; [eapply storeInv_frame; eauto|].
  destruct F as (_ & _ & Hn & _). exists k. rewrite Hn. auto.
Qed.

Lemma triple_create (title : string) (company : option string) (description : string)
    (skills : ExtractedSkills) :
  triple storeInv (Prisma.jobDescription_create title company description skills)
    jobKnown storeInv.
Proof.
  intros w r w' H [U B].
  unfold Prisma.jobDescription_create, bind, Prisma.op, Prisma.freshId in H.
  simpl in H. inversion H; subst; clear H.
  split; [split|].
  - exact U.
  - intros m Hm. destruct (B m Hm) as [k [Hk E]]. exists k. simpl. split; [lia|auto].
  - exists (nextId w). simpl. split; [lia|reflexivity].
Qed.

Lemma triple_upsert (job : JobDescription) (r : string) (sc : Q) (g : SkillGap)
    (ms : list string) (iq rc : list json) :
  triple (jobKnown job) (Prisma.jobMatch_upsert r (job_id job) sc g ms iq rc)
    (fun _ => storeInv) storeInv.
Proof.
  intros w res w' H [[U B] [k [Hk Ek]]].
  apply jobMatch_upsert_spec in H.
  destruct H as (m & -> & Hp & _ & _ & _ & _ & _ & _ & _ & Hcase).
  destruct Hcase as [(Hnew & Hm & _ & Hn) | (_ & Hm & Hn)].
  - split.
    + unfold uniquePairs. rewrite Hm, map_app. apply NoDup_app; auto.
      * simpl. constructor; [intros []|constructor].
      * intros a Ha [<-|[]]. apply in_map_iff in Ha as [x [Ex Hx]].
        apply (Hnew x Hx). congruence.
    + intros x Hx. rewrite Hm in Hx. apply in_app_or in Hx as [Hx|[<-|[]]].
      * destruct (B x Hx) as [k' [Hk' E]]. exists k'. split; [lia|auto].
      * exists k. split; [lia|]. inversion Hp. congruence.
  - split.
    + unfold uniquePairs. now rewrite Hm, pairs_updateMatch.
    + intros x Hx. rewrite Hm in Hx. apply in_map_iff in Hx as [y [Ey Hy]].
      destruct (B y Hy) as [k' [Hk' E]]. exists k'. rewrite Hn. split; auto.
      rewrite <- Ey. pose proof (pairOf_updateMatch r (job_id job) sc g ms iq rc y) as Hq.
      inversion Hq. congruence.
Qed.

Lemma triple_resume_delete (id : string) :
  triple storeInv (Prisma.resume_delete id) (fun _ => storeInv) storeInv.
Proof.
  intros w r w' H [U B].
  unfold Prisma.resume_delete, bind, Prisma.op, get, throw in H. simpl in H.
  destruct (existsb _ _); inversion H; subst; clear H; simpl.
  - split.
    + unfold uniquePairs. simpl. now apply uniquePairs_filter.
    + intros m Hm. simpl in Hm. apply filter_In in Hm as [Hm _]. apply (B m Hm).
  - now split.
Qed.

Lemma triple_job_delete (id : string) :
  triple storeInv (Prisma.jobDescription_delete id) (fun _ => storeInv) storeInv.
Proof.
  intros w r w' H [U B].
  unfold Prisma.jobDescription_delete, bind, Prisma.op, get, throw in H. simpl in H.
  destruct (existsb _ _); inversion H; subst; clear H; simpl.
  - split.
    + unfold uniquePairs. simpl. now apply uniquePairs_filter.
    + intros m Hm. simpl in Hm. apply filter_In in Hm as [Hm _]. apply (B m Hm).
  - now split.
Qed.

(** A step that leaves resumes, matches and the counter alone keeps
    whichever of the two invariants is current. *)
Ltac keeping :=
  first
    [ eapply triple_bind;
        [ apply triple_framed;
            [ | first [ apply storeInv_frame | apply jobKnown_frame ]
              | first [ tauto | intros ? H; exact (proj1 H) ] ]
        | intros ? ]
    | apply triple_ret; first [ tauto | intros ? H; exact (proj1 H) ] ].

Lemma matchJob_keeps (svc : Services) (body : json) (w : World) :
  storeInv w -> storeInv (snd (JobController.matchJob svc body w)).
Proof.
  apply handler_keeps. unfold JobController.matchJob_body.
  destruct (JobMatchRequestSchema body) as [data|m]; [|keeping].
  keeping; [apply framed_resume_findUnique|].
  destruct a as [resume|]; [|keeping].
  keeping; [apply framed_extractSkills|].
  keeping; [apply framed_generateEmbedding|].
  eapply triple_bind; [apply triple_create|]. intros job.
  keeping; [apply framed_upsertJob|].
  keeping; [apply framed_jobDescription_update|].
  keeping; [apply framed_generateEmbedding|].
  keeping; [apply framed_findSimilar|].
  cbv zeta.
  keeping; [apply framed_generateInterviewQuestions|].
  keeping; [apply framed_generateRecommendations|].
  eapply triple_bind; [apply triple_upsert|]. intros saved.
  keeping.
Qed.

Lemma findCandidates_keeps (svc : Services) (body : FindCandidatesBody) (w : World) :
  storeInv w -> storeInv (snd (JobController.findCandidates svc body w)).
Proof.
  apply handler_keeps. unfold JobController.findCandidates_body. cbv zeta.
  destruct (fc_jobDescription body) as [[| | |d| |]|]; try keeping.
  destruct (String.eqb d ""); [keeping|].
  keeping; [apply framed_generateEmbedding|].
  keeping; [apply framed_findSimilar|].
  keeping; [apply framed_resume_findMany|].
  keeping.
Qed.

Lemma triple_deleteVector_if (svc : Services) (v : option string) :
  triple storeInv
    (match v with
     | Some v => if String.eqb v "" then ret tt else VectorService.deleteVector svc v
     | None => ret tt
     end)
    (fun _ => storeInv) storeInv.
Proof.
  apply triple_framed; [|apply storeInv_frame|tauto].
  destruct v as [v|]; [destruct (String.eqb v "")|];
    first [apply framed_ret | apply framed_deleteVector].
Qed.

Lemma deleteJob_keeps (svc : Services) (id : string) (w : World) :
  storeInv w -> storeInv (snd (JobController.deleteJob svc id w)).
Proof.
  apply handler_keeps. unfold JobController.deleteJob_body.
  keeping; [apply framed_jobDescription_findUnique|].
  destruct a as [job|]; [|keeping].
  eapply triple_bind; [apply triple_deleteVector_if|]. intros ?.
  eapply triple_bind; [apply triple_job_delete|]. intros ?.
  keeping.
Qed.

Lemma deleteResume_keeps (svc : Services) (id : string) (w : World) :
  storeInv w -> storeInv (snd (ResumeController.deleteResume svc id w)).
Proof.
  apply handler_keeps. unfold ResumeController.deleteResume_body.
  keeping; [apply framed_resume_findUnique|].
  destruct a as [resume|]; [|keeping].
  eapply triple_bind; [apply triple_deleteVector_if|]. intros ?.
  eapply triple_bind; [apply triple_resume_delete|]. intros ?.
  keeping.
Qed.

Lemma handle_keeps (svc : Services) (r : Request) (w : World) :
  storeInv w -> storeInv (snd (handle svc r w)).
Proof.
  destruct r; simpl;
    auto using matchJob_keeps, findCandidates_keeps, deleteJob_keeps, deleteResume_keeps.
Qed.

Lemma run_keeps (svc : Services) (rs : list Request) (w : World) :
  storeInv w -> storeInv (run svc rs w).
Proof.
  revert w; induction rs as [|r rs IH]; intros w H; simpl; auto using handle_keeps.
Qed.

Lemma storeInv_no_matches (w : World) : matches w = [] -> storeInv w.
Proof.
  intros E. split.
  - unfold uniquePairs. rewrite E. constructor.
  - intros m Hm. rewrite E in Hm. destruct Hm.
Qed.

(** ** What a successful match did *)

Lemma upsertJob_Ok (svc : Services) (id : string) (e : list Q) (ss : list string)
    (t : string) (w : World) (v : string) (w' : World) :
  VectorService.upsertJob svc id e ss t w = (Ok v, w') -> v = ("job_" ++ id)%string.
Proof.
  unfold VectorService.upsertJob. intros H.
  apply bind_Ok_inv in H as (u & w1 & _ & H).
  unfold try_catch, bind, call, ret, throw in H.
  destruct (index_upsert svc _ _ _ _); inversion H; reflexivity.
Qed.

(** A successful [findSimilar] is the index's answer to one query, every
    match turned into a result. *)
Lemma findSimilar_Ok (svc : Services) (e : list Q) (k : Q) (f : string) (w : World)
    (rs : list VectorQueryResult) (w' : World) :
  f <> "" ->
  VectorService.findSimilar svc e k (Some f) w = (Ok rs, w') ->
  exists w1 answer,
    frame w w1 /\
    index_query svc (log w1) (mkQueryOptions e k true (Some f)) = Ok answer /\
    rs = map VectorService.toQueryResult (matchesOf answer) /\
    log w' = log w1 ++ [IndexQuery (mkQueryOptions e k true (Some f))] /\
    frame w w'.
Proof.
  intros Hf H. pose proof (framed_findSimilar svc e k (Some f) w _ _ H) as F.
  unfold VectorService.findSimilar in H.
  apply bind_Ok_inv in H as (u & w1 & Hi & H).
  apply framed_initializeIndex in Hi.
  apply String.eqb_neq in Hf. rewrite Hf in H.
  unfold try_catch, bind, call, ret, throw in H.
  destruct (index_query svc (log w1) (mkQueryOptions e k true (Some f))) as [answer|err] eqn:Eq;
    inversion H; subst; clear H.
  exists w1, answer. split; [exact Hi|]. split; [exact Eq|]. split; [reflexivity|].
  split; [reflexivity | exact F].
Qed.

Lemma matchJob_success (svc : Services) (body : json) (w : World) (d : JobMatchResponse)
    (w' : World) :
  JobController.matchJob svc body w = (Responded 201 (MatchData d), w') ->
  exists data resume embedding wq answer wu saved,
    JobMatchRequestSchema body = Zod.ParseOk data /\
    List.find (fun r => String.eqb (resume_id r) (req_resumeId data)) (resumes w)
      = Some resume /\
    resp_resumeId d = req_resumeId data /\
    resp_jobId d = genId (nextId w) /\
    index_query svc (log wq) (mkQueryOptions embedding 10 true (Some "job")) = Ok answer /\
    resp_similarityScore d
      = VectorService.calculateSimilarityPercentage
          (JobController.rawScoreOf
             (JS.find (fun r => String.eqb (vq_id r) ("job_" ++ resp_jobId d))
                (map VectorService.toQueryResult (matchesOf answer)))) /\
    resp_matchedSkills d = matched (resp_skillGaps d) /\
    matches wu = matches w /\ resumes wu = resumes w /\ nextId wu = S (nextId w) /\
    Prisma.jobMatch_upsert (resp_resumeId d) (resp_jobId d) (resp_similarityScore d)
      (resp_skillGaps d) (resp_matchedSkills d) (resp_interviewQuestions d)
      (resp_recommendations d) wu = (Ok saved, w') /\
    resp_id d = match_id saved.
Proof.
  intros H. apply handler_Responded in H. unfold JobController.matchJob_body in H.
  destruct (JobMatchRequestSchema body) as [data|m] eqn:Eschema; [|inversion H].
  cbv zeta in H.
  apply bind_Ok_inv in H as (found & w1 & H1 & H).
  assert (Efound : found = List.find (fun r => String.eqb (resume_id r) (req_resumeId data))
                             (resumes w)) by (inversion H1; reflexivity).
  apply framed_resume_findUnique in H1.
  destruct found as [resume|]; [|inversion H].
  apply bind_Ok_inv in H as (jobSkills & w2 & H2 & H). apply framed_extractSkills in H2.
  apply bind_Ok_inv in H as (jobEmbedding & w3 & H3 & H). apply framed_generateEmbedding in H3.
  apply bind_Ok_inv in H as (job & w4 & H4 & H).
  assert (Ejob : job_id job = genId (nextId w3) /\ matches w4 = matches w3 /\
                 resumes w4 = resumes w3 /\ nextId w4 = S (nextId w3)).
  { unfold Prisma.jobDescription_create, bind, Prisma.op, Prisma.freshId in H4.
    simpl in H4. inversion H4; subst. simpl. auto. }
  clear H4. destruct Ejob as (Ejob & Em4 & Er4 & En4).
  apply bind_Ok_inv in H as (jobVectorId & w5 & H5 & H).
  pose proof (upsertJob_Ok _ _ _ _ _ _ _ _ H5) as Ev. apply framed_upsertJob in H5.
  apply bind_Ok_inv in H as (u & w6 & H6 & H). apply framed_jobDescription_update in H6.
  apply bind_Ok_inv in H as (resumeEmbedding & w7 & H7 & H).
  apply framed_generateEmbedding in H7.
  apply bind_Ok_inv in H as (similarResults & w8 & H8 & H).
  apply findSimilar_Ok in H8 as (wq & answer & _ & Hq & Ers & _ & H8); [|discriminate].
  apply bind_Ok_inv in H as (interviewQuestions & w9 & H9 & H).
  apply framed_generateInterviewQuestions in H9.
  apply bind_Ok_inv in H as (recommendations & w10 & H10 & H).
  apply framed_generateRecommendations in H10.
  apply bind_Ok_inv in H as (saved & w11 & H11 & H).
  inversion H; subst; clear H. simpl.
  pose proof (frame_trans _ _ _ (frame_trans _ _ _ H1 H2) H3) as F3.
  pose proof (frame_trans _ _ _
                (frame_trans _ _ _
                   (frame_trans _ _ _
                      (frame_trans _ _ _ (frame_trans _ _ _ H5 H6) H7) H8) H9) H10) as F10.
  destruct F3 as (R3 & M3 & N3 & _). destruct F10 as (R10 & M10 & N10 & _).
  exists data, resume, resumeEmbedding, wq, answer, w10, saved.
  rewrite Ejob, N3 in *.
  repeat split; auto; congruence.
Qed.

Lemma find_all_false {A} (p : A -> bool) (l : list A) :
  (forall x, In x l -> p x = false) -> List.find p l = None.
Proof.
  induction l as [|a l IH]; simpl; intros H; [reflexivity|].
  rewrite (H a (or_introl eq_refl)). apply IH. intros x Hx. apply H. now right.
Qed.

Lemma In_firstn {A} (n : nat) (l : list A) (x : A) : In x (firstn n l) -> In x l.
Proof.
  revert l; induction n as [|n IH]; intros [|a l]; simpl; try tauto.
  intros [H|H]; [now left | right; now apply IH].
Qed.

(** ** C3: the inserted vector is not among the hits *)

Local Open Scope Q_scope.

(** [generateInterviewQuestions] returns, whatever the oracle does. *)
Lemma generateInterviewQuestions_returns (svc : Services) (skillGaps : SkillGap)
    (jobTitle : string) (matchedSkills : list string) (w : World) :
  exists questions,
    AIService.generateInterviewQuestions svc skillGaps jobTitle matchedSkills w
    = (Ok questions,
       with_log w
         (log w ++ [Chat (InterviewQuestionsPrompt jobTitle matchedSkills
                            (missing skillGaps) (partial skillGaps))])).
Proof.
  unfold AIService.generateInterviewQuestions, try_catch, bind, call, lift, ret,
    AIService.noContent, AIService.arrayOrProperty, throw. cbv zeta.
  destruct (chat_completions_create svc (log w) _) as [[content|]|e]; simpl;
    try (eexists; reflexivity).
  destruct (String.eqb content ""); simpl; try (eexists; reflexivity).
  destruct (JSON_parse svc content) as [parsed|e]; simpl; try (eexists; reflexivity).
  destruct parsed as [| | | |xs|fields]; simpl; try (eexists; reflexivity).
  destruct (assoc "questions" fields) as [[| | | |xs|]|]; simpl; eexists; reflexivity.
Qed.

(** [generateRecommendations] returns, whatever the oracle does. *)
Lemma generateRecommendations_returns (svc : Services) (skillGaps : SkillGap)
    (jobTitle : string) (w : World) :
  exists recommendations w',
    AIService.generateRecommendations svc skillGaps jobTitle w = (Ok recommendations, w').
Proof.
  unfold AIService.generateRecommendations.
  destruct ((List.length (missing skillGaps) =? 0)%nat
            && (List.length (partial skillGaps) =? 0)%nat);
    [eexists; eexists; reflexivity|].
  unfold try_catch, bind, call, lift, ret, AIService.noContent, AIService.arrayOrProperty,
    throw. cbv zeta.
  destruct (chat_completions_create svc (log w) _) as [[content|]|e]; simpl;
    try (eexists; eexists; reflexivity).
  destruct (String.eqb content ""); simpl; try (eexists; eexists; reflexivity).
  destruct (JSON_parse svc content) as [parsed|e]; simpl;
    try (eexists; eexists; reflexivity).
  destruct parsed as [| | | |xs|fields]; simpl; try (eexists; eexists; reflexivity).
  unfold prop.
  destruct (assoc "recommendations" fields) as [[| | | |xs|]|]; simpl;
    eexists; eexists; reflexivity.
Qed.

(** C3 (amended). In [matchJob], when the steps before it have returned
    and the similarity query has answered, and the results of that one
    query do not contain the vector id of the job just inserted
    ([similarResults.find] gives [undefined]), the raw score defaults to 0
    and the request succeeds with 201 (a degraded result, not an error):
    the later steps cannot fail. The similarityScore of the MatchResult,
    returned and stored, is the percentage of a raw score of 0, which is
    50. *)
Theorem matchJob_missing_hit (svc : Services) (body : json) (data : JobMatchRequest)
    (resume : Resume) (jobSkills : ExtractedSkills) (jobEmbedding : list Q)
    (job : JobDescription) (jobVectorId : string) (resumeEmbedding : list Q)
    (similarResults : list VectorQueryResult) (w w1 w2 w3 w4 w5 w6 w7 w8 : World) :
  JobMatchRequestSchema body = Zod.ParseOk data ->
  Prisma.resume_findUnique (req_resumeId data) w = (Ok (Some resume), w1) ->
  AIService.extractSkills svc (req_jobDescription data) w1 = (Ok jobSkills, w2) ->
  AIService.generateEmbedding svc (req_jobDescription data) w2 = (Ok jobEmbedding, w3) ->
  Prisma.jobDescription_create (req_jobTitle data)
    (match req_company data with
     | Some c => if String.eqb c "" then None else Some c
     | None => None
     end)
    (req_jobDescription data) jobSkills w3 = (Ok job, w4) ->
  VectorService.upsertJob svc (job_id job) jobEmbedding
    (technicalSkills jobSkills ++ frameworks jobSkills ++ tools jobSkills)
    (req_jobTitle data) w4 = (Ok jobVectorId, w5) ->
  Prisma.jobDescription_update (job_id job) jobVectorId w5 = (Ok tt, w6) ->
  AIService.generateEmbedding svc (resume_rawText resume) w6 = (Ok resumeEmbedding, w7) ->
  VectorService.findSimilar svc resumeEmbedding 10 (Some "job"%string) w7
  = (Ok similarResults, w8) ->
  (forall r, In r similarResults -> vq_id r <> jobVectorId) ->
  exists d w',
    JobController.matchJob svc body w = (Responded 201 (MatchData d), w') /\
    resp_resumeId d = req_resumeId data /\
    resp_jobId d = job_id job /\
    jobVectorId = ("job_" ++ resp_jobId d)%string /\
    resp_similarityScore d == 50 /\
    exists m, In m (matches w') /\
              pairOf m = (resp_resumeId d, resp_jobId d) /\
              match_similarityScore m == 50.
Proof.
  intros Hschema Hfind Hskills Hemb Hcreate Hupsert Hupdate Hremb Hquery Hmiss.
  assert (Hnone : JS.find (fun r => String.eqb (vq_id r) jobVectorId) similarResults = None).
  { apply find_all_false. intros r Hr. apply String.eqb_neq. now apply Hmiss. }
  pose proof (upsertJob_Ok _ _ _ _ _ _ _ _ Hupsert) as Hvid.
  set (gaps := AIService.analyzeSkillGaps (resume_extractedSkills resume) jobSkills).
  destruct (generateInterviewQuestions_returns svc gaps (req_jobTitle data) (matched gaps) w8)
    as (questions & Hq).
  destruct (generateRecommendations_returns svc gaps (req_jobTitle data)
              (with_log w8
                 (log w8 ++ [Chat (InterviewQuestionsPrompt (req_jobTitle data) (matched gaps)
                                     (missing gaps) (partial gaps))])))
    as (recommendations & w10 & Hr).
  destruct (Prisma.jobMatch_upsert (req_resumeId data) (job_id job)
              (VectorService.calculateSimilarityPercentage 0) gaps (matched gaps)
              questions recommendations w10) as [saved w'] eqn:Hsave.
  destruct (jobMatch_upsert_spec _ _ _ _ _ _ _ _ _ _ Hsave)
    as (m & -> & Hpair & Hin & Hscore & _).
  exists (mkJobMatchResponse (match_id m) (req_resumeId data) (job_id job)
            (req_jobTitle data) (VectorService.calculateSimilarityPercentage 0) gaps
            (matched gaps) questions recommendations), w'.
  split; [|split; [reflexivity|split; [reflexivity|split; [exact Hvid|split]]]].
  - unfold JobController.matchJob, handler, JobController.matchJob_body.
    rewrite Hschema. cbv zeta.
    rewrite (bind_Ok _ _ _ _ _ Hfind). cbv beta iota.
    rewrite (bind_Ok _ _ _ _ _ Hskills). cbv beta.
    rewrite (bind_Ok _ _ _ _ _ Hemb). cbv beta.
    rewrite (bind_Ok _ _ _ _ _ Hcreate). cbv beta.
    rewrite (bind_Ok _ _ _ _ _ Hupsert). cbv beta.
    rewrite (bind_Ok _ _ _ _ _ Hupdate). cbv beta.
    rewrite (bind_Ok _ _ _ _ _ Hremb). cbv beta.
    rewrite (bind_Ok _ _ _ _ _ Hquery). cbv beta.
    rewrite Hnone. cbn [JobController.rawScoreOf]. fold gaps.
    rewrite (bind_Ok _ _ _ _ _ Hq). cbv beta.
    rewrite (bind_Ok _ _ _ _ _ Hr). cbv beta.
    rewrite (bind_Ok _ _ _ _ _ Hsave). reflexivity.
  - cbn [resp_similarityScore]. vm_compute. reflexivity.
  - exists m. cbn [resp_resumeId resp_jobId]. split; [exact Hin|]. split; [exact Hpair|].
    rewrite Hscore. vm_compute. reflexivity.
Qed.

(** The theorem on the demo deployment: the index answers the query with
    an older job only. *)
Lemma matchJob_missing_hit_witness :
  map vq_id Trace.similarResults = ["job_old"%string] /\
  exists d w',
    JobController.matchJob Demo.svc (Demo.matchRequest Demo.description60) Demo.world
    = (Responded 201 (MatchData d), w') /\
    resp_similarityScore d == 50.
Proof.
  split; [reflexivity|].
  destruct (matchJob_missing_hit Demo.svc (Demo.matchRequest Demo.description60)
              Trace.data Demo.resume1 Trace.jobSkills Trace.jobEmbedding Trace.job
              "job_0" Trace.resumeEmbedding Trace.similarResults
              Demo.world Trace.w1 Trace.w2 Trace.w3 Trace.w4 Trace.w5 Trace.w6 Trace.w7
              Trace.w8)
    as (d & w' & H & _ & _ & _ & Hs & _);
    try (vm_compute; reflexivity).
  - intros r [<-|[]]. discriminate.
  - exists d, w'. split; [exact H|exact Hs].
Defined.

(** C3, as stated, fails: the hits of the demo index do not contain the
    new job's vector, and the similarityScore is 50, not 0. *)
Lemma matchJob_missing_hit_not_zero :
  JobController.matchJob Demo.svc (Demo.matchRequest Demo.description60) Demo.world
  = (Responded 201 (MatchData Demo.response1), Demo.world1) /\
  resp_jobId Demo.response1 = "0"%string /\
  Demo.query (mkQueryOptions [1; 0] 10 true (Some "job"%string))
  = Ok (Some [Demo.hit "job_old" "old" (9 # 10) "job"]) /\
  resp_similarityScore Demo.response1 == 50 /\
  ~ resp_similarityScore Demo.response1 == 0.
Proof.
  split; [vm_compute; reflexivity|].
  split; [reflexivity|]. split; [reflexivity|]. split; [reflexivity|].
  intros H. vm_compute in H. discriminate.
Qed.

Local Close Scope Q_scope.

(** ** C9: one match record per pair *)

(** From a store that satisfies the invariant, a successful [matchJob]
    appends one match record, for a job id taken from the counter. *)
Lemma matchJob_creates (svc : Services) (body : json) (w : World)
    (d : JobMatchResponse) (w' : World) :
  storeInv w ->
  JobController.matchJob svc body w = (Responded 201 (MatchData d), w') ->
  exists data m,
    JobMatchRequestSchema body = Zod.ParseOk data /\
    resp_resumeId d = req_resumeId data /\
    resp_jobId d = genId (nextId w) /\
    nextId w' = S (S (nextId w)) /\
    matches w' = matches w ++ [m] /\
    pairOf m = (resp_resumeId d, resp_jobId d) /\
    match_id m = resp_id d.
Proof.
  intros [U B] H. apply matchJob_success in H.
  destruct H as (data & resume & emb & wq & answer & wu & saved &
                 Hs & _ & Hr & Hj & _ & _ & _ & Hm & _ & Hn & Hup & Hid).
  apply jobMatch_upsert_spec in Hup.
  destruct Hup as (m & Eres & Hp & _ & _ & _ & _ & _ & _ & _ & Hcase).
  inversion Eres; subst saved; clear Eres.
  destruct Hcase as [(_ & Hm' & _ & Hn') | ((old & Hold & Hpo & _) & _)].
  - exists data, m. rewrite Hm', Hm, Hn', Hn. repeat split; auto.
  - exfalso. rewrite Hm in Hold. destruct (B old Hold) as [k [Hk Ek]].
    inversion Hpo as [[Hro Hjo]]. rewrite Hj, Ek in Hjo.
    apply genId_inj in Hjo. lia.
Qed.

(** C9 (amended). At most one MatchResult record exists for any
    (resumeId, jobId) pair at any time: the upsert is keyed by the pair.
    Every successful call of the match orchestrator first creates a new
    job record, so two calls with the same (resumeId, jobDescription) get
    two different jobIds and leave two MatchResult records, one per
    (resumeId, jobId) pair; the second call appends its record and leaves
    the record of the first call as it was. *)
Theorem matchJob_upsert_per_pair (svc : Services) :
  (forall (w0 : World) (requests : list Request),
     matches w0 = [] -> uniquePairs (run svc requests w0)) /\
  (forall (w0 : World) (requests : list Request) (body : json)
          (d1 d2 : JobMatchResponse) (w1 w2 : World),
     matches w0 = [] ->
     let w := run svc requests w0 in
     JobController.matchJob svc body w = (Responded 201 (MatchData d1), w1) ->
     JobController.matchJob svc body w1 = (Responded 201 (MatchData d2), w2) ->
     resp_resumeId d1 = resp_resumeId d2 /\
     resp_jobId d1 <> resp_jobId d2 /\
     exists m1 m2,
       matches w1 = matches w ++ [m1] /\
       matches w2 = matches w ++ [m1; m2] /\
       pairOf m1 = (resp_resumeId d1, resp_jobId d1) /\ match_id m1 = resp_id d1 /\
       pairOf m2 = (resp_resumeId d2, resp_jobId d2) /\ match_id m2 = resp_id d2).
Proof.
  split.
  - intros w0 requests E. apply run_keeps. now apply storeInv_no_matches.
  - intros w0 requests body d1 d2 w1 w2 E w H1 H2.
    assert (I : storeInv w) by (apply run_keeps; now apply storeInv_no_matches).
    assert (I1 : storeInv w1).
    { pose proof (matchJob_keeps svc body w I) as K. now rewrite H1 in K. }
    destruct (matchJob_creates svc body w d1 w1 I H1)
      as (data1 & m1 & S1 & R1 & J1 & N1 & M1 & P1 & Id1).
    destruct (matchJob_creates svc body w1 d2 w2 I1 H2)
      as (data2 & m2 & S2 & R2 & J2 & N2 & M2 & P2 & Id2).
    rewrite S1 in S2. inversion S2; subst data2.
    split; [congruence|]. split.
    + rewrite J1, J2, N1. intros Hj. apply genId_inj in Hj. lia.
    + exists m1, m2. rewrite M2, M1, <- app_assoc. simpl. repeat split; auto.
Qed.

(** The theorem on the demo deployment: the same request, twice. *)
Lemma matchJob_upsert_per_pair_witness :
  JobController.matchJob Demo.svc (Demo.matchRequest Demo.description60) Demo.world
  = (Responded 201 (MatchData Demo.response1), Demo.world1) /\
  JobController.matchJob Demo.svc (Demo.matchRequest Demo.description60) Demo.world1
  = (Responded 201 (MatchData Demo.response2), Demo.world2) /\
  resp_jobId Demo.response1 <> resp_jobId Demo.response2.
Proof.
  assert (H1 : JobController.matchJob Demo.svc (Demo.matchRequest Demo.description60)
                 Demo.world
               = (Responded 201 (MatchData Demo.response1), Demo.world1))
    by (vm_compute; reflexivity).
  assert (H2 : JobController.matchJob Demo.svc (Demo.matchRequest Demo.description60)
                 Demo.world1
               = (Responded 201 (MatchData Demo.response2), Demo.world2))
    by (vm_compute; reflexivity).
  split; [exact H1|]. split; [exact H2|].
  exact (proj1 (proj2 (proj2 (matchJob_upsert_per_pair Demo.svc)
                         Demo.world [] (Demo.matchRequest Demo.description60)
                         Demo.response1 Demo.response2 Demo.world1 Demo.world2
                         eq_refl H1 H2))).
Defined.

(** C9, as stated, fails: after two calls with the same resumeId and job
    description the store holds two match records, for two jobs; the
    record of the first call was not overwritten. *)
Lemma matchJob_twice_two_records :
  JobController.matchJob Demo.svc (Demo.matchRequest Demo.description60) Demo.world
  = (Responded 201 (MatchData Demo.response1), Demo.world1) /\
  JobController.matchJob Demo.svc (Demo.matchRequest Demo.description60) Demo.world1
  = (Responded 201 (MatchData Demo.response2), Demo.world2) /\
  map pairOf (matches Demo.world1) = [("r1", "0")]%string /\
  map pairOf (matches Demo.world2) = [("r1", "0"); ("r1", "2")]%string /\
  List.length (matches Demo.world2) = 2%nat.
Proof.
  split; [vm_compute; reflexivity|]. split; [vm_compute; reflexivity|].
  repeat split.
Qed.

(** ** C6 and C7: the candidate finder *)




Lemma Math_min_le (a b : Q) : (JS.Math_min a b <= a /\ JS.Math_min a b <= b)%Q.
Proof.
  unfold JS.Math_min. destruct (Qle_bool a b) eqn:E.
  - apply Qle_bool_iff in E. split; [apply Qle_refl | exact E].
  - split; [|apply Qle_refl].
    destruct (Qlt_le_dec b a) as [L|L]; [now apply Qlt_le_weak|].
    apply Qle_bool_iff in L. congruence.
Qed.









(** ** C10: a failed delete in the index is swallowed *)

Lemma find_filter_negb {A} (p : A -> bool) (l : list A) :
  List.find p (filter (fun x => negb (p x)) l) = None.
Proof.
  apply find_all_false. intros x Hx. apply filter_In in Hx as [_ Hx].
  now apply negb_true_iff in Hx.
Qed.

Lemma find_existsb {A} (p : A -> bool) (l : list A) (x : A) :
  List.find p l = Some x -> existsb p l = true.
Proof.
  intros H. apply find_some in H as [Hin Hp]. apply existsb_exists. now exists x.
Qed.

(** Once the index handle is there, [deleteVector] returns normally
    whatever [index.deleteOne] does. *)
Lemma deleteVector_returns (svc : Services) (v : string) (w w1 : World) :
  VectorService.initializeIndex svc w = (Ok tt, w1) ->
  VectorService.deleteVector svc v w
  = (Ok tt, with_log w1 (log w1 ++ [IndexDeleteOne v])).
Proof.
  intros Hinit. unfold VectorService.deleteVector.
  rewrite (bind_Ok _ _ _ _ _ Hinit).
  unfold try_catch, call, ret.
  destruct (index_deleteOne svc (log w1) v) as [[]|e]; reflexivity.
Qed.

(** C10. [deleteVector] does not propagate a failure of the vector-index
    delete operation: when [index.deleteOne] throws, [deleteVector] returns
    normally, and [deleteResume] goes on to delete the résumé record and
    answers 200 "Resume deleted successfully", although the vector is
    still in the index. *)
Theorem deleteVector_swallows_failure (svc : Services) (id : string) (resume : Resume)
    (v : string) (e : JsError) (w w2 : World) :
  let w1 := with_log w (log w ++ [Db (ResumeFindUnique id)]) in
  List.find (fun r => String.eqb (resume_id r) id) (resumes w) = Some resume ->
  resume_vectorId resume = Some v ->
  v <> ""%string ->
  VectorService.initializeIndex svc w1 = (Ok tt, w2) ->
  index_deleteOne svc (log w2) v = Throw e ->
  fst (VectorService.deleteVector svc v w1) = Ok tt /\
  exists w',
    ResumeController.deleteResume svc id w
    = (Responded 200 (MessageData "Resume deleted successfully"), w') /\
    In (IndexDeleteOne v) (log w') /\
    List.find (fun r => String.eqb (resume_id r) id) (resumes w') = None.
Proof.
  intros w1 Hfind Hvec Hne Hinit Hdel.
  pose proof (deleteVector_returns svc v w1 w2 Hinit) as Hdv.
  split; [now rewrite Hdv|].
  assert (Hres : resumes w2 = resumes w).
  { apply framed_initializeIndex in Hinit. destruct Hinit as (R & _). exact R. }
  unfold ResumeController.deleteResume, handler, ResumeController.deleteResume_body.
  rewrite (bind_Ok _ _ w (Some resume) w1)
    by (unfold Prisma.resume_findUnique, bind, Prisma.op, get, ret; now rewrite <- Hfind).
  rewrite Hvec. apply String.eqb_neq in Hne. rewrite Hne.
  rewrite (bind_Ok _ _ _ _ _ Hdv).
  unfold Prisma.resume_delete, bind, Prisma.op, get, ret. simpl.
  rewrite Hres, (find_existsb _ _ _ Hfind).
  eexists. split; [reflexivity|]. simpl. split.
  - apply in_or_app. left. apply in_or_app. right. now left.
  - rewrite Hres. apply find_filter_negb.
Qed.

(** The theorem on the demo deployment, whose index refuses every delete. *)
Lemma deleteVector_swallows_failure_witness :
  exists w',
    ResumeController.deleteResume Demo.svc "r1" Demo.world
    = (Responded 200 (MessageData "Resume deleted successfully"), w') /\
    In (IndexDeleteOne "resume_r1") (log w') /\
    List.find (fun r => String.eqb (resume_id r) "r1") (resumes w') = None.
Proof.
  refine (proj2 (deleteVector_swallows_failure Demo.svc "r1" Demo.resume1 "resume_r1"
                   (Error "index unavailable") Demo.world _ eq_refl eq_refl _ _ eq_refl)).
  - discriminate.
  - vm_compute. reflexivity.
Defined.

Lemma initializeIndex_jobs (svc : Services) (w : World) (r : Res unit) (w' : World) :
  VectorService.initializeIndex svc w = (r, w') -> jobs w' = jobs w.
Proof.
  unfold VectorService.initializeIndex, bind, call, ret.
  destruct (indexInitialized w); [intros H; now inversion H|].
  destruct (listIndexes svc (log w)) as [indexes|err]; [|intros H; now inversion H].
  destruct (match indexes with
            | Some names => existsb (fun name => String.eqb name (INDEX_NAME svc)) names
            | None => false
            end); simpl.
  - intros H; now inversion H.
  - destruct (createIndex svc _); simpl; [|intros H; now inversion H].
    destruct (awaitIndexReady svc _); simpl; intros H; now inversion H.
Qed.

(** The same for a job: [deleteJob] answers 200 after a failed delete in
    the index. *)
Lemma deleteJob_swallows_failure (svc : Services) (id : string) (job : JobDescription)
    (v : string) (e : JsError) (w w2 : World) :
  let w1 := with_log w (log w ++ [Db (JobFindUnique id)]) in
  List.find (fun j => String.eqb (job_id j) id) (jobs w) = Some job ->
  job_vectorId job = Some v ->
  v <> ""%string ->
  VectorService.initializeIndex svc w1 = (Ok tt, w2) ->
  index_deleteOne svc (log w2) v = Throw e ->
  exists w',
    JobController.deleteJob svc id w
    = (Responded 200 (MessageData "Job deleted successfully"), w') /\
    In (IndexDeleteOne v) (log w') /\
    List.find (fun j => String.eqb (job_id j) id) (jobs w') = None.
Proof.
  intros w1 Hfind Hvec Hne Hinit Hdel.
  pose proof (deleteVector_returns svc v w1 w2 Hinit) as Hdv.
  pose proof (initializeIndex_jobs svc w1 _ w2 Hinit) as Hjobs. simpl in Hjobs.
  unfold JobController.deleteJob, handler, JobController.deleteJob_body.
  rewrite (bind_Ok _ _ w (Some job) w1)
    by (unfold Prisma.jobDescription_findUnique, bind, Prisma.op, get, ret;
        now rewrite <- Hfind).
  rewrite Hvec. apply String.eqb_neq in Hne. rewrite Hne.
  rewrite (bind_Ok _ _ _ _ _ Hdv).
  unfold Prisma.jobDescription_delete, bind, Prisma.op, get, ret. simpl.
  rewrite Hjobs, (find_existsb _ _ _ Hfind).
  eexists. split; [reflexivity|]. simpl. split.
  - apply in_or_app. left. apply in_or_app. right. now left.
  - rewrite Hjobs. apply find_filter_negb.
Qed.

(* ================================================================== *)
(** * Further properties of the code *)
(* ================================================================== *)

(** ** The schemas, as acceptance conditions *)

Lemma string_min_Ok (n : nat) (msg : string) (v : option json) (s : string) :
  Zod.string_min n msg v = Zod.ParseOk s <->
  v = Some (JStr s) /\ (n <= String.length s)%nat.
Proof.
  unfold Zod.string_min, Zod.string_, Zod.invalidType. split.
  - destruct v as [[| | |x| |]|]; simpl; try discriminate.
    destruct (String.length x <? n)%nat eqn:E; [discriminate|].
    intros H. inversion H; subst. apply Nat.ltb_ge in E. auto.
  - intros [-> H]. simpl. apply Nat.ltb_ge in H. now rewrite H.
Qed.

Lemma optional_string_Ok (v : option json) (o : option string) :
  Zod.optional Zod.string_ v = Zod.ParseOk o <-> v = option_map JStr o.
Proof.
  split.
  - destruct v as [[| | |x| |]|]; simpl; try discriminate;
      intros H; inversion H; reflexivity.
  - intros ->. destruct o; reflexivity.
Qed.

Lemma optional_number_Ok (v : option json) (o : option Q) :
  Zod.optional Zod.number v = Zod.ParseOk o <-> v = option_map JNum o.
Proof.
  split.
  - destruct v as [[| |x| | |]|]; simpl; try discriminate;
      intros H; inversion H; reflexivity.
  - intros ->. destruct o; reflexivity.
Qed.

Lemma strings_of_JStr (ss : list string) : Zod.strings (map JStr ss) = Zod.ParseOk ss.
Proof. induction ss as [|x ss IH]; simpl; [reflexivity|]. now rewrite IH. Qed.

Lemma default_array_Ok (raw : json) (key : string) (xs : list string) :
  Zod.default Zod.array_string [] (prop key raw) = Zod.ParseOk xs <-> defaultedAs raw key xs.
Proof.
  unfold defaultedAs. split.
  - intros H. apply default_array_string in H.
    destruct (prop key raw) as [j|]; [right; now rewrite H | left; auto].
  - intros [[-> ->] | ->]; simpl; [reflexivity | apply strings_of_JStr].
Qed.

Lemma optional_array_Ok (raw : json) (key : string) (o : option (list string)) :
  Zod.optional Zod.array_string (prop key raw) = Zod.ParseOk o <->
  optionalAs (fun xs => JArr (map JStr xs)) raw key o.
Proof.
  unfold optionalAs. split.
  - intros H. apply optional_array_string in H.
    destruct (prop key raw) as [j|]; [|now rewrite H].
    destruct H as (ss & -> & ->). reflexivity.
  - intros ->. destruct o as [xs|]; simpl; [|reflexivity].
    now rewrite strings_of_JStr.
Qed.

(** X1. [JobMatchRequestSchema] accepts a body exactly when resumeId and
    jobTitle are non-empty strings, jobDescription is a string of at least
    50 characters and company is a string or missing; the parsed request
    carries exactly these four values. *)
Theorem JobMatchRequestSchema_accepts (body : json) (data : JobMatchRequest) :
  JobMatchRequestSchema body = Zod.ParseOk data <->
  prop "resumeId" body = Some (JStr (req_resumeId data)) /\
  (1 <= String.length (req_resumeId data))%nat /\
  prop "jobTitle" body = Some (JStr (req_jobTitle data)) /\
  (1 <= String.length (req_jobTitle data))%nat /\
  prop "jobDescription" body = Some (JStr (req_jobDescription data)) /\
  (50 <= String.length (req_jobDescription data))%nat /\
  prop "company" body = option_map JStr (req_company data).
Proof.
  unfold JobMatchRequestSchema, Zod.object. split.
  - destruct body; try discriminate.
    destruct (Zod.string_min 1 _ _) as [r|] eqn:E1; cbn [Zod.andThen]; [|discriminate].
    destruct (Zod.string_min 1 _ (prop "jobTitle" _)) as [t|] eqn:E2;
      cbn [Zod.andThen]; [|discriminate].
    destruct (Zod.string_min 50 _ _) as [d|] eqn:E3; cbn [Zod.andThen]; [|discriminate].
    destruct (Zod.optional _ _) as [c|] eqn:E4; cbn [Zod.andThen]; [|discriminate].
    intros H. inversion H; subst; clear H. simpl.
    apply string_min_Ok in E1, E2, E3. apply optional_string_Ok in E4. tauto.
  - intros (H1 & L1 & H2 & L2 & H3 & L3 & H4).
    destruct body; try discriminate.
    rewrite (proj2 (string_min_Ok 1 _ _ _) (conj H1 L1)). cbn [Zod.andThen].
    rewrite (proj2 (string_min_Ok 1 _ _ _) (conj H2 L2)). cbn [Zod.andThen].
    rewrite (proj2 (string_min_Ok 50 _ _ _) (conj H3 L3)). cbn [Zod.andThen].
    rewrite (proj2 (optional_string_Ok _ _) H4). cbn [Zod.andThen].
    now destruct data.
Qed.

(** X2. [ExtractedSkillsSchema] accepts a raw value exactly when it is an
    object in which each of the five skill lists is missing or an array of
    strings, education and certifications likewise, yearsOfExperience is a
    number or missing and currentRole a string or missing. A field that is
    there with another type ([null], a string, an array with a non-string)
    is rejected, not defaulted; the profile carries exactly the values of
    the object. *)
Theorem ExtractedSkillsSchema_accepts (raw : json) (v : ExtractedSkills) :
  ExtractedSkillsSchema raw = Zod.ParseOk v <->
  (exists fields, raw = JObj fields) /\
  defaultedAs raw "technicalSkills" (technicalSkills v) /\
  defaultedAs raw "frameworks" (frameworks v) /\
  defaultedAs raw "languages" (languages v) /\
  defaultedAs raw "tools" (tools v) /\
  defaultedAs raw "softSkills" (softSkills v) /\
  optionalAs JNum raw "yearsOfExperience" (yearsOfExperience v) /\
  optionalAs JStr raw "currentRole" (currentRole v) /\
  optionalAs (fun xs => JArr (map JStr xs)) raw "education" (education v) /\
  optionalAs (fun xs => JArr (map JStr xs)) raw "certifications" (certifications v).
Proof.
  split.
  - intros H. pose proof (ExtractedSkillsSchema_fields raw v H)
      as (H1 & H2 & H3 & H4 & H5 & H6 & H7 & H8 & H9).
    split.
    { unfold ExtractedSkillsSchema, Zod.object in H.
      destruct raw; try discriminate. eauto. }
    rewrite <- !default_array_Ok, <- !optional_array_Ok.
    unfold optionalAs. rewrite <- optional_number_Ok, <- optional_string_Ok. tauto.
  - intros ([fields ->] & H1 & H2 & H3 & H4 & H5 & H6 & H7 & H8 & H9).
    apply default_array_Ok in H1, H2, H3, H4, H5.
    apply optional_array_Ok in H8, H9.
    apply optional_number_Ok in H6. apply optional_string_Ok in H7.
    unfold ExtractedSkillsSchema, Zod.object.
    rewrite H1, H2, H3, H4, H5, H6, H7, H8, H9. cbn [Zod.andThen].
    now destruct v.
Qed.

(** A list field that is [null] makes the whole output invalid. *)
Example ExtractedSkillsSchema_null_list :
  ExtractedSkillsSchema (JObj [("tools", JNull)])
  = Zod.ParseError "Expected array, received null".
Proof. reflexivity. Qed.

(** ** The calls to OpenAI *)

(** [text.substring(0, n)] is the text cut after [n] code units. *)
Lemma substring_cut (n : nat) (s : string) :
  (String.length (substring 0 n s) <= n)%nat /\
  (exists rest, s = (substring 0 n s ++ rest)%string) /\
  ((String.length s <= n)%nat -> substring 0 n s = s).
Proof.
  revert s; induction n as [|n IH]; intros s.
  - destruct s; simpl; (split; [lia|]); (split; [eexists; reflexivity|]);
      intros H; simpl in H; [reflexivity | lia].
  - destruct s as [|c s]; simpl.
    + split; [lia|]. split; [now exists ""%string | reflexivity].
    + destruct (IH s) as (L & [rest E] & F). split; [lia|]. split.
      * exists rest. now rewrite <- E.
      * intros H. rewrite F; [reflexivity | lia].
Qed.

Lemma substring_length (n : nat) (s : string) :
  String.length (substring 0 n s) = Nat.min n (String.length s).
Proof.
  revert s; induction n as [|n IH]; intros s; [now destruct s|].
  destruct s as [|c s]; simpl; [reflexivity|]. now rewrite IH.
Qed.

(** X3. [generateEmbedding] makes one call to the embedding oracle, with
    the text cut after 8000 characters: what is sent is
    [text.substring(0, 8000)], the prefix of the text whose length is the
    smaller of 8000 and the length of the text (the whole text when that
    is not longer). When the call fails the error thrown has the oracle's
    message behind "Failed to generate embedding: ". *)
Theorem generateEmbedding_truncates (svc : Services) (text : string) (w : World) :
  let sent := substring 0 8000 text in
  String.length sent = Nat.min 8000 (String.length text) /\
  (exists rest, text = (sent ++ rest)%string) /\
  ((String.length text <= 8000)%nat -> sent = text) /\
  snd (AIService.generateEmbedding svc text w) = with_log w (log w ++ [Embed sent]) /\
  match embeddings_create svc (log w) sent with
  | Ok vector => fst (AIService.generateEmbedding svc text w) = Ok vector
  | Throw e =>
      fst (AIService.generateEmbedding svc text w)
      = Throw (Error ("Failed to generate embedding: " ++ message e))
  end.
Proof.
  cbv zeta.
  destruct (substring_cut 8000 text) as (L & P & F).
  split; [apply substring_length|]. split; [exact P|]. split; [exact F|].
  unfold AIService.generateEmbedding, try_catch, call, throw. cbv zeta.
  destruct (embeddings_create svc (log w) (substring 0 8000 text)); split; reflexivity.
Qed.

(** X4. [extractSkills] makes one chat call, on the text cut after 8000
    characters. A profile it returns is the oracle's content, parsed, as
    accepted by [ExtractedSkillsSchema]; every failure (the call, an empty
    content, unparsable JSON, a rejected shape) is thrown with a message
    that starts with "Failed to extract skills: ". *)
Theorem extractSkills_outcomes (svc : Services) (text : string) (w : World) :
  let request := ExtractSkillsPrompt (substring 0 8000 text) in
  snd (AIService.extractSkills svc text w) = with_log w (log w ++ [Chat request]) /\
  match fst (AIService.extractSkills svc text w) with
  | Ok validated =>
      exists content parsed,
        chat_completions_create svc (log w) request = Ok (Some content) /\
        content <> ""%string /\
        JSON_parse svc content = Ok parsed /\
        ExtractedSkillsSchema parsed = Zod.ParseOk validated
  | Throw e => exists reason, e = Error ("Failed to extract skills: " ++ reason)
  end.
Proof.
  intros request.
  unfold AIService.extractSkills, try_catch, bind, call, throw, lift, ret,
    AIService.noContent.
  fold request.
  destruct (chat_completions_create svc (log w) request) as [[content|]|e] eqn:Echat;
    simpl; [| split; [reflexivity | eexists; reflexivity] ..].
  destruct (String.eqb content "") eqn:Eempty; simpl;
    [split; [reflexivity | eexists; reflexivity]|].
  destruct (JSON_parse svc content) as [parsed|e] eqn:Eparse; simpl;
    [| split; [reflexivity | eexists; reflexivity]].
  destruct (ExtractedSkillsSchema parsed) as [validated|m] eqn:Eschema; simpl;
    (split; [reflexivity|]); [|eexists; reflexivity].
  exists content, parsed. apply String.eqb_neq in Eempty. auto.
Qed.

Lemma length_getDefaultQuestions (jobTitle : string) :
  List.length (AIService.getDefaultQuestions jobTitle) = 5%nat.
Proof. reflexivity. Qed.

Lemma length_getDefaultRecommendations (missingSkills : list string) :
  (3 <= List.length (AIService.getDefaultRecommendations missingSkills) <= 4)%nat.
Proof.
  unfold AIService.getDefaultRecommendations.
  destruct (0 <? List.length missingSkills)%nat; simpl; lia.
Qed.

(** X5. [generateInterviewQuestions] never throws: it makes one chat
    call and returns at most 7 questions. When the oracle's content
    parses to an array, or to an object with an array under "questions",
    the answer is the first 7 elements of that array; in every other case
    (a failed call, no content or an empty one, unparsable JSON, [null],
    any other value) it is the list of the 5 default questions, the first
    of which names the job title. *)
Theorem generateInterviewQuestions_total (svc : Services) (skillGaps : SkillGap)
    (jobTitle : string) (matchedSkills : list string) (w : World) :
  let request :=
    InterviewQuestionsPrompt jobTitle matchedSkills (missing skillGaps)
      (partial skillGaps) in
  let defaults :=
    [ JStr ("Tell me about your experience relevant to this " ++ jobTitle ++ " role.");
      JStr "Describe a challenging project you worked on and how you overcame obstacles.";
      JStr "How do you stay updated with the latest technologies in your field?";
      JStr "Can you walk me through your problem-solving process?";
      JStr "Where do you see yourself in 5 years?" ] in
  exists questions,
    AIService.generateInterviewQuestions svc skillGaps jobTitle matchedSkills w
    = (Ok questions, with_log w (log w ++ [Chat request])) /\
    (List.length questions <= 7)%nat /\
    questions
    = match chat_completions_create svc (log w) request with
      | Ok (Some content) =>
          if String.eqb content "" then defaults
          else
            match JSON_parse svc content with
            | Ok (JArr xs) => firstn 7 xs
            | Ok (JObj fields) =>
                match assoc "questions" fields with
                | Some (JArr xs) => firstn 7 xs
                | _ => defaults
                end
            | _ => defaults
            end
      | _ => defaults
      end.
Proof.
  cbv zeta.
  unfold AIService.generateInterviewQuestions, try_catch, bind, call, lift, ret,
    AIService.noContent, AIService.arrayOrProperty, throw. cbv zeta.
  destruct (chat_completions_create svc (log w) _) as [[content|]|e]; simpl;
    try (eexists; split; [reflexivity | split; [simpl; lia | reflexivity]]).
  destruct (String.eqb content ""); simpl;
    try (eexists; split; [reflexivity | split; [simpl; lia | reflexivity]]).
  destruct (JSON_parse svc content) as [parsed|e]; simpl;
    try (eexists; split; [reflexivity | split; [simpl; lia | reflexivity]]).
  destruct parsed as [| | | |xs|fields]; simpl;
    try (eexists; split; [reflexivity | split; [simpl; lia | reflexivity]]).
  - eexists; split; [reflexivity | split; [exact (firstn_le_length 7 xs) | reflexivity]].
  - unfold prop. destruct (assoc "questions" fields) as [[| | | |xs|]|]; simpl;
      try (eexists; split; [reflexivity | split; [simpl; lia | reflexivity]]).
    eexists; split; [reflexivity | split; [exact (firstn_le_length 7 xs) | reflexivity]].
Qed.

Lemma generateRecommendations_call (svc : Services) (skillGaps : SkillGap)
    (jobTitle : string) (w : World) :
  (List.length (missing skillGaps) =? 0)%nat && (List.length (partial skillGaps) =? 0)%nat
  = false ->
  exists recommendations,
    AIService.generateRecommendations svc skillGaps jobTitle w
    = (Ok recommendations,
       with_log w
         (log w ++ [Chat (RecommendationsPrompt jobTitle (missing skillGaps)
                            (partial skillGaps))])) /\
    (List.length recommendations <= 5)%nat.
Proof.
  intros Hgaps.
  pose proof (length_getDefaultRecommendations (missing skillGaps)) as D.
  assert (D5 : (List.length (AIService.getDefaultRecommendations (missing skillGaps)) <= 5)%nat)
    by lia.
  unfold AIService.generateRecommendations. rewrite Hgaps.
  unfold try_catch, bind, call, lift, ret, AIService.noContent,
    AIService.arrayOrProperty, throw. cbv zeta.
  destruct (chat_completions_create svc (log w) _) as [[content|]|e]; simpl;
    try (eexists; split; [reflexivity | exact D5]).
  destruct (String.eqb content ""); simpl;
    try (eexists; split; [reflexivity | exact D5]).
  destruct (JSON_parse svc content) as [parsed|e]; simpl;
    try (eexists; split; [reflexivity | exact D5]).
  destruct parsed as [| | | |xs|fields]; simpl;
    try (eexists; split; [reflexivity | exact D5]).
  - eexists; split; [reflexivity | exact (firstn_le_length 5 xs)].
  - destruct (assoc "recommendations" fields) as [[| | | |xs|]|]; simpl;
      try (eexists; split; [reflexivity | exact D5]).
    eexists; split; [reflexivity | exact (firstn_le_length 5 xs)].
Qed.

(** X6. [generateRecommendations] never throws and returns at most 5
    recommendations. When nothing is missing and nothing is partial it
    answers with the one "Great match" sentence without calling the
    oracle; otherwise it makes exactly one chat call. *)
Theorem generateRecommendations_total (svc : Services) (skillGaps : SkillGap)
    (jobTitle : string) (w : World) :
  exists recommendations,
    fst (AIService.generateRecommendations svc skillGaps jobTitle w) = Ok recommendations /\
    (List.length recommendations <= 5)%nat /\
    (missing skillGaps = [] /\ partial skillGaps = [] ->
       AIService.generateRecommendations svc skillGaps jobTitle w
       = (Ok [JStr "Great match! Your skills align well with this position."], w)) /\
    (missing skillGaps <> [] \/ partial skillGaps <> [] ->
       snd (AIService.generateRecommendations svc skillGaps jobTitle w)
       = with_log w
           (log w ++ [Chat (RecommendationsPrompt jobTitle (missing skillGaps)
                              (partial skillGaps))])).
Proof.
  destruct ((List.length (missing skillGaps) =? 0)%nat
            && (List.length (partial skillGaps) =? 0)%nat) eqn:Hgaps.
  - apply andb_true_iff in Hgaps as [Hm Hp]. apply Nat.eqb_eq in Hm, Hp.
    apply length_zero_iff_nil in Hm, Hp.
    assert (E : AIService.generateRecommendations svc skillGaps jobTitle w
                = (Ok [JStr "Great match! Your skills align well with this position."], w)).
    { unfold AIService.generateRecommendations. now rewrite Hm, Hp. }
    eexists. rewrite E. split; [reflexivity|]. split; [simpl; lia|].
    split; [reflexivity|]. intros [H|H]; contradiction.
  - destruct (generateRecommendations_call svc skillGaps jobTitle w Hgaps) as (rs & E & L).
    exists rs. rewrite E. split; [reflexivity|]. split; [exact L|]. split; [|reflexivity].
    intros [Hm Hp]. rewrite Hm, Hp in Hgaps. discriminate.
Qed.

(** ** Finer frames *)

Lemma calm_refl (w : World) : calm w w.
Proof. split; [apply frame_refl | split; auto]. Qed.

Lemma calm_trans (w1 w2 w3 : World) : calm w1 w2 -> calm w2 w3 -> calm w1 w3.
Proof.
  intros (F1 & J1 & I1) (F2 & J2 & I2).
  split; [eapply frame_trans; eauto|]. split; [congruence | auto].
Qed.

Lemma calm_log (w : World) (l : list Event) : calm w (with_log w (log w ++ l)).
Proof. split; [|split; auto]. repeat split. now exists l. Qed.

Lemma calmed_ret {A} (a : A) : calmed (ret a).
Proof. intros w r w' H. inversion H. apply calm_refl. Qed.

Lemma calmed_throw {A} (e : JsError) : calmed (@throw A e).
Proof. intros w r w' H. inversion H. apply calm_refl. Qed.

Lemma calmed_lift {A} (x : Res A) : calmed (lift x).
Proof. intros w r w' H. inversion H. apply calm_refl. Qed.

Lemma calmed_get : calmed get.
Proof. intros w r w' H. inversion H. apply calm_refl. Qed.

Lemma calmed_call {A} (e : Event) (oracle : list Event -> Res A) : calmed (call e oracle).
Proof. intros w r w' H. inversion H. apply (calm_log w [e]). Qed.

Lemma calmed_op (o : DbOp) : calmed (Prisma.op o).
Proof. intros w r w' H. inversion H. apply (calm_log w [Db o]). Qed.

Lemma calmed_bind {A B} (c : M A) (k : A -> M B) :
  calmed c -> (forall a, calmed (k a)) -> calmed (bind c k).
Proof.
  intros Hc Hk w r w' H. unfold bind in H.
  destruct (c w) as [[a|e] w1] eqn:E.
  - eapply calm_trans; [eapply Hc, E | eapply Hk, H].
  - inversion H; subst. eapply Hc, E.
Qed.

Lemma calmed_try_catch {A} (c : M A) (h : JsError -> M A) :
  calmed c -> (forall e, calmed (h e)) -> calmed (try_catch c h).
Proof.
  intros Hc Hh w r w' H. unfold try_catch in H.
  destruct (c w) as [[a|e] w1] eqn:E.
  - inversion H; subst. eapply Hc, E.
  - eapply calm_trans; [eapply Hc, E | eapply Hh, H].
Qed.

Lemma calmed_setInitialized :
  calmed (fun w' : World => (Ok tt, with_indexInitialized w' true)).
Proof.
  intros w r w' H. inversion H. split; [|split; auto].
  repeat split. exists []. simpl. now rewrite app_nil_r.
Qed.

Ltac calming :=
  repeat first
    [ apply calmed_ret | apply calmed_throw | apply calmed_lift | apply calmed_get
    | apply calmed_call | apply calmed_op | apply calmed_setInitialized
    | apply calmed_bind; [|intros ?]
    | apply calmed_try_catch; [|intros ?]
    | match goal with
      | |- calmed (match ?x with _ => _ end) => destruct x
      end ].

Lemma calmed_arrayOrProperty (key : string) (parsed : json) :
  calmed (AIService.arrayOrProperty key parsed).
Proof. unfold AIService.arrayOrProperty. calming. Qed.

Lemma calmed_extractSkills (svc : Services) (text : string) :
  calmed (AIService.extractSkills svc text).
Proof. unfold AIService.extractSkills. calming. Qed.

Lemma calmed_generateEmbedding (svc : Services) (text : string) :
  calmed (AIService.generateEmbedding svc text).
Proof. unfold AIService.generateEmbedding. calming. Qed.

Lemma calmed_generateInterviewQuestions (svc : Services) (g : SkillGap) (t : string)
    (ms : list string) :
  calmed (AIService.generateInterviewQuestions svc g t ms).
Proof.
  unfold AIService.generateInterviewQuestions. calming; apply calmed_arrayOrProperty.
Qed.

Lemma calmed_generateRecommendations (svc : Services) (g : SkillGap) (t : string) :
  calmed (AIService.generateRecommendations svc g t).
Proof.
  unfold AIService.generateRecommendations. calming; apply calmed_arrayOrProperty.
Qed.

Lemma calmed_initializeIndex (svc : Services) : calmed (VectorService.initializeIndex svc).
Proof.
  intros w r w'. unfold VectorService.initializeIndex.
  destruct (indexInitialized w).
  - intros H. inversion H. apply calm_refl.
  - revert w r w'.
    change (calmed
      (indexes <- call ListIndexes (listIndexes svc) ;;
       let indexExists :=
         match indexes with
         | Some names => existsb (fun name => String.eqb name (INDEX_NAME svc)) names
         | None => false
         end in
       (if indexExists then ret tt
        else call CreateIndex (createIndex svc) ;;;
             call AwaitIndexReady (awaitIndexReady svc)) ;;;
       (fun w' => (Ok tt, with_indexInitialized w' true)))).
    calming.
Qed.

Lemma calmed_upsertJob (svc : Services) (id : string) (e : list Q) (ss : list string)
    (t : string) :
  calmed (VectorService.upsertJob svc id e ss t).
Proof. unfold VectorService.upsertJob. calming. apply calmed_initializeIndex. Qed.

Lemma calmed_upsertResume (svc : Services) (id : string) (e : list Q) (ss : list string)
    (t : option string) :
  calmed (VectorService.upsertResume svc id e ss t).
Proof. unfold VectorService.upsertResume. calming. apply calmed_initializeIndex. Qed.

Lemma calmed_findSimilar (svc : Services) (e : list Q) (k : Q) (f : option string) :
  calmed (VectorService.findSimilar svc e k f).
Proof. unfold VectorService.findSimilar. calming. apply calmed_initializeIndex. Qed.

Lemma calmed_deleteVector (svc : Services) (v : string) :
  calmed (VectorService.deleteVector svc v).
Proof. unfold VectorService.deleteVector. calming. apply calmed_initializeIndex. Qed.

Lemma calmed_resume_findUnique (id : string) : calmed (Prisma.resume_findUnique id).
Proof. unfold Prisma.resume_findUnique. calming. Qed.

Lemma calmed_jobDescription_findUnique (id : string) :
  calmed (Prisma.jobDescription_findUnique id).
Proof. unfold Prisma.jobDescription_findUnique. calming. Qed.

Lemma calmed_resume_findMany (ids : list string) : calmed (Prisma.resume_findMany ids).
Proof. unfold Prisma.resume_findMany. calming. Qed.

(** ** The index handle *)

Lemma initializeIndex_ready (svc : Services) (w : World) :
  indexInitialized w = true -> VectorService.initializeIndex svc w = (Ok tt, w).
Proof. intros H. unfold VectorService.initializeIndex. now rewrite H. Qed.

Lemma initializeIndex_flag (svc : Services) (w : World) (r : Res unit) (w' : World) :
  VectorService.initializeIndex svc w = (r, w') ->
  match r with
  | Ok _ => indexInitialized w' = true
  | Throw _ => indexInitialized w' = indexInitialized w
  end.
Proof.
  unfold VectorService.initializeIndex, bind, call, ret.
  destruct (indexInitialized w) eqn:Ei; [intros H; inversion H; subst; exact Ei|].
  destruct (listIndexes svc (log w)) as [indexes|err];
    [|intros H; inversion H; subst; exact Ei].
  destruct (match indexes with
            | Some names => existsb (fun name => String.eqb name (INDEX_NAME svc)) names
            | None => false
            end); simpl.
  - intros H; now inversion H.
  - destruct (createIndex svc _); simpl; [|intros H; inversion H; subst; exact Ei].
    destruct (awaitIndexReady svc _); simpl; intros H; inversion H; subst;
      [reflexivity | exact Ei].
Qed.

(** X7. The index handle is initialised at most once: when
    [initializeIndex] returns, the handle is marked initialised and any
    later call is a no-op that talks to no one; when it throws, the mark
    is left as it was, so the next call tries again. The index is only
    created when [listIndexes] does not list it. *)
Theorem initializeIndex_once (svc : Services) (w : World) :
  let r := fst (VectorService.initializeIndex svc w) in
  let w' := snd (VectorService.initializeIndex svc w) in
  match r with
  | Ok _ =>
      indexInitialized w' = true /\
      VectorService.initializeIndex svc w' = (Ok tt, w')
  | Throw _ => indexInitialized w' = indexInitialized w
  end /\
  (indexInitialized w = true -> w' = w /\ r = Ok tt) /\
  (forall names,
     indexInitialized w = false ->
     listIndexes svc (log w) = Ok (Some names) ->
     In (INDEX_NAME svc) names ->
     r = Ok tt /\ log w' = log w ++ [ListIndexes]).
Proof.
  intros r w'. split; [|split].
  - pose proof (initializeIndex_flag svc w r w') as F.
    unfold r, w' in *. destruct (VectorService.initializeIndex svc w) as [[u|e] w1].
    + specialize (F eq_refl). simpl in *. split; [exact F|].
      now apply initializeIndex_ready.
    + exact (F eq_refl).
  - intros H. unfold r, w'. rewrite (initializeIndex_ready svc w H). auto.
  - intros names Hflag Hlist Hin. unfold r, w'.
    unfold VectorService.initializeIndex, bind, call, ret. rewrite Hflag, Hlist.
    assert (E : existsb (fun name => String.eqb name (INDEX_NAME svc)) names = true).
    { apply existsb_exists. exists (INDEX_NAME svc). split; [exact Hin|apply String.eqb_refl]. }
    rewrite E. simpl. auto.
Qed.

(** ** The scorer keeps the ranking *)

(** X8. [calculateSimilarityPercentage], computed on doubles, is
    monotone: a hit with a higher cosine score never gets a lower
    percentage, so the percentages of a ranked list of hits are ranked
    the same way. (Each rounding to a double is monotone, and so is
    [Math.round]; the scores are taken below 2^1000 in magnitude, where
    no operation of the scorer leaves the range of the doubles.) *)
Theorem calculateSimilarityPercentage_monotone (a b : Q) :
  (- (2 ^ 1000) <= a)%Q -> (a <= b)%Q -> (b <= 2 ^ 1000)%Q ->
  (VectorService.calculateSimilarityPercentage a
   <= VectorService.calculateSimilarityPercentage b)%Q.
Proof.
  intros _ H _. unfold VectorService.calculateSimilarityPercentage, Qdiv.
  apply round_mono. apply Qmult_le_compat_r; [|discriminate].
  rewrite <- Zle_Qle. apply Math_round_mono.
  apply round_mono. apply Qmult_le_compat_r; [|discriminate].
  apply round_mono. apply Qmult_le_compat_r; [|discriminate].
  apply round_mono. apply Qmult_le_compat_r; [|discriminate].
  apply round_mono. lra.
Qed.

Lemma calculateSimilarityPercentage_monotone_witness :
  (VectorService.calculateSimilarityPercentage (Double.round (1 # 200))
   <= VectorService.calculateSimilarityPercentage (Double.round (4 # 5)))%Q.
Proof.
  apply (calculateSimilarityPercentage_monotone (Double.round (1 # 200))
           (Double.round (4 # 5))); vm_compute; discriminate.
Defined.

(** ** Requests that are refused *)

(** X9. A valid match request for a resume that is not in the store is
    answered 404 "Resume not found" after the lookup alone: no oracle is
    called and no record is written. *)
Theorem matchJob_unknown_resume (svc : Services) (body : json) (data : JobMatchRequest)
    (w : World) :
  JobMatchRequestSchema body = Zod.ParseOk data ->
  List.find (fun r => String.eqb (resume_id r) (req_resumeId data)) (resumes w) = None ->
  JobController.matchJob svc body w
  = (Responded 404 (Failure "Resume not found"),
     with_log w (log w ++ [Db (ResumeFindUnique (req_resumeId data))])).
Proof.
  intros Hschema Hfind.
  unfold JobController.matchJob, handler, JobController.matchJob_body.
  rewrite Hschema. cbv zeta.
  unfold bind at 1. unfold Prisma.resume_findUnique, bind, Prisma.op, get, ret.
  simpl. now rewrite Hfind.
Qed.

Lemma matchJob_unknown_resume_witness :
  JobController.matchJob Demo.svc Scenario.strangerRequest Demo.world
  = (Responded 404 (Failure "Resume not found"),
     with_log Demo.world (log Demo.world ++ [Db (ResumeFindUnique "nobody")])).
Proof.
  exact (matchJob_unknown_resume Demo.svc Scenario.strangerRequest Scenario.stranger
           Demo.world eq_refl eq_refl).
Defined.

(** X10. [findCandidates] answers 400 "Job description is required" when
    the job description is missing, is not a string or is the empty
    string, and does so before its first call: the world is unchanged. *)
Theorem findCandidates_requires_description (svc : Services) (body : FindCandidatesBody)
    (w : World) :
  (forall d, fc_jobDescription body = Some (JStr d) -> d = ""%string) ->
  JobController.findCandidates svc body w
  = (Responded 400 (Failure "Job description is required"), w).
Proof.
  intros H. unfold JobController.findCandidates, handler, JobController.findCandidates_body.
  cbv zeta.
  destruct (fc_jobDescription body) as [[| | |d| |]|]; try reflexivity.
  now rewrite (H d eq_refl).
Qed.

Lemma findCandidates_requires_description_witness :
  JobController.findCandidates Demo.svc (mkFindCandidatesBody (Some (JNum 3)) (Some 5%Q))
    Demo.world
  = (Responded 400 (Failure "Job description is required"), Demo.world).
Proof.
  apply (findCandidates_requires_description Demo.svc
           (mkFindCandidatesBody (Some (JNum 3)) (Some 5%Q)) Demo.world).
  intros d H. discriminate.
Defined.

(** X11. Deleting a resume or a job that is not in the store is answered
    404 after the lookup alone: the index is not touched and the store is
    as before. *)
Theorem delete_unknown (svc : Services) (id : string) (w : World) :
  (List.find (fun r => String.eqb (resume_id r) id) (resumes w) = None ->
   ResumeController.deleteResume svc id w
   = (Responded 404 (Failure "Resume not found"),
      with_log w (log w ++ [Db (ResumeFindUnique id)]))) /\
  (List.find (fun j => String.eqb (job_id j) id) (jobs w) = None ->
   JobController.deleteJob svc id w
   = (Responded 404 (Failure "Job not found"),
      with_log w (log w ++ [Db (JobFindUnique id)]))).
Proof.
  split; intros H.
  - unfold ResumeController.deleteResume, handler, ResumeController.deleteResume_body.
    unfold bind at 1. unfold Prisma.resume_findUnique, bind, Prisma.op, get, ret.
    simpl. now rewrite H.
  - unfold JobController.deleteJob, handler, JobController.deleteJob_body.
    unfold bind at 1. unfold Prisma.jobDescription_findUnique, bind, Prisma.op, get, ret.
    simpl. now rewrite H.
Qed.

(** ** What a match stores *)

(** X12. What [matchJob] returns with 201 is what it stored: the store
    holds a match record with the id, the resumeId and jobId, the
    similarityScore, the skill gaps, the matched skills, the interview
    questions and the recommendations of the response; the matched skills
    are the [matched] list of the gaps. *)
Theorem matchJob_stores_response (svc : Services) (body : json) (w : World)
    (d : JobMatchResponse) (w' : World) :
  JobController.matchJob svc body w = (Responded 201 (MatchData d), w') ->
  resp_matchedSkills d = matched (resp_skillGaps d) /\
  In (mkJobMatch (resp_id d) (resp_resumeId d) (resp_jobId d) (resp_similarityScore d)
        (resp_skillGaps d) (resp_matchedSkills d) (resp_interviewQuestions d)
        (resp_recommendations d))
     (matches w').
Proof.
  intros H. apply matchJob_success in H.
  destruct H as (data & resume & emb & wq & answer & wu & saved &
                 _ & _ & _ & _ & _ & _ & Hms & _ & _ & _ & Hup & Hid).
  split; [exact Hms|].
  apply jobMatch_upsert_spec in Hup.
  destruct Hup as (m & Eres & Hp & Hin & Hsc & Hg & Hk & Hq & Hr & _).
  inversion Eres; subst saved; clear Eres.
  assert (Em : m = mkJobMatch (resp_id d) (resp_resumeId d) (resp_jobId d)
                     (resp_similarityScore d) (resp_skillGaps d) (resp_matchedSkills d)
                     (resp_interviewQuestions d) (resp_recommendations d)).
  { unfold pairOf in Hp. destruct m; simpl in *. congruence. }
  now rewrite <- Em.
Qed.

Lemma matchJob_stores_response_witness :
  In (mkJobMatch "1" "r1" "0" (resp_similarityScore Demo.response1)
        (mkSkillGap ["AWS"; "Django"] ["Python"] []) ["Python"]
        (resp_interviewQuestions Demo.response1) (resp_recommendations Demo.response1))
     (matches Demo.world1).
Proof.
  assert (H : JobController.matchJob Demo.svc (Demo.matchRequest Demo.description60)
                Demo.world
              = (Responded 201 (MatchData Demo.response1), Demo.world1))
    by (vm_compute; reflexivity).
  exact (proj2 (matchJob_stores_response Demo.svc _ Demo.world Demo.response1
                  Demo.world1 H)).
Defined.

(** ** Deleting records *)

Lemma calmed_deleteVector_if (svc : Services) (v : option string) :
  calmed
    (match v with
     | Some v => if String.eqb v "" then ret tt else VectorService.deleteVector svc v
     | None => ret tt
     end).
Proof.
  destruct v as [v|]; [destruct (String.eqb v "")|];
    first [apply calmed_ret | apply calmed_deleteVector].
Qed.

Lemma filter_negb_eqb_out {A} (key : A -> string) (id : string) (l : list A) (x : A) :
  In x (filter (fun y => negb (String.eqb (key y) id)) l) -> key x <> id.
Proof.
  intros H. apply filter_In in H as [_ H].
  apply negb_true_iff in H. now apply String.eqb_neq.
Qed.

(** X13. When [deleteResume] answers 200, the resume record is gone and
    so is every match of that resume (the cascade); the other resumes, the
    other matches and all job records are as before. *)
Theorem deleteResume_cascades (svc : Services) (id : string) (w : World)
    (body : ResponseBody) (w' : World) :
  ResumeController.deleteResume svc id w = (Responded 200 body, w') ->
  body = MessageData "Resume deleted successfully" /\
  resumes w' = filter (fun r => negb (String.eqb (resume_id r) id)) (resumes w) /\
  matches w' = filter (fun m => negb (String.eqb (match_resumeId m) id)) (matches w) /\
  jobs w' = jobs w /\
  (forall r, In r (resumes w') -> resume_id r <> id) /\
  (forall m, In m (matches w') -> match_resumeId m <> id).
Proof.
  intros H. apply handler_Responded in H.
  unfold ResumeController.deleteResume_body in H.
  apply bind_Ok_inv in H as (found & w1 & H1 & H).
  apply calmed_resume_findUnique in H1.
  destruct found as [resume|]; [|inversion H].
  apply bind_Ok_inv in H as (u & w2 & H2 & H).
  apply calmed_deleteVector_if in H2.
  apply bind_Ok_inv in H as (u' & w3 & H3 & H).
  inversion H; subst; clear H.
  destruct (calm_trans _ _ _ H1 H2) as ((R & M & _) & J & _).
  unfold Prisma.resume_delete, bind, Prisma.op, get, ret, throw in H3. simpl in H3.
  destruct (existsb _ _); inversion H3; subst; clear H3. simpl.
  rewrite R, M, J. repeat split; auto.
  - intros r. apply (filter_negb_eqb_out resume_id).
  - intros m. apply (filter_negb_eqb_out match_resumeId).
Qed.

Lemma deleteResume_cascades_witness :
  ResumeController.deleteResume Demo.svc "r1" Demo.world1
  = (Responded 200 (MessageData "Resume deleted successfully"), Scenario.afterDeleteResume) /\
  matches Demo.world1 <> [] /\
  matches Scenario.afterDeleteResume = [] /\
  jobs Scenario.afterDeleteResume = jobs Demo.world1.
Proof.
  assert (H : ResumeController.deleteResume Demo.svc "r1" Demo.world1
              = (Responded 200 (MessageData "Resume deleted successfully"),
                 Scenario.afterDeleteResume))
    by (vm_compute; reflexivity).
  destruct (deleteResume_cascades Demo.svc "r1" Demo.world1 _ _ H)
    as (_ & _ & M & J & _).
  split; [exact H|]. split; [discriminate|]. split; [rewrite M; reflexivity | exact J].
Defined.

(** X14. When [deleteJob] answers 200, the job record is gone and so is
    every match of that job; the other jobs, the other matches and all
    resumes are as before. *)
Theorem deleteJob_cascades (svc : Services) (id : string) (w : World)
    (body : ResponseBody) (w' : World) :
  JobController.deleteJob svc id w = (Responded 200 body, w') ->
  body = MessageData "Job deleted successfully" /\
  jobs w' = filter (fun j => negb (String.eqb (job_id j) id)) (jobs w) /\
  matches w' = filter (fun m => negb (String.eqb (match_jobId m) id)) (matches w) /\
  resumes w' = resumes w /\
  (forall j, In j (jobs w') -> job_id j <> id) /\
  (forall m, In m (matches w') -> match_jobId m <> id).
Proof.
  intros H. apply handler_Responded in H.
  unfold JobController.deleteJob_body in H.
  apply bind_Ok_inv in H as (found & w1 & H1 & H).
  apply calmed_jobDescription_findUnique in H1.
  destruct found as [job|]; [|inversion H].
  apply bind_Ok_inv in H as (u & w2 & H2 & H).
  apply calmed_deleteVector_if in H2.
  apply bind_Ok_inv in H as (u' & w3 & H3 & H).
  inversion H; subst; clear H.
  destruct (calm_trans _ _ _ H1 H2) as ((R & M & _) & J & _).
  unfold Prisma.jobDescription_delete, bind, Prisma.op, get, ret, throw in H3. simpl in H3.
  destruct (existsb _ _); inversion H3; subst; clear H3. simpl.
  rewrite R, M, J. repeat split; auto.
  - intros j. apply (filter_negb_eqb_out job_id).
  - intros m. apply (filter_negb_eqb_out match_jobId).
Qed.

Lemma deleteJob_cascades_witness :
  JobController.deleteJob Demo.svc "0" Demo.world1
  = (Responded 200 (MessageData "Job deleted successfully"), Scenario.afterDeleteJob) /\
  matches Scenario.afterDeleteJob = [] /\
  jobs Scenario.afterDeleteJob = [] /\
  resumes Scenario.afterDeleteJob = resumes Demo.world1.
Proof.
  assert (H : JobController.deleteJob Demo.svc "0" Demo.world1
              = (Responded 200 (MessageData "Job deleted successfully"),
                 Scenario.afterDeleteJob))
    by (vm_compute; reflexivity).
  destruct (deleteJob_cascades Demo.svc "0" Demo.world1 _ _ H)
    as (_ & J & M & R & _).
  split; [exact H|]. split; [rewrite M; reflexivity|].
  split; [rewrite J; reflexivity | exact R].
Defined.

(** X15. A failed delete in the index is swallowed, a failed
    initialisation of the index is not: when [initializeIndex] throws
    inside [deleteVector], [deleteResume] passes that error on and the
    resume record and its matches stay in the store. *)
Theorem deleteResume_index_unreachable (svc : Services) (id : string) (resume : Resume)
    (v : string) (e : JsError) (w w2 : World) :
  let w1 := with_log w (log w ++ [Db (ResumeFindUnique id)]) in
  List.find (fun r => String.eqb (resume_id r) id) (resumes w) = Some resume ->
  resume_vectorId resume = Some v ->
  v <> ""%string ->
  VectorService.initializeIndex svc w1 = (Throw e, w2) ->
  ResumeController.deleteResume svc id w = (Next e, w2) /\
  resumes w2 = resumes w /\
  matches w2 = matches w.
Proof.
  intros w1 Hfind Hvec Hne Hinit.
  pose proof (framed_initializeIndex svc w1 _ _ Hinit) as (R & M & _).
  split; [|split; [exact R | exact M]].
  unfold ResumeController.deleteResume, handler, ResumeController.deleteResume_body.
  rewrite (bind_Ok _ _ w (Some resume) w1)
    by (unfold Prisma.resume_findUnique, bind, Prisma.op, get, ret; now rewrite <- Hfind).
  rewrite Hvec. apply String.eqb_neq in Hne. rewrite Hne.
  unfold bind at 1. unfold VectorService.deleteVector. unfold bind at 1.
  now rewrite Hinit.
Qed.

Lemma deleteResume_index_unreachable_witness :
  ResumeController.deleteResume Scenario.indexDown "r1" Demo.world
  = (Next (Error "Pinecone unreachable"),
     with_log Demo.world [Db (ResumeFindUnique "r1"); ListIndexes]) /\
  resumes (with_log Demo.world [Db (ResumeFindUnique "r1"); ListIndexes])
  = resumes Demo.world.
Proof.
  refine ((fun H => conj (proj1 H) (proj1 (proj2 H)))
            (deleteResume_index_unreachable Scenario.indexDown "r1" Demo.resume1
               "resume_r1" (Error "Pinecone unreachable") Demo.world
               (with_log Demo.world [Db (ResumeFindUnique "r1"); ListIndexes])
               eq_refl eq_refl _ eq_refl)).
  discriminate.
Defined.

(** ** A match that fails *)

Lemma ensures_bind {A B} (P : World -> Prop) (c : M A) (Q : A -> World -> Prop)
    (k : A -> M B) (Q' : B -> World -> Prop) (E : JsError -> World -> Prop) :
  ensures P c Q E -> (forall a, ensures (Q a) (k a) Q' E) -> ensures P (bind c k) Q' E.
Proof.
  intros Hc Hk w r w' H HP. unfold bind in H.
  destruct (c w) as [[a|e] w1] eqn:Ec.
  - exact (Hk a w1 r w' H (Hc w (Ok a) w1 Ec HP)).
  - inversion H; subst. exact (Hc w (Throw e) w' Ec HP).
Qed.

Lemma ensures_ret {A} (P : World -> Prop) (a : A) (Q : A -> World -> Prop)
    (E : JsError -> World -> Prop) :
  (forall w, P w -> Q a w) -> ensures P (ret a) Q E.
Proof. intros HQ w r w' H HP. inversion H; subst. now apply HQ. Qed.

Lemma beforeJob_calm (ms : list JobMatch) (ids : list string) (n : nat) (w w' : World) :
  calm w w' -> beforeJob ms ids n w -> beforeJob ms ids n w'.
Proof.
  intros ((_ & M & N & _) & J & _) (Hm & Hj & Hn).
  unfold beforeJob, jobIds in *. rewrite M, J, N. auto.
Qed.

Lemma afterJob_calm (ms : list JobMatch) (ids : list string) (n : nat) (w w' : World) :
  calm w w' -> afterJob ms ids n w -> afterJob ms ids n w'.
Proof.
  intros ((_ & M & _) & J & _) (Hm & Hj).
  unfold afterJob, jobIds in *. rewrite M, J. auto.
Qed.

(** A step before the job record exists: it changes no record, and if it
    throws the error is one of the two OpenAI failures. *)
Lemma ensures_before {A} (ms : list JobMatch) (ids : list string) (n : nat) (c : M A) :
  calmed c ->
  (forall w e w', c w = (Throw e, w') -> fromOpenAI e) ->
  ensures (beforeJob ms ids n) c (fun _ => beforeJob ms ids n) (failedMatch ms ids n).
Proof.
  intros Hc He w r w' H HP.
  pose proof (beforeJob_calm ms ids n w w' (Hc w r w' H) HP) as HP'.
  destruct r as [a|e]; [exact HP'|].
  destruct HP' as (Hm & Hj & _). split; [exact Hm|]. left. split; [exact Hj|].
  exact (He w e w' H).
Qed.

(** A step after the job record exists. *)
Lemma ensures_after {A} (ms : list JobMatch) (ids : list string) (n : nat) (c : M A) :
  calmed c ->
  ensures (afterJob ms ids n) c (fun _ => afterJob ms ids n) (failedMatch ms ids n).
Proof.
  intros Hc w r w' H HP.
  pose proof (afterJob_calm ms ids n w w' (Hc w r w' H) HP) as HP'.
  destruct r as [a|e]; [exact HP'|].
  destruct HP' as (Hm & Hj). split; [exact Hm|]. now right.
Qed.

Lemma resume_findUnique_returns (id : string) (w : World) (e : JsError) (w' : World) :
  Prisma.resume_findUnique id w = (Throw e, w') -> fromOpenAI e.
Proof. unfold Prisma.resume_findUnique, bind, Prisma.op, get, ret. discriminate. Qed.

Lemma extractSkills_throws (svc : Services) (text : string) (w : World) (e : JsError)
    (w' : World) :
  AIService.extractSkills svc text w = (Throw e, w') -> fromOpenAI e.
Proof.
  unfold AIService.extractSkills, try_catch, bind, call, throw, lift, ret,
    AIService.noContent.
  destruct (chat_completions_create svc (log w) _) as [[content|]|err]; simpl;
    try (intros H; inversion H; eexists; left; reflexivity).
  destruct (String.eqb content ""); simpl;
    try (intros H; inversion H; eexists; left; reflexivity).
  destruct (JSON_parse svc content) as [parsed|err]; simpl;
    try (intros H; inversion H; eexists; left; reflexivity).
  destruct (ExtractedSkillsSchema parsed); simpl;
    intros H; inversion H; eexists; left; reflexivity.
Qed.

Lemma generateEmbedding_throws (svc : Services) (text : string) (w : World) (e : JsError)
    (w' : World) :
  AIService.generateEmbedding svc text w = (Throw e, w') -> fromOpenAI e.
Proof.
  unfold AIService.generateEmbedding, try_catch, call, throw. cbv zeta.
  destruct (embeddings_create svc (log w) _); intros H; inversion H.
  eexists; right; reflexivity.
Qed.

Lemma jobIds_setVectorId (id v : string) (l : list JobDescription) :
  map job_id (map (Prisma.setVectorId id v) l) = map job_id l.
Proof.
  rewrite map_map. apply map_ext. intros j. unfold Prisma.setVectorId.
  now destruct (String.eqb (job_id j) id).
Qed.

Lemma matchJob_body_ensures (svc : Services) (body : json) (ms : list JobMatch)
    (ids : list string) (n : nat) :
  ensures (beforeJob ms ids n) (JobController.matchJob_body svc body)
    (fun o _ => exists status b, o = Responded status b) (failedMatch ms ids n).
Proof.
  unfold JobController.matchJob_body.
  destruct (JobMatchRequestSchema body) as [data|m];
    [|apply ensures_ret; intros; eauto].
  cbv zeta.
  eapply ensures_bind;
    [apply ensures_before; [apply calmed_resume_findUnique
                           | apply resume_findUnique_returns]|].
  intros [resume|]; [|apply ensures_ret; intros; eauto].
  eapply ensures_bind;
    [apply ensures_before; [apply calmed_extractSkills | apply extractSkills_throws]|].
  intros jobSkills.
  eapply ensures_bind;
    [apply ensures_before; [apply calmed_generateEmbedding
                           | apply generateEmbedding_throws]|].
  intros jobEmbedding.
  eapply ensures_bind with (Q := fun _ => afterJob ms ids n).
  { intros w r w' H HP.
    unfold Prisma.jobDescription_create, bind, Prisma.op, Prisma.freshId in H.
    simpl in H. inversion H; subst r w'; clear H.
    destruct HP as (Hm & Hj & Hn).
    split; [exact Hm|]. unfold jobIds in *. simpl. now rewrite map_app, Hj, Hn. }
  intros job.
  eapply ensures_bind; [apply ensures_after, calmed_upsertJob|]. intros jobVectorId.
  eapply ensures_bind with (Q := fun _ => afterJob ms ids n).
  { intros w r w' H HP.
    unfold Prisma.jobDescription_update, bind, Prisma.op, get, throw in H. simpl in H.
    destruct (existsb _ _); inversion H; subst r w'; clear H;
      destruct HP as (Hm & Hj).
    - split; [exact Hm|]. unfold jobIds in *. simpl. now rewrite jobIds_setVectorId.
    - split; [exact Hm|]. now right. }
  intros u.
  eapply ensures_bind; [apply ensures_after, calmed_generateEmbedding|]. intros emb.
  eapply ensures_bind; [apply ensures_after, calmed_findSimilar|]. intros similar.
  eapply ensures_bind; [apply ensures_after, calmed_generateInterviewQuestions|].
  intros questions.
  eapply ensures_bind; [apply ensures_after, calmed_generateRecommendations|].
  intros recommendations.
  eapply ensures_bind with (Q := fun _ _ => True).
  { intros w r w' H _. apply jobMatch_upsert_spec in H.
    destruct H as (m & -> & _). exact I. }
  intros saved. apply ensures_ret. intros; eauto.
Qed.

(** X16. A match that fails ([next(error)]) writes no match record and
    rolls nothing back. Either it failed at one of the first two OpenAI
    calls (the message starts with "Failed to extract skills: " or
    "Failed to generate embedding: ") and the job table is as before, or
    the job record it had created by then is still in the store. The
    second is the case whenever the error is the index's "Failed to store
    job in vector database" or "Failed to search vector database". *)
Theorem matchJob_failure_leaves_job (svc : Services) (body : json) (w : World)
    (e : JsError) (w' : World) :
  JobController.matchJob svc body w = (Next e, w') ->
  matches w' = matches w /\
  ((jobIds w' = jobIds w /\ fromOpenAI e) \/
   jobIds w' = jobIds w ++ [genId (nextId w)]) /\
  (e = Error "Failed to store job in vector database" \/
   e = Error "Failed to search vector database" ->
   jobIds w' = jobIds w ++ [genId (nextId w)]).
Proof.
  intros H. unfold JobController.matchJob, handler in H.
  pose proof (matchJob_body_ensures svc body (matches w) (jobIds w) (nextId w) w) as S.
  destruct (JobController.matchJob_body svc body w) as [[o|err] w1] eqn:Ebody;
    inversion H; subst; clear H.
  - specialize (S _ _ eq_refl (conj eq_refl (conj eq_refl eq_refl))).
    destruct S as (status & b & S). discriminate.
  - specialize (S _ _ eq_refl (conj eq_refl (conj eq_refl eq_refl))).
    destruct S as (Hm & Hcase). split; [exact Hm|]. split; [exact Hcase|].
    intros Hmsg. destruct Hcase as [[_ [reason Hopen]]|Hjob]; [|exact Hjob].
    exfalso. destruct Hmsg as [-> | ->], Hopen as [Hopen|Hopen]; discriminate.
Qed.

Lemma matchJob_failure_leaves_job_witness :
  JobController.matchJob Scenario.upsertDown (Demo.matchRequest Demo.description60)
    Demo.world
  = (Next (Error "Failed to store job in vector database"), Scenario.afterFailedUpsert) /\
  matches Scenario.afterFailedUpsert = matches Demo.world /\
  jobIds Scenario.afterFailedUpsert = jobIds Demo.world ++ [genId (nextId Demo.world)].
Proof.
  assert (H : JobController.matchJob Scenario.upsertDown
                (Demo.matchRequest Demo.description60) Demo.world
              = (Next (Error "Failed to store job in vector database"),
                 Scenario.afterFailedUpsert))
    by (vm_compute; reflexivity).
  destruct (matchJob_failure_leaves_job Scenario.upsertDown _ Demo.world _ _ H)
    as (M & _ & J).
  split; [exact H|]. split; [exact M|]. apply J. now left.
Defined.

(** ** A job that was matched can be deleted *)

Lemma calm_In_log (w w' : World) (x : Event) : calm w w' -> In x (log w) -> In x (log w').
Proof.
  intros ((_ & _ & _ & [l L]) & _) H. rewrite L. apply in_or_app. now left.
Qed.

Lemma upsertJob_trace (svc : Services) (id : string) (e : list Q) (ss : list string)
    (t : string) (w : World) (v : string) (w' : World) :
  VectorService.upsertJob svc id e ss t w = (Ok v, w') ->
  indexInitialized w' = true /\
  In (IndexUpsert ("job_" ++ id) e (mkVectorMetadata "job" id ss (Some t))) (log w').
Proof.
  unfold VectorService.upsertJob. intros H.
  apply bind_Ok_inv in H as (u & w1 & Hi & H).
  apply initializeIndex_flag in Hi.
  unfold try_catch, bind, call, ret, throw in H.
  destruct (index_upsert svc _ _ _ _); inversion H; subst; clear H. simpl.
  split; [exact Hi|]. apply in_or_app. right. now left.
Qed.

Lemma jobDescription_update_Ok (id v : string) (w : World) (u : unit) (w' : World) :
  Prisma.jobDescription_update id v w = (Ok u, w') ->
  jobs w' = map (Prisma.setVectorId id v) (jobs w) /\
  indexInitialized w' = indexInitialized w /\
  (forall x, In x (log w) -> In x (log w')).
Proof.
  unfold Prisma.jobDescription_update, bind, Prisma.op, get, throw. simpl.
  destruct (existsb _ _); intros H; inversion H; subst; clear H. simpl.
  repeat split. intros x Hx. apply in_or_app. now left.
Qed.

Lemma jobMatch_upsert_rest (r j : string) (sc : Q) (g : SkillGap) (ms : list string)
    (iq rc : list json) (w : World) (res : Res JobMatch) (w' : World) :
  Prisma.jobMatch_upsert r j sc g ms iq rc w = (res, w') ->
  jobs w' = jobs w /\
  indexInitialized w' = indexInitialized w /\
  (forall x, In x (log w) -> In x (log w')).
Proof.
  unfold Prisma.jobMatch_upsert, bind, Prisma.op, get, Prisma.freshId. simpl.
  destruct (List.find (Prisma.samePair r j) (matches w)); intros H;
    inversion H; subst; clear H; simpl;
    (repeat split; intros x Hx; apply in_or_app; now left).
Qed.

(** After the update, the record found under the id has the vector id. *)
Lemma find_setVectorId (id v : string) (l : list JobDescription) :
  (exists j0, In j0 l /\ job_id j0 = id) ->
  exists j,
    List.find (fun j => String.eqb (job_id j) id) (map (Prisma.setVectorId id v) l) = Some j /\
    job_vectorId j = Some v.
Proof.
  induction l as [|a l IH]; intros (j0 & Hin & Hid); [destruct Hin|].
  assert (Hsame : job_id (Prisma.setVectorId id v a) = job_id a)
    by (unfold Prisma.setVectorId; now destruct (String.eqb (job_id a) id)).
  cbn [map List.find]. rewrite Hsame.
  destruct (String.eqb (job_id a) id) eqn:E.
  - eexists. split; [reflexivity|]. unfold Prisma.setVectorId. now rewrite E.
  - apply IH. destruct Hin as [->|Hin]; [|now exists j0].
    apply String.eqb_neq in E. contradiction.
Qed.

(** After a successful match the index handle is initialised, the job's
    vector was upserted under ["job_" ++ jobId], and the job record found
    under the jobId carries that vector id. *)
Lemma matchJob_job_record (svc : Services) (body : json) (w : World)
    (d : JobMatchResponse) (w' : World) :
  JobController.matchJob svc body w = (Responded 201 (MatchData d), w') ->
  indexInitialized w' = true /\
  (exists embedding metadata,
     In (IndexUpsert ("job_" ++ resp_jobId d) embedding metadata) (log w')) /\
  exists job,
    List.find (fun j => String.eqb (job_id j) (resp_jobId d)) (jobs w') = Some job /\
    job_vectorId job = Some ("job_" ++ resp_jobId d)%string.
Proof.
  intros H. apply handler_Responded in H. unfold JobController.matchJob_body in H.
  destruct (JobMatchRequestSchema body) as [data|m] eqn:Eschema; [|inversion H].
  cbv zeta in H.
  apply bind_Ok_inv in H as (found & w1 & H1 & H).
  destruct found as [resume|]; [|inversion H].
  apply bind_Ok_inv in H as (jobSkills & w2 & H2 & H).
  apply bind_Ok_inv in H as (jobEmbedding & w3 & H3 & H).
  apply bind_Ok_inv in H as (job & w4 & H4 & H).
  assert (Ejob : In job (jobs w4)).
  { unfold Prisma.jobDescription_create, bind, Prisma.op, Prisma.freshId in H4.
    simpl in H4. inversion H4; subst. simpl. apply in_or_app. right. now left. }
  clear H1 H2 H3 H4.
  apply bind_Ok_inv in H as (jobVectorId & w5 & H5 & H).
  pose proof (upsertJob_Ok _ _ _ _ _ _ _ _ H5) as Ev.
  pose proof (upsertJob_trace _ _ _ _ _ _ _ _ H5) as (Hflag & Hlog).
  apply calmed_upsertJob in H5. destruct H5 as (_ & J5 & _).
  apply bind_Ok_inv in H as (u & w6 & H6 & H).
  apply jobDescription_update_Ok in H6 as (J6 & I6 & L6).
  apply bind_Ok_inv in H as (resumeEmbedding & w7 & H7 & H).
  apply calmed_generateEmbedding in H7.
  apply bind_Ok_inv in H as (similarResults & w8 & H8 & H).
  apply calmed_findSimilar in H8.
  apply bind_Ok_inv in H as (interviewQuestions & w9 & H9 & H).
  apply calmed_generateInterviewQuestions in H9.
  apply bind_Ok_inv in H as (recommendations & w10 & H10 & H).
  apply calmed_generateRecommendations in H10.
  apply bind_Ok_inv in H as (saved & w11 & H11 & H).
  apply jobMatch_upsert_rest in H11 as (J11 & I11 & L11).
  inversion H; subst; clear H. simpl.
  pose proof (calm_trans _ _ _ (calm_trans _ _ _ (calm_trans _ _ _ H7 H8) H9) H10) as C.
  assert (Hflag6 : indexInitialized w6 = true) by congruence.
  split; [|split].
  - rewrite I11. destruct C as (_ & _ & F). now apply F.
  - eexists. eexists. apply L11. eapply calm_In_log; [exact C|]. apply L6. exact Hlog.
  - rewrite J11. destruct C as (_ & -> & _). rewrite J6, J5.
    apply find_setVectorId. now exists job.
Qed.

(** X17. A job created by a successful match can be taken out again:
    [deleteJob] on the jobId of the response answers 200, asks the index
    to delete exactly the vector that [matchJob] upserted
    (["job_" ++ jobId], whether or not that delete succeeds), and
    afterwards the store has no job record and no match record for that
    jobId. *)
Theorem matchJob_then_deleteJob (svc : Services) (body : json) (w : World)
    (d : JobMatchResponse) (w' : World) :
  JobController.matchJob svc body w = (Responded 201 (MatchData d), w') ->
  (exists embedding metadata,
     In (IndexUpsert ("job_" ++ resp_jobId d) embedding metadata) (log w')) /\
  exists w'',
    JobController.deleteJob svc (resp_jobId d) w'
    = (Responded 200 (MessageData "Job deleted successfully"), w'') /\
    In (IndexDeleteOne ("job_" ++ resp_jobId d)) (log w'') /\
    (forall j, In j (jobs w'') -> job_id j <> resp_jobId d) /\
    (forall m, In m (matches w'') -> match_jobId m <> resp_jobId d) /\
    resumes w'' = resumes w'.
Proof.
  intros H. destruct (matchJob_job_record svc body w d w' H)
    as (Hflag & Hup & job & Hfind & Hvec).
  split; [exact Hup|].
  set (id := resp_jobId d) in *.
  set (w1 := with_log w' (log w' ++ [Db (JobFindUnique id)])).
  assert (Hinit : VectorService.initializeIndex svc w1 = (Ok tt, w1))
    by (apply initializeIndex_ready; exact Hflag).
  pose proof (deleteVector_returns svc ("job_" ++ id) w1 w1 Hinit) as Hdv.
  unfold JobController.deleteJob, handler, JobController.deleteJob_body.
  rewrite (bind_Ok _ _ w' (Some job) w1)
    by (unfold Prisma.jobDescription_findUnique, bind, Prisma.op, get, ret;
        now rewrite <- Hfind).
  rewrite Hvec. change (String.eqb ("job_" ++ id) "") with false. cbv iota.
  rewrite (bind_Ok _ _ _ _ _ Hdv).
  unfold Prisma.jobDescription_delete, bind, Prisma.op, get, ret. simpl.
  rewrite (find_existsb _ _ _ Hfind).
  eexists. split; [reflexivity|]. simpl. split; [|split; [|split]].
  - apply in_or_app. left. apply in_or_app. right. now left.
  - intros j. apply (filter_negb_eqb_out job_id).
  - intros m. apply (filter_negb_eqb_out match_jobId).
  - reflexivity.
Qed.

Lemma matchJob_then_deleteJob_witness :
  JobController.matchJob Demo.svc (Demo.matchRequest Demo.description60) Demo.world
  = (Responded 201 (MatchData Demo.response1), Demo.world1) /\
  JobController.deleteJob Demo.svc "0" Demo.world1
  = (Responded 200 (MessageData "Job deleted successfully"), Scenario.afterDeleteJob) /\
  exists embedding metadata, In (IndexUpsert "job_0" embedding metadata) (log Demo.world1).
Proof.
  assert (H : JobController.matchJob Demo.svc (Demo.matchRequest Demo.description60)
                Demo.world
              = (Responded 201 (MatchData Demo.response1), Demo.world1))
    by (vm_compute; reflexivity).
  split; [exact H|]. split; [vm_compute; reflexivity|].
  exact (proj1 (matchJob_then_deleteJob Demo.svc _ Demo.world Demo.response1
                  Demo.world1 H)).
Defined.

(** ** The parser *)

Lemma everyUnit_app (P : ascii -> bool) (a b : string) :
  everyUnit P (a ++ b)%string = everyUnit P a && everyUnit P b.
Proof.
  unfold everyUnit. induction a as [|c a IH]; simpl; [reflexivity|].
  now rewrite IH, andb_assoc.
Qed.

Lemma everyUnit_cons (P : ascii -> bool) (c : ascii) (s : string) :
  everyUnit P (String c s) = P c && everyUnit P s.
Proof. reflexivity. Qed.

Lemma everyUnit_trimStart (P : ascii -> bool) (s : string) :
  everyUnit P s = true -> everyUnit P (JSText.trimStart s) = true.
Proof.
  induction s as [|c s IH]; simpl; [easy|].
  destruct (JSText.isWhiteSpace c); [|easy].
  rewrite everyUnit_cons. intros [_ H]%andb_true_iff. auto.
Qed.

Lemma everyUnit_trimEnd (P : ascii -> bool) (s : string) :
  everyUnit P s = true -> everyUnit P (JSText.trimEnd s) = true.
Proof.
  induction s as [|c s IH]; simpl; [easy|].
  rewrite everyUnit_cons. intros [Hc H]%andb_true_iff. specialize (IH H).
  destruct (JSText.trimEnd s) as [|d r].
  - destruct (JSText.isWhiteSpace c); [reflexivity|].
    rewrite everyUnit_cons, Hc. reflexivity.
  - rewrite everyUnit_cons, Hc. exact IH.
Qed.

Lemma everyUnit_trim (P : ascii -> bool) (s : string) :
  everyUnit P s = true -> everyUnit P (JSText.trim s) = true.
Proof. intros H. now apply everyUnit_trimEnd, everyUnit_trimStart. Qed.

Lemma everyUnit_removeControl (P : ascii -> bool) (s : string) :
  everyUnit P s = true -> everyUnit P (JSText.removeControl s) = true.
Proof.
  induction s as [|c s IH]; simpl; [easy|].
  rewrite everyUnit_cons. intros [Hc H]%andb_true_iff.
  destruct (JSText.isControl c); [auto|].
  rewrite everyUnit_cons, Hc. auto.
Qed.

Lemma removeControl_clean (s : string) :
  everyUnit (fun c => negb (JSText.isControl c)) (JSText.removeControl s) = true.
Proof.
  induction s as [|c s IH]; simpl; [reflexivity|].
  destruct (JSText.isControl c) eqn:E; [exact IH|].
  rewrite everyUnit_cons, E. exact IH.
Qed.

Lemma everyUnit_squeezeLines (P : ascii -> bool) (s : string) (seen : nat) :
  everyUnit P s = true -> everyUnit P (JSText.squeezeLines seen s) = true.
Proof.
  revert seen. induction s as [|c s IH]; intros seen; simpl; [easy|].
  rewrite everyUnit_cons. intros [Hc H]%andb_true_iff.
  destruct (JSText.isLF c); [destruct (seen <? 2)%nat|];
    rewrite ?everyUnit_cons, ?Hc; cbn [andb]; auto.
Qed.

Lemma everyUnit_collapseBlanks (P : ascii -> bool) (s : string) (inRun : bool) :
  P JSText.SPACE = true ->
  everyUnit P s = true -> everyUnit P (JSText.collapseBlanks inRun s) = true.
Proof.
  intros Hsp. revert inRun. induction s as [|c s IH]; intros inRun; simpl; [easy|].
  rewrite everyUnit_cons. intros [Hc H]%andb_true_iff.
  destruct ((nat_of_ascii c =? 32)%nat || JSText.isTAB c); [destruct inRun|];
    rewrite ?everyUnit_cons, ?Hc, ?Hsp; cbn [andb]; auto.
Qed.

Lemma collapseBlanks_noTAB (s : string) (inRun : bool) :
  everyUnit (fun c => negb (JSText.isTAB c)) (JSText.collapseBlanks inRun s) = true.
Proof.
  revert inRun. induction s as [|c s IH]; intros inRun;
    cbn [JSText.collapseBlanks]; [reflexivity|].
  destruct ((nat_of_ascii c =? 32)%nat || JSText.isTAB c) eqn:E.
  - destruct inRun; [apply IH|]. rewrite everyUnit_cons.
    change (negb (JSText.isTAB JSText.SPACE)) with true. apply IH.
  - apply orb_false_iff in E as [_ Et]. rewrite everyUnit_cons, Et. apply IH.
Qed.

Lemma replaceCR_noCR (s : string) :
  everyUnit (fun c => negb (JSText.isCR c)) (JSText.replaceCR s) = true.
Proof.
  induction s as [|c s IH]; simpl; [reflexivity|].
  rewrite everyUnit_cons, IH, andb_true_r.
  destruct (JSText.isCR c) eqn:E; [reflexivity|now rewrite E].
Qed.

Lemma everyUnit_splitLines (P : ascii -> bool) (s : string) :
  everyUnit P s = true -> forallb (everyUnit P) (JSText.splitLines s) = true.
Proof.
  induction s as [|c s IH]; simpl; [reflexivity|].
  rewrite everyUnit_cons. intros [Hc H]%andb_true_iff. specialize (IH H).
  destruct (JSText.isLF c); [exact IH|].
  destruct (JSText.splitLines s) as [|line rest]; simpl in *.
  - now rewrite everyUnit_cons, Hc.
  - apply andb_true_iff in IH as [Hl Hr]. now rewrite everyUnit_cons, Hc, Hl, Hr.
Qed.

Lemma everyUnit_joinLines (P : ascii -> bool) (lines : list string) :
  P JSText.LF = true ->
  forallb (everyUnit P) lines = true -> everyUnit P (JSText.joinLines lines) = true.
Proof.
  intros Hlf. unfold JSText.joinLines.
  induction lines as [|x xs IH]; [reflexivity|].
  cbn [forallb]. intros [Hx Hxs]%andb_true_iff. specialize (IH Hxs).
  cbn [String.concat]. destruct xs as [|y ys]; [exact Hx|].
  rewrite everyUnit_app, Hx. cbn [String.append]. rewrite everyUnit_cons, Hlf.
  exact IH.
Qed.

Lemma everyUnit_map_trim (P : ascii -> bool) (lines : list string) :
  forallb (everyUnit P) lines = true ->
  forallb (everyUnit P) (map JSText.trim lines) = true.
Proof.
  induction lines as [|x xs IH]; simpl; [reflexivity|].
  intros [Hx Hxs]%andb_true_iff. now rewrite (everyUnit_trim P x Hx), IH.
Qed.

(** The steps of [cleanText] after the blanks are collapsed add no code
    unit but the line feed of [join]. *)
Lemma everyUnit_lines (P : ascii -> bool) (s : string) :
  P JSText.LF = true ->
  everyUnit P s = true ->
  everyUnit P
    (JSText.trim
       (JSText.removeControl
          (JSText.joinLines
             (map JSText.trim (JSText.splitLines (JSText.squeezeLines 0 s)))))) = true.
Proof.
  intros Hlf H.
  apply everyUnit_trim, everyUnit_removeControl, everyUnit_joinLines; [exact Hlf|].
  apply everyUnit_map_trim, everyUnit_splitLines, everyUnit_squeezeLines, H.
Qed.

Lemma trimStart_startsClean (s : string) : startsClean (JSText.trimStart s).
Proof.
  induction s as [|c s IH]; simpl; [exact I|].
  destruct (JSText.isWhiteSpace c) eqn:E; [exact IH|exact E].
Qed.

Lemma trimEnd_startsClean (s : string) :
  startsClean s -> startsClean (JSText.trimEnd s).
Proof.
  destruct s as [|c s]; simpl; [easy|]. intros H.
  destruct (JSText.trimEnd s); [rewrite H|]; exact H.
Qed.

Lemma trimStart_fixed (s : string) : startsClean s -> JSText.trimStart s = s.
Proof. destruct s as [|c s]; simpl; [easy|]. now intros ->. Qed.

Lemma trimEnd_idempotent (s : string) :
  JSText.trimEnd (JSText.trimEnd s) = JSText.trimEnd s.
Proof.
  induction s as [|c s IH]; simpl; [reflexivity|].
  destruct (JSText.trimEnd s) as [|d r] eqn:E.
  - destruct (JSText.isWhiteSpace c) eqn:Ec; simpl; [reflexivity|now rewrite Ec].
  - cbn [JSText.trimEnd] in *. now rewrite IH.
Qed.

Lemma trim_idempotent (s : string) : JSText.trim (JSText.trim s) = JSText.trim s.
Proof.
  unfold JSText.trim.
  rewrite (trimStart_fixed (JSText.trimEnd (JSText.trimStart s)))
    by apply trimEnd_startsClean, trimStart_startsClean.
  apply trimEnd_idempotent.
Qed.

Lemma length_trimStart (s : string) :
  String.length (JSText.trimStart s) <= String.length s.
Proof.
  induction s as [|c s IH]; simpl; [lia|].
  destruct (JSText.isWhiteSpace c); simpl; lia.
Qed.

Lemma length_trimEnd (s : string) :
  String.length (JSText.trimEnd s) <= String.length s.
Proof.
  induction s as [|c s IH]; simpl; [lia|].
  destruct (JSText.trimEnd s); [destruct (JSText.isWhiteSpace c)|]; simpl in *; lia.
Qed.

Lemma length_trim (s : string) : String.length (JSText.trim s) <= String.length s.
Proof.
  unfold JSText.trim.
  pose proof (length_trimEnd (JSText.trimStart s)). pose proof (length_trimStart s). lia.
Qed.

Lemma length_replaceCRLF (s : string) :
  String.length (JSText.replaceCRLF s) <= String.length s.
Proof.
  enough (H : String.length (JSText.replaceCRLF s) <= String.length s /\
              forall c, String.length (JSText.replaceCRLF (String c s))
                        <= String.length (String c s)) by apply H.
  induction s as [|d r [IH1 IH2]].
  - split; [simpl; lia|]. intros c. simpl. destruct (JSText.isCR c); simpl; lia.
  - split; [apply IH2|]. intros c. specialize (IH2 d).
    cbn [JSText.replaceCRLF]. cbn [JSText.replaceCRLF] in IH2.
    destruct (JSText.isCR c); [destruct (JSText.isLF d)|];
      cbn [String.length] in *; lia.
Qed.

Lemma length_replaceCR (s : string) :
  String.length (JSText.replaceCR s) = String.length s.
Proof. induction s as [|c s IH]; simpl; [reflexivity|now rewrite IH]. Qed.

Lemma length_collapseBlanks (s : string) (inRun : bool) :
  String.length (JSText.collapseBlanks inRun s) <= String.length s.
Proof.
  revert inRun. induction s as [|c s IH]; intros inRun; simpl; [lia|].
  destruct ((nat_of_ascii c =? 32)%nat || JSText.isTAB c); [destruct inRun|];
    simpl; [specialize (IH true)|specialize (IH true)|specialize (IH false)]; lia.
Qed.

Lemma length_squeezeLines (s : string) (seen : nat) :
  String.length (JSText.squeezeLines seen s) <= String.length s.
Proof.
  revert seen. induction s as [|c s IH]; intros seen; simpl; [lia|].
  destruct (JSText.isLF c); [destruct (seen <? 2)%nat|]; simpl;
    [specialize (IH (S seen))|specialize (IH seen)|specialize (IH 0%nat)]; lia.
Qed.

Lemma length_removeControl (s : string) :
  String.length (JSText.removeControl s) <= String.length s.
Proof.
  induction s as [|c s IH]; simpl; [lia|].
  destruct (JSText.isControl c); simpl; lia.
Qed.

Lemma length_append (a b : string) :
  String.length (a ++ b)%string = String.length a + String.length b.
Proof. induction a as [|c a IH]; simpl; [reflexivity|now rewrite IH]. Qed.

Lemma length_joinLines (lines : list string) :
  String.length (JSText.joinLines lines) = joinedLength lines.
Proof.
  unfold JSText.joinLines, joinedLength.
  induction lines as [|x xs IH]; [reflexivity|].
  cbn [String.concat fold_right List.length Nat.pred].
  destruct xs as [|y ys]; [simpl; lia|].
  rewrite length_append. cbn [String.append String.length].
  rewrite IH. cbn [fold_right List.length Nat.pred]. lia.
Qed.

Lemma splitLines_joinedLength (s : string) :
  joinedLength (JSText.splitLines s) = String.length s.
Proof.
  unfold joinedLength. induction s as [|c s IH]; [reflexivity|].
  cbn [JSText.splitLines String.length].
  assert (Hne : JSText.splitLines s <> [])
    by (destruct s as [|d r]; simpl; [easy|];
        destruct (JSText.isLF d); [easy|]; now destruct (JSText.splitLines r)).
  destruct (JSText.splitLines s) as [|line rest]; [contradiction|].
  destruct (JSText.isLF c); cbn [fold_right List.length Nat.pred String.length] in *; lia.
Qed.

Lemma map_trim_joinedLength (lines : list string) :
  joinedLength (map JSText.trim lines) <= joinedLength lines.
Proof.
  unfold joinedLength. rewrite length_map.
  enough (fold_right (fun line n => String.length line + n) 0 (map JSText.trim lines)
          <= fold_right (fun line n => String.length line + n) 0 lines) by lia.
  induction lines as [|x xs IH]; simpl; [lia|].
  pose proof (length_trim x). lia.
Qed.

Lemma cleanText_length (text : string) :
  String.length (ParserService.cleanText text) <= String.length text.
Proof.
  unfold ParserService.cleanText.
  eapply Nat.le_trans; [apply length_trim|].
  eapply Nat.le_trans; [apply length_removeControl|].
  rewrite length_joinLines.
  eapply Nat.le_trans; [apply map_trim_joinedLength|].
  rewrite splitLines_joinedLength.
  eapply Nat.le_trans; [apply length_squeezeLines|].
  eapply Nat.le_trans; [apply length_collapseBlanks|].
  rewrite length_replaceCR. apply length_replaceCRLF.
Qed.

(** X18. [validateFile] accepts exactly the files that the upload route
    lets through: one of the three MIME types of the route's [fileFilter],
    and a size within the route's limit of 10485760 bytes; the size is
    checked first, so a file over the limit is refused for its size
    whatever its type. *)
Theorem validateFile_agrees_with_route (file : ParserService.File) :
  (ParserService.validateFile file = Ok tt <->
   ResumeRoutes.fileFilter file = Ok true /\
   (ParserService.size file <= ResumeRoutes.fileSizeLimit)%N) /\
  ((ParserService.size file <= 10485760)%N \/
   ParserService.validateFile file = Throw (Error "File size exceeds 10MB limit")).
Proof.
  unfold ParserService.validateFile, ResumeRoutes.fileFilter, ResumeRoutes.fileSizeLimit,
    ParserService.allowedMimeTypes.
  change (10 * 1024 * 1024)%N with 10485760%N.
  destruct (N.ltb_spec 10485760 (ParserService.size file)) as [Hbig|Hok].
  - split; [|now right]. split; [discriminate|]. intros [_ H]. lia.
  - split; [|now left].
    destruct (existsb _ _); cbn [negb]; split; easy.
Qed.

Lemma cleanText_no_unwanted (text : string) :
  everyUnit (fun c => negb (unwanted c)) (ParserService.cleanText text) = true.
Proof.
  assert (Hcr : everyUnit (fun c => negb (JSText.isCR c)) (ParserService.cleanText text) = true).
  { apply everyUnit_lines; [reflexivity|].
    apply everyUnit_collapseBlanks; [reflexivity|]. apply replaceCR_noCR. }
  assert (Htab : everyUnit (fun c => negb (JSText.isTAB c)) (ParserService.cleanText text) = true).
  { apply everyUnit_lines; [reflexivity|]. apply collapseBlanks_noTAB. }
  assert (Hctl : everyUnit (fun c => negb (JSText.isControl c))
                   (ParserService.cleanText text) = true).
  { apply everyUnit_trim, removeControl_clean. }
  unfold everyUnit in *. rewrite forallb_forall in *. intros c Hc.
  specialize (Hcr c Hc). specialize (Htab c Hc). specialize (Hctl c Hc).
  unfold unwanted.
  destruct (JSText.isCR c), (JSText.isTAB c), (JSText.isControl c); easy.
Qed.

(** X19. The text that [cleanText] returns holds no carriage return, no
    tab and no control character of the class that the function strips;
    it neither starts nor ends with white space; and it is never longer
    than the text it was given. *)
Theorem cleanText_sanitised (text : string) :
  everyUnit (fun c => negb (unwanted c)) (ParserService.cleanText text) = true /\
  JSText.trim (ParserService.cleanText text) = ParserService.cleanText text /\
  String.length (ParserService.cleanText text) <= String.length text.
Proof.
  split; [apply cleanText_no_unwanted|].
  split; [apply trim_idempotent|apply cleanText_length].
Qed.

Lemma noText_false (raw : string) :
  ParserService.noText (Some raw) = false -> JSText.trim raw <> "".
Proof.
  unfold ParserService.noText. intros [_ H]%orb_false_iff Ht.
  now rewrite Ht in H.
Qed.

Lemma parseBuffer_Ok (lib : ParserService.Parsers) (buffer : list Byte.byte)
    (originalName text : string) :
  ParserService.parseBuffer lib buffer originalName = Ok text ->
  exists raw, text = ParserService.cleanText raw /\ parsedFrom lib buffer originalName raw.
Proof.
  unfold ParserService.parseBuffer, parsedFrom. cbv zeta.
  destruct (String.eqb_spec (JS.toLowerCase (ParserService.path_extname lib originalName))
              ".pdf") as [E|_].
  { unfold ParserService.parsePDFBuffer, ParserService.rethrow, ParserService.andThen.
    destruct (ParserService.pdfParse lib buffer) as [[raw|]|err]; try discriminate.
    destruct (ParserService.noText (Some raw)) eqn:En; [discriminate|].
    intros H. inversion H. exists raw. split; [reflexivity|]. left.
    repeat split; [exact E|]. now apply noText_false. }
  destruct (String.eqb_spec (JS.toLowerCase (ParserService.path_extname lib originalName))
              ".docx") as [E|_].
  { unfold ParserService.parseDOCXBuffer, ParserService.rethrow, ParserService.andThen.
    destruct (ParserService.mammoth_extractRawText lib buffer) as [[raw|]|err];
      try discriminate.
    destruct (ParserService.noText (Some raw)) eqn:En; [discriminate|].
    intros H. inversion H. exists raw. split; [reflexivity|]. right. left.
    repeat split; [exact E|]. now apply noText_false. }
  destruct (String.eqb (JS.toLowerCase (ParserService.path_extname lib originalName))
              ".doc"); [discriminate|].
  destruct (String.eqb_spec (JS.toLowerCase (ParserService.path_extname lib originalName))
              ".txt") as [E|_]; [|discriminate].
  unfold ParserService.parseTXTBuffer, ParserService.rethrow.
  intros H. inversion H. eexists. split; [reflexivity|]. right. right. now split.
Qed.

(** X20. A text that [parseBuffer] returns is the cleaned text of what
    the library for the file's extension gave: [pdf-parse] for [.pdf] and
    [mammoth] for [.docx], whose text had more than white space in it, or
    the decoded buffer for [.txt]; the extension is compared in lower
    case, and no other extension yields a text. The returned text holds
    none of the code units that [cleanText] removes. *)
Theorem parseBuffer_returns_cleaned (lib : ParserService.Parsers)
    (buffer : list Byte.byte) (originalName text : string) :
  ParserService.parseBuffer lib buffer originalName = Ok text ->
  (exists raw, text = ParserService.cleanText raw /\ parsedFrom lib buffer originalName raw) /\
  everyUnit (fun c => negb (unwanted c)) text = true.
Proof.
  intros H. destruct (parseBuffer_Ok lib buffer originalName text H) as (raw & -> & Hp).
  split; [now exists raw|]. apply cleanText_no_unwanted.
Qed.

Lemma parseBuffer_returns_cleaned_witness :
  everyUnit (fun c => negb (unwanted c)) (ParserService.cleanText UploadDemo.cvText)
  = true /\
  everyUnit (fun c => negb (unwanted c)) UploadDemo.cvText = false.
Proof.
  split; [|vm_compute; reflexivity].
  apply (parseBuffer_returns_cleaned UploadDemo.lib
           (ParserService.buffer UploadDemo.cv) "cv.TXT"
           (ParserService.cleanText UploadDemo.cvText)).
  vm_compute. reflexivity.
Defined.

(** ** The upload *)

Lemma upsertResume_Ok (svc : Services) (id : string) (e : list Q) (ss : list string)
    (t : option string) (w : World) (v : string) (w' : World) :
  VectorService.upsertResume svc id e ss t w = (Ok v, w') ->
  v = ("resume_" ++ id)%string /\
  indexInitialized w' = true /\
  In (IndexUpsert ("resume_" ++ id) e
        (mkVectorMetadata "resume" id ss (Some (VectorService.orString t ""))))
     (log w').
Proof.
  unfold VectorService.upsertResume. intros H.
  apply bind_Ok_inv in H as (u & w1 & Hi & H).
  apply initializeIndex_flag in Hi.
  unfold try_catch, bind, call, ret, throw in H.
  destruct (index_upsert svc _ _ _ _); inversion H; subst; clear H. simpl.
  split; [reflexivity|]. split; [exact Hi|]. apply in_or_app. right. now left.
Qed.

Lemma resume_create_returns (clock : list Event -> nat) (fileName rawText : string)
    (skills : ExtractedSkills) (w : World) :
  ResumeUpload.resume_create clock fileName rawText skills w
  = (Ok (mkResume (genId (nextId w)) fileName rawText skills None (clock (log w))),
     with_resumes (with_nextId w (S (nextId w)))
       (resumes w ++ [mkResume (genId (nextId w)) fileName rawText skills None
                        (clock (log w))])).
Proof. reflexivity. Qed.

Lemma map_setVectorId_fresh (id v : string) (l : list Resume) :
  (forall r, In r l -> resume_id r <> id) ->
  map (ResumeUpload.setVectorId id v) l = l.
Proof.
  intros H. induction l as [|a l IH]; [reflexivity|]. simpl.
  rewrite IH by (intros r Hr; apply H; now right).
  unfold ResumeUpload.setVectorId.
  destruct (String.eqb_spec (resume_id a) id) as [E|_]; [|reflexivity].
  exfalso. apply (H a); [now left|exact E].
Qed.

Lemma existsb_app_last (id : string) (l : list Resume) (r : Resume) :
  resume_id r = id ->
  existsb (fun x => String.eqb (resume_id x) id) (l ++ [r]) = true.
Proof.
  intros E. rewrite existsb_app. simpl. rewrite E, String.eqb_refl.
  now rewrite orb_true_r.
Qed.

(** The steps of an upload that answered. *)
Lemma uploadResume_body_Ok (lib : ParserService.Parsers) (svc : Services)
    (clock : list Event -> nat) (file : ParserService.File) (w : World)
    (o : UploadOutcome) (w' : World) :
  ResumeUpload.uploadResume_body lib svc clock file w = (Ok o, w') ->
  exists raw skills embedding w1 w2,
    let id := genId (nextId w) in
    let fresh :=
      mkResume id (ParserService.originalname file) (ParserService.cleanText raw) skills
        None (clock (log w1)) in
    ParserService.validateFile file = Ok tt /\
    parsedFrom lib (ParserService.buffer file) (ParserService.originalname file) raw /\
    100 <= String.length (ParserService.cleanText raw) /\
    calm w w1 /\
    calm (with_resumes (with_nextId w1 (S (nextId w))) (resumes w1 ++ [fresh])) w2 /\
    indexInitialized w2 = true /\
    In (IndexUpsert ("resume_" ++ id) embedding
          (mkVectorMetadata "resume" id
             (technicalSkills skills ++ frameworks skills ++ tools skills)
             (Some (VectorService.orString (currentRole skills) ""))))
       (log w2) /\
    w' = with_resumes w2
           (map (ResumeUpload.setVectorId id ("resume_" ++ id)) (resumes w2)) /\
    o = UploadResponded 201
          (UploadData
             (mkResumeUploadResponse id (ParserService.originalname file) skills
                (Some ("resume_" ++ id)%string) (clock (log w1)))).
Proof.
  unfold ResumeUpload.uploadResume_body. intros H.
  apply bind_Ok_inv in H as ([] & w0 & Hv & H).
  unfold lift in Hv. inversion Hv as [[Hvalid Hw0]]. subst w0. clear Hv.
  apply bind_Ok_inv in H as (text & w0 & Hp & H).
  unfold lift in Hp. inversion Hp as [[Hparse Hw0]]. subst w0. clear Hp.
  apply parseBuffer_Ok in Hparse as (raw & -> & Hfrom).
  destruct (String.length (ParserService.cleanText raw) <? 100)%nat eqn:El;
    [discriminate|].
  apply Nat.ltb_ge in El.
  apply bind_Ok_inv in H as (skills & wa & Hs & H).
  apply bind_Ok_inv in H as (embedding & w1 & He & H).
  assert (C1 : calm w w1).
  { eapply calm_trans; [exact (calmed_extractSkills _ _ _ _ _ Hs)|].
    exact (calmed_generateEmbedding _ _ _ _ _ He). }
  rewrite (bind_Ok _ _ w1 _ _ (resume_create_returns clock _ _ skills w1)) in H.
  cbv zeta in H. cbn [resume_id resume_fileName resume_createdAt] in H.
  apply bind_Ok_inv in H as (v & w2 & Hu & H).
  pose proof (calmed_upsertResume _ _ _ _ _ _ _ _ Hu) as C2.
  apply upsertResume_Ok in Hu as (-> & Hi & Hlog).
  assert (Hn : nextId w1 = nextId w) by (destruct C1 as ((_ & _ & N & _) & _); exact N).
  rewrite Hn in *.
  apply bind_Ok_inv in H as ([] & w3 & Hup & H).
  unfold ResumeUpload.resume_update, bind, get, throw in Hup.
  destruct (existsb _ (resumes w2)); [|discriminate].
  inversion Hup; subst w3; clear Hup.
  inversion H; subst; clear H.
  exists raw, skills, embedding, w1, w2. cbv zeta.
  repeat match goal with |- _ /\ _ => split end; assumption || reflexivity.
Qed.

Lemma bind_Throw_inv {A B} (c : M A) (k : A -> M B) (w : World) (e : JsError)
    (w' : World) :
  bind c k w = (Throw e, w') ->
  c w = (Throw e, w') \/ exists a w1, c w = (Ok a, w1) /\ k a w1 = (Throw e, w').
Proof.
  unfold bind. destruct (c w) as [[a|e1] w1]; intros H.
  - right. now exists a, w1.
  - left. now inversion H.
Qed.

Lemma uploadResume_Responded (lib : ParserService.Parsers) (svc : Services)
    (clock : list Event -> nat) (file : ParserService.File) (w : World)
    (status : nat) (body : UploadBody) (w' : World) :
  ResumeUpload.uploadResume lib svc clock (Some file) w
  = (UploadResponded status body, w') ->
  ResumeUpload.uploadResume_body lib svc clock file w
  = (Ok (UploadResponded status body), w').
Proof.
  unfold ResumeUpload.uploadResume.
  destruct (ResumeUpload.uploadResume_body lib svc clock file w) as [[o|e] w1];
    intros H; inversion H; reflexivity.
Qed.

(** The record a successful upload leaves, when the id it is given is
    not yet the id of a resume. *)
Lemma uploadResume_record (lib : ParserService.Parsers) (svc : Services)
    (clock : list Event -> nat) (file : ParserService.File) (w : World)
    (data : ResumeUploadResponse) (w' : World) :
  (forall r, In r (resumes w) -> resume_id r <> genId (nextId w)) ->
  ResumeUpload.uploadResume lib svc clock (Some file) w
  = (UploadResponded 201 (UploadData data), w') ->
  exists raw embedding,
    let id := genId (nextId w) in
    let skills := up_extractedSkills data in
    ParserService.validateFile file = Ok tt /\
    parsedFrom lib (ParserService.buffer file) (ParserService.originalname file) raw /\
    100 <= String.length (ParserService.cleanText raw) /\
    data = mkResumeUploadResponse id (ParserService.originalname file) skills
             (Some ("resume_" ++ id)%string) (up_createdAt data) /\
    resumes w' = resumes w
                 ++ [mkResume id (ParserService.originalname file)
                       (ParserService.cleanText raw) skills
                       (Some ("resume_" ++ id)%string) (up_createdAt data)] /\
    jobs w' = jobs w /\ matches w' = matches w /\ nextId w' = S (nextId w) /\
    indexInitialized w' = true /\
    In (IndexUpsert ("resume_" ++ id) embedding
          (mkVectorMetadata "resume" id
             (technicalSkills skills ++ frameworks skills ++ tools skills)
             (Some (VectorService.orString (currentRole skills) ""))))
       (log w').
Proof.
  intros Hfresh H. apply uploadResume_Responded, uploadResume_body_Ok in H.
  destruct H as (raw & skills & embedding & w1 & w2 & Hv & Hp & Hl & C1 & C2 & Hi & Hlog
                 & -> & Ho).
  inversion Ho; subst data; clear Ho. cbn [up_extractedSkills up_createdAt].
  destruct C1 as ((R1 & M1 & N1 & _) & J1 & _).
  destruct C2 as ((R2 & M2 & N2 & _) & J2 & _).
  cbn [resumes jobs matches nextId with_resumes with_nextId] in R2, M2, N2, J2.
  exists raw, embedding. cbv zeta.
  repeat match goal with |- _ /\ _ => split end;
    try assumption; try reflexivity; cbn [resumes jobs matches nextId with_resumes];
    try congruence.
  rewrite R2, R1, map_app, map_setVectorId_fresh by exact Hfresh.
  cbn [map]. unfold ResumeUpload.setVectorId at 1. cbn [resume_id].
  now rewrite String.eqb_refl.
Qed.

(** X21. An upload is refused before anything else happens when the text
    that the library extracts from the file has fewer than 100 code
    units: the handler passes an error to [next], and the world is as it
    was: no call to OpenAI or to the index was made and no record was
    written. (Cleaning never makes a text longer.) *)
Theorem uploadResume_refuses_short_text (lib : ParserService.Parsers) (svc : Services)
    (clock : list Event -> nat) (file : ParserService.File) (w : World) :
  (forall raw,
     parsedFrom lib (ParserService.buffer file) (ParserService.originalname file) raw ->
     String.length raw < 100) ->
  exists e,
    ResumeUpload.uploadResume lib svc clock (Some file) w = (UploadNext e, w).
Proof.
  intros Hshort.
  unfold ResumeUpload.uploadResume, ResumeUpload.uploadResume_body, bind, lift, throw.
  destruct (ParserService.validateFile file) as [[]|e]; [|now exists e].
  destruct (ParserService.parseBuffer lib _ _) as [text|e] eqn:Hp; [|now exists e].
  apply parseBuffer_Ok in Hp as (raw & -> & Hfrom).
  pose proof (cleanText_length raw) as Hle. specialize (Hshort raw Hfrom).
  destruct (Nat.ltb_spec (String.length (ParserService.cleanText raw)) 100) as [_|Hge];
    [eexists; reflexivity|lia].
Qed.

Lemma uploadResume_refuses_short_text_witness :
  exists e,
    ResumeUpload.uploadResume UploadDemo.lib Demo.svc UploadDemo.clock
      (Some UploadDemo.note) Demo.world
    = (UploadNext e, Demo.world).
Proof.
  apply (uploadResume_refuses_short_text UploadDemo.lib Demo.svc UploadDemo.clock
           UploadDemo.note Demo.world).
  intros raw [[E _]|[[E _]|[_ ->]]]; [vm_compute in E; discriminate E
                                      |vm_compute in E; discriminate E|].
  vm_compute. lia.
Defined.

(** X22. A successful upload of a file, into a store where the next id
    is not yet the id of a resume, appends exactly one resume record and
    touches no other: its id is the id of the response, its [vectorId] is
    ["resume_" ++ id], the id under which the embedding was upserted to
    the index with the technical skills, frameworks and tools as metadata;
    its text is a cleaned text of at least 100 code units with none of the
    code units that [cleanText] removes; the file passed [validateFile],
    so it has at most 10485760 bytes; jobs and matches are as before. *)
Theorem uploadResume_stores (lib : ParserService.Parsers) (svc : Services)
    (clock : list Event -> nat) (file : ParserService.File) (w : World)
    (data : ResumeUploadResponse) (w' : World) :
  (forall r, In r (resumes w) -> resume_id r <> genId (nextId w)) ->
  ResumeUpload.uploadResume lib svc clock (Some file) w
  = (UploadResponded 201 (UploadData data), w') ->
  exists stored embedding,
    resumes w' = resumes w ++ [stored] /\
    jobs w' = jobs w /\ matches w' = matches w /\
    resume_id stored = up_id data /\ up_id data = genId (nextId w) /\
    resume_fileName stored = ParserService.originalname file /\
    resume_vectorId stored = up_vectorId data /\
    up_vectorId data = Some ("resume_" ++ up_id data)%string /\
    resume_extractedSkills stored = up_extractedSkills data /\
    (100 <= String.length (resume_rawText stored))%nat /\
    everyUnit (fun c => negb (unwanted c)) (resume_rawText stored) = true /\
    (ParserService.size file <= 10485760)%N /\
    In (IndexUpsert ("resume_" ++ up_id data) embedding
          (mkVectorMetadata "resume" (up_id data)
             (technicalSkills (up_extractedSkills data)
              ++ frameworks (up_extractedSkills data)
              ++ tools (up_extractedSkills data))
             (Some (VectorService.orString (currentRole (up_extractedSkills data)) ""))))
       (log w').
Proof.
  intros Hfresh H.
  destruct (uploadResume_record lib svc clock file w data w' Hfresh H)
    as (raw & embedding & Hv & Hp & Hl & Hd & Hr & Hj & Hm & Hn & Hi & Hlog).
  cbv zeta in *.
  assert (Hid : up_id data = genId (nextId w)) by (rewrite Hd; reflexivity).
  assert (Hvec : up_vectorId data = Some ("resume_" ++ genId (nextId w))%string)
    by (rewrite Hd; reflexivity).
  eexists. exists embedding. split; [exact Hr|]. cbn [resume_id resume_fileName
    resume_vectorId resume_extractedSkills resume_rawText]. rewrite Hid.
  repeat match goal with |- _ /\ _ => split end;
    try assumption; try reflexivity; try (symmetry; assumption).
  - apply cleanText_no_unwanted.
  - unfold ParserService.validateFile in Hv.
    change (10 * 1024 * 1024)%N with 10485760%N in Hv.
    destruct (N.ltb_spec 10485760 (ParserService.size file)); [discriminate|lia].
Qed.

Lemma uploadResume_stores_witness :
  exists stored embedding,
    resumes UploadDemo.world1 = resumes Demo.world ++ [stored] /\
    resume_vectorId stored = Some "resume_0" /\
    In (IndexUpsert "resume_0" embedding
          (mkVectorMetadata "resume" "0" ["Python"; "AWS"; "Django"] (Some "")))
       (log UploadDemo.world1).
Proof.
  assert (Hfresh : forall r, In r (resumes Demo.world) ->
                             resume_id r <> genId (nextId Demo.world))
    by (intros r [<-|[]]; discriminate).
  assert (H : ResumeUpload.uploadResume UploadDemo.lib Demo.svc UploadDemo.clock
                (Some UploadDemo.cv) Demo.world
              = (UploadResponded 201 (UploadData UploadDemo.uploaded), UploadDemo.world1))
    by (vm_compute; reflexivity).
  destruct (uploadResume_stores UploadDemo.lib Demo.svc UploadDemo.clock UploadDemo.cv
              Demo.world UploadDemo.uploaded UploadDemo.world1 Hfresh H)
    as (stored & embedding & Hr & _ & _ & _ & _ & _ & Hv & _ & _ & _ & _ & _ & Hlog).
  exists stored, embedding. split; [exact Hr|]. split; [exact Hv|exact Hlog].
Defined.

Lemma upsertResume_throws (svc : Services) (id : string) (e : list Q) (ss : list string)
    (t : option string) (w : World) (err : JsError) (w' : World) :
  indexInitialized w = true ->
  VectorService.upsertResume svc id e ss t w = (Throw err, w') ->
  err = Error "Failed to store resume in vector database".
Proof.
  intros Hi. unfold VectorService.upsertResume.
  rewrite (bind_Ok _ _ _ _ _ (initializeIndex_ready svc w Hi)).
  unfold try_catch, bind, call, ret, throw.
  destruct (index_upsert svc _ _ _ _); intros H; inversion H; reflexivity.
Qed.

(** The steps of an upload that threw. *)
Lemma uploadResume_body_Throw (lib : ParserService.Parsers) (svc : Services)
    (clock : list Event -> nat) (file : ParserService.File) (w : World)
    (e : JsError) (w' : World) :
  ResumeUpload.uploadResume_body lib svc clock file w = (Throw e, w') ->
  jobs w' = jobs w /\ matches w' = matches w /\ nextId w <= nextId w' /\
  ((resumes w' = resumes w /\ nextId w' = nextId w) \/
   exists r,
     resumes w' = resumes w ++ [r] /\
     resume_id r = genId (nextId w) /\
     resume_vectorId r = None /\
     (indexInitialized w = true ->
      e = Error "Failed to store resume in vector database")).
Proof.
  intros Hb. unfold ResumeUpload.uploadResume_body in Hb.
  assert (Hstill : forall v : World,
            jobs v = jobs w -> matches v = matches w -> resumes v = resumes w ->
            nextId v = nextId w ->
            jobs v = jobs w /\ matches v = matches w /\ nextId w <= nextId v /\
            ((resumes v = resumes w /\ nextId v = nextId w) \/
             exists r,
               resumes v = resumes w ++ [r] /\
               resume_id r = genId (nextId w) /\
               resume_vectorId r = None /\
               (indexInitialized w = true ->
                e = Error "Failed to store resume in vector database")))
    by (intros v J M R N; split; [exact J|]; split; [exact M|]; split; [lia|];
        left; now split).
  apply bind_Throw_inv in Hb as [Hb|([] & w0 & Hv & Hb)];
    [unfold lift in Hb; inversion Hb; subst; now apply Hstill|].
  unfold lift in Hv. inversion Hv as [[Hvalid Hw0]]. subst w0. clear Hv.
  apply bind_Throw_inv in Hb as [Hb|(text & w0 & Hp & Hb)];
    [unfold lift in Hb; inversion Hb; subst; now apply Hstill|].
  unfold lift in Hp. inversion Hp as [[Hparse Hw0]]. subst w0. clear Hp.
  destruct (String.length text <? 100)%nat;
    [unfold throw in Hb; inversion Hb; subst; now apply Hstill|].
  apply bind_Throw_inv in Hb as [Hb|(skills & wa & Hs & Hb)].
  { destruct (calmed_extractSkills _ _ _ _ _ Hb) as ((R & M & N & _) & J & _).
    now apply Hstill. }
  pose proof (calmed_extractSkills _ _ _ _ _ Hs) as Ca.
  apply bind_Throw_inv in Hb as [Hb|(embedding & w1 & He & Hb)].
  { destruct (calm_trans _ _ _ Ca (calmed_generateEmbedding _ _ _ _ _ Hb))
      as ((R & M & N & _) & J & _). now apply Hstill. }
  pose proof (calm_trans _ _ _ Ca (calmed_generateEmbedding _ _ _ _ _ He)) as C1.
  clear Ca Hs He Hstill.
  rewrite (bind_Ok _ _ w1 _ _ (resume_create_returns clock _ _ skills w1)) in Hb.
  cbv zeta in Hb. cbn [resume_id resume_fileName resume_createdAt] in Hb.
  destruct C1 as ((R1 & M1 & N1 & _) & J1 & I1).
  apply bind_Throw_inv in Hb as [Hb|(v & w2 & Hu & Hb)].
  - destruct (calmed_upsertResume _ _ _ _ _ _ _ _ Hb) as ((R2 & M2 & N2 & _) & J2 & _).
    cbn [resumes jobs matches nextId with_resumes with_nextId] in R2, M2, N2, J2.
    split; [congruence|]. split; [congruence|]. split; [lia|]. right. eexists.
    split; [rewrite R2, R1; reflexivity|].
    split; [cbn [resume_id]; now rewrite N1|]. split; [reflexivity|].
    intros Hi. refine (upsertResume_throws _ _ _ _ _ _ _ _ _ Hb). exact (I1 Hi).
  - exfalso.
    destruct (calmed_upsertResume _ _ _ _ _ _ _ _ Hu) as ((R2 & _) & _).
    cbn [resumes with_resumes] in R2.
    apply bind_Throw_inv in Hb as [Hb|(u & w3 & _ & Hb)]; [|discriminate].
    unfold ResumeUpload.resume_update, bind, get, throw in Hb.
    rewrite R2, existsb_app_last in Hb by reflexivity. discriminate.
Qed.

Lemma uploadResume_Next (lib : ParserService.Parsers) (svc : Services)
    (clock : list Event -> nat) (file : ParserService.File) (w : World)
    (e : JsError) (w' : World) :
  ResumeUpload.uploadResume lib svc clock (Some file) w = (UploadNext e, w') ->
  ResumeUpload.uploadResume_body lib svc clock file w = (Throw e, w').
Proof.
  unfold ResumeUpload.uploadResume.
  destruct (ResumeUpload.uploadResume_body lib svc clock file w) as [[o|err] w1] eqn:Hb.
  - apply uploadResume_body_Ok in Hb as (? & ? & ? & ? & ? & Hb). cbv zeta in Hb.
    destruct Hb as (_ & _ & _ & _ & _ & _ & _ & _ & ->). discriminate.
  - intros H. inversion H. reflexivity.
Qed.

(** X23. An upload that fails writes no job and no match, and leaves the
    table of resumes either as it was or with one more record, which has
    the next id of the store and no [vectorId]: the record is created
    before the embedding is upserted to the index and is not taken back
    when that step fails. With the index handle initialised, the error is
    then the one of [upsertResume]. *)
Theorem uploadResume_failure_leaves (lib : ParserService.Parsers) (svc : Services)
    (clock : list Event -> nat) (file : ParserService.File) (w : World)
    (e : JsError) (w' : World) :
  ResumeUpload.uploadResume lib svc clock (Some file) w = (UploadNext e, w') ->
  jobs w' = jobs w /\ matches w' = matches w /\
  ((resumes w' = resumes w /\ nextId w' = nextId w) \/
   exists r,
     resumes w' = resumes w ++ [r] /\
     resume_id r = genId (nextId w) /\
     resume_vectorId r = None /\
     (indexInitialized w = true ->
      e = Error "Failed to store resume in vector database")).
Proof.
  intros H. apply uploadResume_Next, uploadResume_body_Throw in H.
  destruct H as (J & M & _ & H). auto.
Qed.

Lemma uploadResume_failure_leaves_witness :
  exists r,
    resumes UploadDemo.worldFailed = resumes Demo.world ++ [r] /\
    resume_vectorId r = None.
Proof.
  destruct (uploadResume_failure_leaves UploadDemo.lib Scenario.upsertDown
              UploadDemo.clock UploadDemo.cv Demo.world
              (Error "Failed to store resume in vector database")
              UploadDemo.worldFailed)
    as (_ & _ & [[Hr _]|(r & Hr & _ & Hv & _)]).
  - vm_compute. reflexivity.
  - vm_compute in Hr. discriminate Hr.
  - exists r. split; [exact Hr|exact Hv].
Defined.

(** X24. A resume that was uploaded can be taken out again: [deleteResume]
    on the id of the response answers 200 and asks the index to delete the
    vector ["resume_" ++ id] that the upload upserted; afterwards the
    tables of resumes and jobs are what they were before the upload, and
    the matches are those of before that do not refer to the id. *)
Theorem uploadResume_then_deleteResume (lib : ParserService.Parsers) (svc : Services)
    (clock : list Event -> nat) (file : ParserService.File) (w : World)
    (data : ResumeUploadResponse) (w' : World) :
  (forall r, In r (resumes w) -> resume_id r <> genId (nextId w)) ->
  ResumeUpload.uploadResume lib svc clock (Some file) w
  = (UploadResponded 201 (UploadData data), w') ->
  exists w'',
    ResumeController.deleteResume svc (up_id data) w'
    = (Responded 200 (MessageData "Resume deleted successfully"), w'') /\
    In (IndexDeleteOne ("resume_" ++ up_id data)) (log w'') /\
    resumes w'' = resumes w /\
    jobs w'' = jobs w /\
    matches w''
    = List.filter (fun m => negb (String.eqb (match_resumeId m) (up_id data))) (matches w).
Proof.
  intros Hfresh H.
  destruct (uploadResume_record lib svc clock file w data w' Hfresh H)
    as (raw & embedding & _ & _ & _ & Hd & Hr & Hj & Hm & _ & Hi & _).
  cbv zeta in *.
  assert (Hid : up_id data = genId (nextId w)) by (rewrite Hd; reflexivity).
  rewrite Hid. set (id := genId (nextId w)) in *.
  set (stored := mkResume id (ParserService.originalname file)
                   (ParserService.cleanText raw) (up_extractedSkills data)
                   (Some ("resume_" ++ id)%string) (up_createdAt data)) in *.
  assert (Hnone : forall l : list Resume,
            (forall r, In r l -> resume_id r <> id) ->
            List.find (fun r => String.eqb (resume_id r) id) l = None).
  { intros l Hl. apply find_all_false. intros r Hin.
    apply String.eqb_neq. now apply Hl. }
  assert (Hfind : List.find (fun r => String.eqb (resume_id r) id) (resumes w')
                  = Some stored).
  { rewrite Hr. clear -Hfresh Hnone. induction (resumes w) as [|a l IH].
    - simpl. now rewrite String.eqb_refl.
    - simpl. destruct (String.eqb_spec (resume_id a) id) as [E|_].
      + exfalso. apply (Hfresh a); [now left|exact E].
      + apply IH. intros r Hin. apply Hfresh. now right. }
  set (w1 := with_log w' (log w' ++ [Db (ResumeFindUnique id)])).
  assert (Hinit : VectorService.initializeIndex svc w1 = (Ok tt, w1))
    by (apply initializeIndex_ready; exact Hi).
  pose proof (deleteVector_returns svc ("resume_" ++ id) w1 w1 Hinit) as Hdv.
  unfold ResumeController.deleteResume, handler, ResumeController.deleteResume_body.
  rewrite (bind_Ok _ _ w' (Some stored) w1)
    by (unfold Prisma.resume_findUnique, bind, Prisma.op, get, ret;
        now rewrite <- Hfind).
  change (resume_vectorId stored) with (Some ("resume_" ++ id)%string).
  change (String.eqb ("resume_" ++ id) "") with false. cbv iota.
  rewrite (bind_Ok _ _ _ _ _ Hdv).
  unfold Prisma.resume_delete, bind, Prisma.op, get, ret. simpl.
  rewrite (find_existsb _ _ _ Hfind).
  eexists. split; [reflexivity|]. simpl. split; [|split; [|split]].
  - apply in_or_app. left. apply in_or_app. right. now left.
  - rewrite Hr, filter_app. simpl. rewrite String.eqb_refl. simpl.
    rewrite app_nil_r. apply forallb_filter_id. apply forallb_forall.
    intros r Hin. apply negb_true_iff, String.eqb_neq. now apply Hfresh.
  - exact Hj.
  - now rewrite Hm.
Qed.

Lemma uploadResume_then_deleteResume_witness :
  ResumeController.deleteResume Demo.svc "0" UploadDemo.world1
  = (Responded 200 (MessageData "Resume deleted successfully"), UploadDemo.worldDeleted) /\
  resumes UploadDemo.worldDeleted = resumes Demo.world /\
  exists w'',
    ResumeController.deleteResume Demo.svc (up_id UploadDemo.uploaded) UploadDemo.world1
    = (Responded 200 (MessageData "Resume deleted successfully"), w'') /\
    In (IndexDeleteOne ("resume_" ++ up_id UploadDemo.uploaded)) (log w'').
Proof.
  assert (Hfresh : forall r, In r (resumes Demo.world) ->
                             resume_id r <> genId (nextId Demo.world))
    by (intros r [<-|[]]; discriminate).
  assert (H : ResumeUpload.uploadResume UploadDemo.lib Demo.svc UploadDemo.clock
                (Some UploadDemo.cv) Demo.world
              = (UploadResponded 201 (UploadData UploadDemo.uploaded), UploadDemo.world1))
    by (vm_compute; reflexivity).
  split; [vm_compute; reflexivity|]. split; [vm_compute; reflexivity|].
  destruct (uploadResume_then_deleteResume UploadDemo.lib Demo.svc UploadDemo.clock
              UploadDemo.cv Demo.world UploadDemo.uploaded UploadDemo.world1 Hfresh H)
    as (w'' & Hd & Hlog & _).
  exists w''. split; [exact Hd|exact Hlog].
Defined.

(** ** The error handler *)

Lemma prefix_app_cases (keyword p s : string) :
  String.prefix keyword (p ++ s) = true ->
  String.prefix keyword p = true \/ String.prefix p keyword = true.
Proof.
  revert keyword. induction p as [|c r IH]; intros keyword H.
  - right. now destruct keyword.
  - destruct keyword as [|d k]; [now left|].
    cbn [String.append String.prefix] in *.
    destruct (Ascii.ascii_dec d c) as [->|_]; [|discriminate].
    destruct (IH k H) as [Hk|Hk]; [left|right]; cbn [String.prefix];
      destruct (Ascii.ascii_dec c c); congruence.
Qed.

(** A keyword that neither occurs in [p] nor starts at an end of [p]
    occurs in [p ++ s] only where it occurs in [s]. *)
Lemma includes_app_clear (p s keyword : string) :
  JS.includes p keyword = false ->
  overlaps p keyword = false ->
  JS.includes (p ++ s) keyword = JS.includes s keyword.
Proof.
  induction p as [|c r IH]; intros Hin Hov; [reflexivity|].
  rewrite includes_unfold in Hin. apply orb_false_iff in Hin as [Hpre Hin].
  cbn [overlaps] in Hov. apply orb_false_iff in Hov as [Hov1 Hov].
  change (String c r ++ s)%string with (String c (r ++ s)).
  rewrite includes_unfold, (IH Hin Hov).
  destruct (String.prefix keyword (String c (r ++ s))) eqn:E; [|reflexivity].
  apply (prefix_app_cases keyword (String c r) s) in E as [E|E]; congruence.
Qed.

Lemma statusOf_cases (m : string) :
  statusOf m =
  if JS.includes m "File too large" then 413
  else if JS.includes m "Invalid file type" then 400
  else if mentionsService m then 503 else 500.
Proof.
  unfold statusOf, mentionsService, ErrorMiddleware.errorHandler.
  destruct (JS.includes m "File too large"); [reflexivity|].
  destruct (JS.includes m "Invalid file type"); [reflexivity|].
  destruct (JS.includes m "OpenAI"), (JS.includes m "API key"),
    (JS.includes m "Pinecone"), (JS.includes m "vector"); reflexivity.
Qed.

(** The prefixes that the two OpenAI calls put before the provider's
    message bring in none of the handler's keywords. *)
Lemma statusOf_prefixed (p reason : string) :
  p = "Failed to extract skills: " \/ p = "Failed to generate embedding: " ->
  statusOf (p ++ reason) = statusOf reason.
Proof.
  intros Hp. rewrite !statusOf_cases. unfold mentionsService.
  assert (H : forall keyword,
            In keyword ["File too large"; "Invalid file type"; "OpenAI"; "API key";
                        "Pinecone"; "vector"] ->
            JS.includes (p ++ reason) keyword = JS.includes reason keyword).
  { intros keyword Hk. apply includes_app_clear;
      destruct Hp as [-> | ->]; simpl in Hk;
      repeat (destruct Hk as [<-|Hk]; [vm_compute; reflexivity|]); destruct Hk. }
  rewrite !H by (simpl; tauto). reflexivity.
Qed.

(** X25. A failure of one of the two OpenAI calls that [matchJob] and
    [uploadResume] make first is answered by [errorHandler] with the
    status it would give to the reason alone, the text after the prefix
    "Failed to extract skills: " or "Failed to generate embedding: ": the
    prefix brings in none of the handler's keywords. So the answer is 503
    only if the reason itself mentions "OpenAI", "API key", "Pinecone" or
    "vector"; a reason with none of the six keywords is answered 500. *)
Theorem openai_failure_status (svc : Services) (text : string) (w : World)
    (e : JsError) (w' : World) :
  AIService.extractSkills svc text w = (Throw e, w') \/
  AIService.generateEmbedding svc text w = (Throw e, w') ->
  exists reason,
    (e = Error ("Failed to extract skills: " ++ reason) \/
     e = Error ("Failed to generate embedding: " ++ reason)) /\
    fst (ErrorMiddleware.errorHandler (ErrorMiddleware.ofError e)) = statusOf reason /\
    (statusOf reason = 503 -> mentionsService reason = true) /\
    (JS.includes reason "File too large" = false ->
     JS.includes reason "Invalid file type" = false ->
     mentionsService reason = false ->
     ErrorMiddleware.errorHandler (ErrorMiddleware.ofError e)
     = (500, ErrorMiddleware.mkErrorBody (message e) "INTERNAL_ERROR" None)).
Proof.
  intros H.
  assert (Hfrom : fromOpenAI e)
    by (destruct H as [H|H];
        [exact (extractSkills_throws _ _ _ _ _ H)|exact (generateEmbedding_throws _ _ _ _ _ H)]).
  destruct Hfrom as (reason & Hfrom). exists reason. split; [exact Hfrom|].
  assert (Hs : statusOf (message e) = statusOf reason)
    by (destruct Hfrom as [-> | ->]; apply statusOf_prefixed; auto).
  split; [exact Hs|]. split.
  - rewrite statusOf_cases.
    destruct (JS.includes reason "File too large"); [discriminate|].
    destruct (JS.includes reason "Invalid file type"); [discriminate|].
    now destruct (mentionsService reason).
  - intros H1 H2 H3.
    assert (Hk : forall keyword,
              In keyword ["File too large"; "Invalid file type"; "OpenAI"; "API key";
                          "Pinecone"; "vector"] ->
              JS.includes reason keyword = false).
    { unfold mentionsService in H3.
      apply orb_false_iff in H3 as [H3 H6]. apply orb_false_iff in H3 as [H3 H5].
      apply orb_false_iff in H3 as [H3 H4].
      intros keyword Hin. simpl in Hin.
      repeat (destruct Hin as [<-|Hin]; [assumption|]). destruct Hin. }
    assert (Hm : forall keyword,
              In keyword ["File too large"; "Invalid file type"; "OpenAI"; "API key";
                          "Pinecone"; "vector"] ->
              JS.includes (message e) keyword = false).
    { intros keyword Hin. rewrite <- (Hk keyword Hin).
      destruct Hfrom as [-> | ->]; cbn [message]; apply includes_app_clear;
        simpl in Hin;
        repeat (destruct Hin as [<-|Hin]; [vm_compute; reflexivity|]); destruct Hin. }
    unfold ErrorMiddleware.ofError, ErrorMiddleware.errorHandler.
    rewrite !Hm by (simpl; tauto). cbn [orb].
    destruct (String.eqb_spec (message e) ""); [|reflexivity].
    destruct Hfrom as [-> | ->]; discriminate.
Qed.

Lemma openai_failure_status_witness :
  exists reason,
    fst (ErrorMiddleware.errorHandler
           (ErrorMiddleware.ofError
              (Error "Failed to generate embedding: Connection error.")))
    = statusOf reason.
Proof.
  destruct (openai_failure_status Outage.noConnection "Python developer" Demo.world
              (Error "Failed to generate embedding: Connection error.")
              (with_log Demo.world [Embed "Python developer"]))
    as (reason & _ & Hs & _).
  - right. vm_compute. reflexivity.
  - exists reason. exact Hs.
Defined.

Lemma upsertJob_throws (svc : Services) (id : string) (e : list Q) (ss : list string)
    (t : string) (w : World) (err : JsError) (w' : World) :
  indexInitialized w = true ->
  VectorService.upsertJob svc id e ss t w = (Throw err, w') ->
  err = Error "Failed to store job in vector database".
Proof.
  intros Hi. unfold VectorService.upsertJob.
  rewrite (bind_Ok _ _ _ _ _ (initializeIndex_ready svc w Hi)).
  unfold try_catch, bind, call, ret, throw.
  destruct (index_upsert svc _ _ _ _); intros H; inversion H; reflexivity.
Qed.

Lemma findSimilar_throws (svc : Services) (e : list Q) (k : Q) (f : option string)
    (w : World) (err : JsError) (w' : World) :
  indexInitialized w = true ->
  VectorService.findSimilar svc e k f w = (Throw err, w') ->
  err = Error "Failed to search vector database".
Proof.
  intros Hi. unfold VectorService.findSimilar.
  rewrite (bind_Ok _ _ _ _ _ (initializeIndex_ready svc w Hi)).
  unfold try_catch, bind, call, ret, throw.
  destruct (index_query svc _ _); intros H; inversion H; reflexivity.
Qed.

(** X26. Once the index handle is initialised, every failure of
    [upsertJob], [upsertResume] or [findSimilar] is answered by
    [errorHandler] with 503 and the code VECTOR_SERVICE_ERROR, whatever
    the index itself reported: the three methods replace the error by
    their own, whose message mentions "vector". *)
Theorem index_failure_answered_503 (svc : Services) (w : World) (e : JsError)
    (w' : World) :
  indexInitialized w = true ->
  (exists id embedding skills title,
     VectorService.upsertJob svc id embedding skills title w = (Throw e, w')) \/
  (exists id embedding skills title,
     VectorService.upsertResume svc id embedding skills title w = (Throw e, w')) \/
  (exists embedding topK filterType,
     VectorService.findSimilar svc embedding topK filterType w = (Throw e, w')) ->
  ErrorMiddleware.errorHandler (ErrorMiddleware.ofError e)
  = (503, ErrorMiddleware.mkErrorBody "Vector search service temporarily unavailable"
            "VECTOR_SERVICE_ERROR" None).
Proof.
  intros Hi [(id & emb & ss & t & H)|[(id & emb & ss & t & H)|(emb & k & f & H)]].
  - now rewrite (upsertJob_throws _ _ _ _ _ _ _ _ Hi H).
  - now rewrite (upsertResume_throws _ _ _ _ _ _ _ _ Hi H).
  - now rewrite (findSimilar_throws _ _ _ _ _ _ _ Hi H).
Qed.

Lemma index_failure_answered_503_witness :
  fst (ErrorMiddleware.errorHandler
         (ErrorMiddleware.ofError (Error "Failed to store job in vector database")))
  = 503.
Proof.
  rewrite (index_failure_answered_503 Scenario.upsertDown Outage.ready
             (Error "Failed to store job in vector database")
             (with_log Outage.ready
                [IndexUpsert "job_7" [1%Q] (mkVectorMetadata "job" "7" [] (Some "Editor"))])).
  - reflexivity.
  - reflexivity.
  - left. exists "7", [1%Q], [], "Editor". vm_compute. reflexivity.
Defined.

(** X27. The checks of the upload itself are answered through [next] and
    [errorHandler] with 500 and the code INTERNAL_ERROR: a file of more
    than 10485760 bytes that reaches [validateFile], and a file whose
    parsed text has fewer than 100 code units, get the message of the
    check back with status 500 (the 413 of the handler is for messages
    that contain "File too large"); in both cases the world is as it
    was. *)
Theorem uploadResume_checks_answered_500 (lib : ParserService.Parsers) (svc : Services)
    (clock : list Event -> nat) (file : ParserService.File) (w : World) :
  (10485760 < ParserService.size file)%N \/
  (ParserService.validateFile file = Ok tt /\
   exists text,
     ParserService.parseBuffer lib (ParserService.buffer file)
       (ParserService.originalname file) = Ok text /\
     String.length text < 100) ->
  exists e,
    ResumeUpload.uploadResume lib svc clock (Some file) w = (UploadNext e, w) /\
    (e = Error "File size exceeds 10MB limit" \/
     e = Error "Resume content is too short. Please upload a complete resume.") /\
    ErrorMiddleware.errorHandler (ErrorMiddleware.ofError e)
    = (500, ErrorMiddleware.mkErrorBody (message e) "INTERNAL_ERROR" None).
Proof.
  unfold ResumeUpload.uploadResume, ResumeUpload.uploadResume_body, bind, lift, throw.
  intros [Hbig|(Hv & text & Hp & Hl)].
  - unfold ParserService.validateFile. change (10 * 1024 * 1024)%N with 10485760%N.
    apply N.ltb_lt in Hbig. rewrite Hbig.
    eexists. split; [reflexivity|]. split; [now left|reflexivity].
  - rewrite Hv, Hp. apply Nat.ltb_lt in Hl. rewrite Hl.
    eexists. split; [reflexivity|]. split; [now right|reflexivity].
Qed.

Lemma uploadResume_checks_answered_500_witness :
  exists e,
    ResumeUpload.uploadResume UploadDemo.lib Demo.svc UploadDemo.clock
      (Some UploadDemo.huge) Demo.world = (UploadNext e, Demo.world) /\
    fst (ErrorMiddleware.errorHandler (ErrorMiddleware.ofError e)) = 500.
Proof.
  destruct (uploadResume_checks_answered_500 UploadDemo.lib Demo.svc UploadDemo.clock
              UploadDemo.huge Demo.world) as (e & Hu & _ & He).
  - left. vm_compute. reflexivity.
  - exists e. split; [exact Hu|]. now rewrite He.
Defined.

(** ** Pagination *)

Lemma string_of_uint_digits (d : Decimal.uint) :
  everyUnit isDecimalDigit (NilEmpty.string_of_uint d) = true.
Proof. induction d; cbn [NilEmpty.string_of_uint]; rewrite ?everyUnit_cons; auto. Qed.

Lemma digits_string_of_uint (d : Decimal.uint) (a : Z) :
  Pagination.digits 10 (Some a) (NilEmpty.string_of_uint d) = Some (valueAfter d a).
Proof.
  revert a. induction d; intros a; cbn [NilEmpty.string_of_uint valueAfter];
    [reflexivity|..];
    cbn [Pagination.digits];
    match goal with
    | |- context [Pagination.digitOf ?c] =>
        let v := eval vm_compute in (Pagination.digitOf c) in
        change (Pagination.digitOf c) with v
    end; cbv iota; cbn [Z.ltb Z.compare Pos.compare Pos.compare_cont]; rewrite IHd;
    f_equal; f_equal; lia.
Qed.

Lemma valueAfter_of_uint_acc (d : Decimal.uint) (m : nat) :
  valueAfter d (Z.of_nat m) = Z.of_nat (Nat.of_uint_acc d m).
Proof.
  revert m. induction d; intros m; cbn [valueAfter Nat.of_uint_acc]; [reflexivity|..];
    rewrite <- IHd; f_equal; rewrite Nat.tail_mul_spec; lia.
Qed.

Lemma to_uint_nonnil (n : nat) : Nat.to_uint n <> Decimal.Nil.
Proof.
  intros E. pose proof (Unsigned.of_to n) as H. rewrite E in H.
  cbn in H. subst n. discriminate E.
Qed.

(** On a numeral, [parseInt] reads every digit, in radix 10. *)
Lemma parseInteger_numeral (s : string) :
  s <> "" -> everyUnit isDecimalDigit s = true ->
  Pagination.parseInteger s = Pagination.digits 10 None s /\
  Pagination.parseInteger (String "-" s)
  = option_map (Z.mul (-1)) (Pagination.digits 10 None s).
Proof.
  destruct s as [|c r]; [easy|]. intros _. rewrite everyUnit_cons.
  intros [Hc Hr]%andb_true_iff. unfold isDecimalDigit in Hc.
  apply andb_true_iff in Hc as [Hlo Hhi].
  apply Nat.leb_le in Hlo. apply Nat.leb_le in Hhi.
  assert (Hws : JSText.isWhiteSpace c = false).
  { unfold JSText.isWhiteSpace. cbv zeta.
    repeat match goal with
           | |- context [(nat_of_ascii c =? ?k)%nat] =>
               destruct (Nat.eqb_spec (nat_of_ascii c) k); [lia|]
           end. reflexivity. }
  assert (H45 : (nat_of_ascii c =? 45)%nat = false) by (apply Nat.eqb_neq; lia).
  assert (H43 : (nat_of_ascii c =? 43)%nat = false) by (apply Nat.eqb_neq; lia).
  assert (Hx : match r with
               | String x _ => ((nat_of_ascii x =? 120) || (nat_of_ascii x =? 88))%nat
               | EmptyString => false
               end = false).
  { destruct r as [|x r']; [reflexivity|]. rewrite everyUnit_cons in Hr.
    apply andb_true_iff in Hr as [Hd _]. unfold isDecimalDigit in Hd.
    apply andb_true_iff in Hd as [Hl Hh].
    apply Nat.leb_le in Hl. apply Nat.leb_le in Hh.
    apply orb_false_iff. split; apply Nat.eqb_neq; lia. }
  assert (Hbase : forall sign,
            option_map (Z.mul sign)
              (Pagination.digits
                 (fst match String c r with
                      | String z (String x t) =>
                          if ((nat_of_ascii z =? 48)
                              && ((nat_of_ascii x =? 120) || (nat_of_ascii x =? 88)))%nat
                          then (16%Z, t) else (10%Z, String c r)
                      | _ => (10%Z, String c r)
                      end) None
                 (snd match String c r with
                      | String z (String x t) =>
                          if ((nat_of_ascii z =? 48)
                              && ((nat_of_ascii x =? 120) || (nat_of_ascii x =? 88)))%nat
                          then (16%Z, t) else (10%Z, String c r)
                      | _ => (10%Z, String c r)
                      end))
            = option_map (Z.mul sign) (Pagination.digits 10 None (String c r))).
  { intros sign. destruct r as [|x t]; [reflexivity|].
    rewrite Hx, andb_false_r. reflexivity. }
  split.
  - unfold Pagination.parseInteger. cbn [JSText.trimStart]. rewrite Hws. cbv zeta.
    rewrite H45, H43. cbn [fst snd]. rewrite Hbase.
    destruct (Pagination.digits 10 None (String c r)) as [v|]; [|reflexivity].
    cbn [option_map]. f_equal. lia.
  - unfold Pagination.parseInteger.
    change (JSText.trimStart (String "-" (String c r))) with (String "-" (String c r)).
    cbv zeta. change (nat_of_ascii "-" =? 45)%nat with true. cbn [fst snd].
    apply Hbase.
Qed.

Lemma parseInteger_decimal (n : nat) :
  Pagination.parseInteger (decimal n) = Some (Z.of_nat n) /\
  Pagination.parseInteger (String "-" (decimal n)) = Some (- Z.of_nat n)%Z.
Proof.
  assert (Hd : Pagination.digits 10 None (decimal n) = Some (Z.of_nat n)).
  { unfold decimal. pose proof (to_uint_nonnil n) as Hne.
    pose proof (Unsigned.of_to n) as Hof. unfold Nat.of_uint in Hof.
    rewrite <- Hof at 2. rewrite <- (valueAfter_of_uint_acc (Nat.to_uint n) 0).
    destruct (Nat.to_uint n) as [|d|d|d|d|d|d|d|d|d|d]; [contradiction|..];
      cbn [NilEmpty.string_of_uint Pagination.digits valueAfter];
      match goal with
      | |- context [Pagination.digitOf ?c] =>
          let v := eval vm_compute in (Pagination.digitOf c) in
          change (Pagination.digitOf c) with v
      end; cbv iota; cbn [Z.ltb Z.compare Pos.compare Pos.compare_cont];
      rewrite digits_string_of_uint; reflexivity. }
  assert (Hne : decimal n <> "").
  { unfold decimal. pose proof (to_uint_nonnil n).
    destruct (Nat.to_uint n); [contradiction|..]; discriminate. }
  destruct (parseInteger_numeral (decimal n) Hne (string_of_uint_digits _)) as [-> ->].
  rewrite Hd. split; [reflexivity|]. cbn [option_map]. f_equal; lia.
Qed.

Lemma round_nat (n : nat) :
  (Z.of_nat n <= 2 ^ 53)%Z ->
  (Double.round (inject_Z (Z.of_nat n)) == inject_Z (Z.of_nat n))%Q.
Proof. intros H. apply round_integer. lia. Qed.

(** The number read from a numeral is at least 1 when the numeral is not
    0, whatever its size. *)
Lemma round_positive (n : nat) :
  (1 <= Double.round (inject_Z (Z.of_nat (S n))))%Q.
Proof.
  change 1%Q with (Double.round (inject_Z 1)). apply round_mono.
  rewrite <- Zle_Qle. lia.
Qed.

Lemma parseIntOr_decimal (n : nat) (fallback : Q) :
  Pagination.parseIntOr (Some (decimal (S n))) fallback
  = Double.round (inject_Z (Z.of_nat (S n))).
Proof.
  unfold Pagination.parseIntOr, Pagination.parseInt.
  rewrite (proj1 (parseInteger_decimal (S n))). cbn [option_map].
  pose proof (round_positive n) as H.
  destruct (Qeq_bool _ 0) eqn:E; [|reflexivity].
  apply Qeq_bool_iff in E. lra.
Qed.

Lemma parseIntOr_negative (n : nat) (fallback : Q) :
  Pagination.parseIntOr (Some (String "-" (decimal (S n)))) fallback
  = Double.round (inject_Z (- Z.of_nat (S n))).
Proof.
  unfold Pagination.parseIntOr, Pagination.parseInt.
  rewrite (proj2 (parseInteger_decimal (S n))). cbn [option_map].
  assert (H : (Double.round (inject_Z (- Z.of_nat (S n))) <= -1)%Q).
  { change (-1)%Q with (Double.round (inject_Z (-1))). apply round_mono.
    rewrite <- Zle_Qle. lia. }
  destruct (Qeq_bool _ 0) eqn:E; [|reflexivity].
  apply Qeq_bool_iff in E. lra.
Qed.

(** X28. The window that [getJobs] and [getResumes] read from the query
    string, on doubles. The limit is never above 50. A page and a limit
    written as decimal numerals of positive numbers, the page at most
    2^53 / 50, give that page, the limit capped at 50 and a skip of
    (page - 1) times that limit, all exact. Without the two parameters the
    window is page 1, limit 10, skip 0. There is no lower bound: a limit
    written as a negative numeral (of a number up to 2^53) is passed on
    as that negative number. Beyond 2^53 the page is the nearest double:
    page 9007199254740993 with limit 1 gives page 9007199254740992 and
    skip 9007199254740991. *)
Theorem window_bounds :
  (forall queryPage queryLimit,
     (Pagination.limit (Pagination.window queryPage queryLimit) <= 50)%Q) /\
  (forall p n : nat,
     (Z.of_nat p * 50 <= 2 ^ 53)%Z ->
     let w := Pagination.window (Some (decimal (S p))) (Some (decimal (S n))) in
     (Pagination.page w == inject_Z (Z.of_nat (S p)) /\
      Pagination.limit w == inject_Z (Z.min (Z.of_nat (S n)) 50) /\
      Pagination.skip w == inject_Z (Z.of_nat p) * Pagination.limit w)%Q) /\
  (let w := Pagination.window None None in
   (Pagination.page w == 1 /\ Pagination.limit w == 10 /\ Pagination.skip w == 0)%Q) /\
  (forall queryPage (n : nat),
     (Z.of_nat (S n) <= 2 ^ 53)%Z ->
     (Pagination.limit
        (Pagination.window queryPage (Some (String "-" (decimal (S n)))))
      == - inject_Z (Z.of_nat (S n)))%Q) /\
  (let w := Pagination.window (Some "9007199254740993") (Some "1") in
   (Pagination.page w == 9007199254740992 /\ Pagination.limit w == 1 /\
    Pagination.skip w == 9007199254740991)%Q).
Proof.
  split; [|split; [|split; [|split]]].
  - intros queryPage queryLimit. unfold Pagination.window. cbn [Pagination.limit].
    apply Math_min_le.
  - intros p n Hp w. unfold w, Pagination.window.
    cbn [Pagination.page Pagination.limit Pagination.skip].
    rewrite !parseIntOr_decimal.
    assert (Epage : (Double.round (inject_Z (Z.of_nat (S p))) == inject_Z (Z.of_nat (S p)))%Q)
      by (apply round_nat; lia).
    assert (Elimit : (JS.Math_min (Double.round (inject_Z (Z.of_nat (S n)))) 50
                      == inject_Z (Z.min (Z.of_nat (S n)) 50))%Q).
    { unfold JS.Math_min.
      destruct (Z_le_gt_dec (Z.of_nat (S n)) 50) as [Le|Gt].
      - rewrite Z.min_l by exact Le.
        assert (E : (Double.round (inject_Z (Z.of_nat (S n))) == inject_Z (Z.of_nat (S n)))%Q)
          by (apply round_nat; lia).
        assert (L : (inject_Z (Z.of_nat (S n)) <= 50)%Q)
          by (change 50%Q with (inject_Z 50); rewrite <- Zle_Qle; exact Le).
        destruct (Qle_bool _ 50) eqn:B; [exact E|].
        exfalso. assert (Qle_bool (Double.round (inject_Z (Z.of_nat (S n)))) 50 = true)
          by (apply Qle_bool_iff; lra). congruence.
      - rewrite Z.min_r by lia.
        assert (G : (51 <= Double.round (inject_Z (Z.of_nat (S n))))%Q).
        { change 51%Q with (Double.round (inject_Z 51)). apply round_mono.
          rewrite <- Zle_Qle. lia. }
        destruct (Qle_bool _ 50) eqn:B; [|reflexivity].
        apply Qle_bool_iff in B. lra. }
    split; [exact Epage|]. split; [exact Elimit|].
    set (limit := JS.Math_min (Double.round (inject_Z (Z.of_nat (S n)))) 50) in *.
    assert (E1 : (Double.round (Double.round (inject_Z (Z.of_nat (S p))) - 1)
                  == inject_Z (Z.of_nat p))%Q).
    { apply Qeq_trans with (Double.round (inject_Z (Z.of_nat p)));
        [|apply round_nat; lia].
      apply round_comp. rewrite Epage, Nat2Z.inj_succ. unfold Z.succ.
      rewrite inject_Z_plus. change (inject_Z 1) with 1%Q. ring. }
    assert (Hmin : (0 <= Z.min (Z.of_nat (S n)) 50 <= 50)%Z) by lia.
    apply Qeq_trans
      with (Double.round (inject_Z (Z.of_nat p * Z.min (Z.of_nat (S n)) 50))).
    + apply round_comp. rewrite E1, Elimit, inject_Z_mult. reflexivity.
    + rewrite round_integer by nia. rewrite inject_Z_mult, Elimit. reflexivity.
  - cbv zeta. repeat split; vm_compute; reflexivity.
  - intros queryPage n Hn. unfold Pagination.window. cbn [Pagination.limit].
    rewrite parseIntOr_negative.
    assert (E : (Double.round (inject_Z (- Z.of_nat (S n)))
                 == - inject_Z (Z.of_nat (S n)))%Q)
      by (rewrite round_integer by lia; rewrite inject_Z_opp; reflexivity).
    assert (L : (0 <= inject_Z (Z.of_nat (S n)))%Q)
      by (change 0%Q with (inject_Z 0); rewrite <- Zle_Qle; lia).
    unfold JS.Math_min. destruct (Qle_bool _ 50) eqn:B; [exact E|].
    exfalso.
    assert (Qle_bool (Double.round (inject_Z (- Z.of_nat (S n)))) 50 = true)
      by (apply Qle_bool_iff; lra).
    congruence.
  - cbv zeta. repeat split; vm_compute; reflexivity.
Qed.

(** ** What is refused before a controller runs *)

Lemma existsb_eqb_In (x : string) (l : list string) :
  existsb (String.eqb x) l = true <-> In x l.
Proof.
  rewrite existsb_exists. split.
  - intros (y & Hin & E). apply String.eqb_eq in E. now subst y.
  - intros Hin. exists x. split; [exact Hin|apply String.eqb_refl].
Qed.

(** X29. The two checks that run before a controller does, and what
    [errorHandler] makes of their errors. The CORS callback lets a
    request through when it has no origin or its origin is in the list of
    allowed origins; any other origin is refused with an error that the
    handler answers with 500 and the code INTERNAL_ERROR. The upload
    route's [fileFilter] accepts the three MIME types of [validateFile];
    any other type is refused with an error that the handler answers with
    400 and the code INVALID_FILE_TYPE. *)
Theorem rejections_before_the_controllers :
  (forall allowedOrigins origin,
     match Server.corsOrigin allowedOrigins origin with
     | Ok allowed =>
         allowed = true /\
         (origin = None \/ origin = Some ""%string \/
          exists o, origin = Some o /\ In o allowedOrigins)
     | Throw e =>
         (exists o, origin = Some o /\ o <> ""%string /\ ~ In o allowedOrigins) /\
         ErrorMiddleware.errorHandler (ErrorMiddleware.ofError e)
         = (500, ErrorMiddleware.mkErrorBody "Not allowed by CORS" "INTERNAL_ERROR" None)
     end) /\
  (forall file,
     match ResumeRoutes.fileFilter file with
     | Ok accepted =>
         accepted = true /\
         In (ParserService.mimetype file) ParserService.allowedMimeTypes
     | Throw e =>
         ~ In (ParserService.mimetype file) ParserService.allowedMimeTypes /\
         ErrorMiddleware.errorHandler (ErrorMiddleware.ofError e)
         = (400, ErrorMiddleware.mkErrorBody
                   "Invalid file type. Only PDF, DOCX, and TXT files are allowed."
                   "INVALID_FILE_TYPE" None)
     end).
Proof.
  split.
  - intros allowedOrigins [o|]; cbn [Server.corsOrigin]; [|now split; [|left]].
    destruct (String.eqb_spec o "") as [->|Hne]; [split; [reflexivity|]; right; now left|].
    destruct (existsb (String.eqb o) allowedOrigins) eqn:E.
    + split; [reflexivity|]. right. right. exists o. split; [reflexivity|].
      now apply existsb_eqb_In.
    + split; [|reflexivity]. exists o. split; [reflexivity|]. split; [exact Hne|].
      intros Hin. apply existsb_eqb_In in Hin. congruence.
  - intros file. unfold ResumeRoutes.fileFilter. cbv zeta.
    change [ "application/pdf";
             "application/vnd.openxmlformats-officedocument.wordprocessingml.document";
             "text/plain" ] with ParserService.allowedMimeTypes.
    destruct (existsb _ ParserService.allowedMimeTypes) eqn:E.
    + split; [reflexivity|]. now apply existsb_eqb_In.
    + split; [|reflexivity]. intros Hin. apply existsb_eqb_In in Hin. congruence.
Qed.

(** X30. An upload never disturbs the match records: whatever it answers,
    the matches and the jobs are as before and the id counter has not gone
    down, so the store's invariant (no two matches for one pair, every
    job id of a match below the counter) holds after it as it did
    before. *)
Theorem uploadResume_keeps_storeInv (lib : ParserService.Parsers) (svc : Services)
    (clock : list Event -> nat) (file : option ParserService.File) (w : World)
    (o : UploadOutcome) (w' : World) :
  storeInv w ->
  ResumeUpload.uploadResume lib svc clock file w = (o, w') ->
  storeInv w' /\ matches w' = matches w /\ jobs w' = jobs w /\ nextId w <= nextId w'.
Proof.
  intros [U B] H.
  assert (Hkeep : matches w' = matches w /\ jobs w' = jobs w /\ nextId w <= nextId w').
  { destruct file as [file|]; [|inversion H; subst; auto].
    unfold ResumeUpload.uploadResume in H.
    destruct (ResumeUpload.uploadResume_body lib svc clock file w) as [[o1|e] w1] eqn:Hb;
      inversion H; subst; clear H.
    - apply uploadResume_body_Ok in Hb
        as (raw & skills & embedding & v1 & v2 & _ & _ & _ & C1 & C2 & _ & _ & -> & _).
      destruct C1 as ((_ & M1 & N1 & _) & J1 & _).
      destruct C2 as ((_ & M2 & N2 & _) & J2 & _).
      cbn [jobs matches nextId with_resumes with_nextId] in *.
      split; [congruence|]. split; [congruence|]. lia.
    - apply uploadResume_body_Throw in Hb as (J & M & N & _). auto. }
  destruct Hkeep as (M & J & N). split; [|auto].
  split.
  - unfold uniquePairs. now rewrite M.
  - intros m Hm. rewrite M in Hm. destruct (B m Hm) as (k & Hk & E).
    exists k. split; [lia|exact E].
Qed.

Lemma uploadResume_keeps_storeInv_witness :
  storeInv UploadDemo.world1 /\ nextId Demo.world <= nextId UploadDemo.world1.
Proof.
  destruct (uploadResume_keeps_storeInv UploadDemo.lib Demo.svc UploadDemo.clock
              (Some UploadDemo.cv) Demo.world
              (UploadResponded 201 (UploadData UploadDemo.uploaded)) UploadDemo.world1)
    as (Hs & _ & _ & Hn).
  - apply storeInv_no_matches. reflexivity.
  - vm_compute. reflexivity.
  - split; [exact Hs|exact Hn].
Defined.
